(** * gox: the relay router and the CQRS bus over Watermill

    A shallow embedding of [eventrouter/router.go], [eventrouter/interfaces.go]
    and of the [messaging] bus ([NewBus] and the methods of [cqrsBus]),
    with the properties of the dispatch core stated and proved over it.

    Go pointers to messages are addresses into a heap, Go's [error] is
    [option error] ([None] is [nil]), a nil dereference is a panic, and
    log lines, the clock and the heap are threaded through a small state
    monad. *)

From Stdlib Require Import ZArith Ascii String.
From stdpp Require Import gmap strings list pretty.

Set Default Proof Using "Type".

(* ================================================================== *)
(** * Errors: package syserr *)
(* ================================================================== *)

Module syserr.

Inductive Code : Type := InvalidArgumentCode | InternalCode.

(** Modelled from the spec: package [syserr] belongs to the repository
    but is not under src/ (the spec keeps the structured error facility
    outside the core).  An error value is kept as the call that built
    it: [New code msg], [WrapAsIs err msg fields], or a value made
    outside the repository (transport, handler, Watermill). *)
Inductive error : Type :=
| Foreign (msg : string)
| New (code : Code) (msg : string)
| WrapAsIs (err : error) (msg : string) (fields : list (string * string)).

(** [syserr.F key value] *)
Definition F (key value : string) : string * string := (key, value).

End syserr.

Export syserr.

(* ================================================================== *)
(** * The world a call runs in *)
(* ================================================================== *)

(** [context.Context]: what the code looks at is whether two contexts are
    the same one and whether one is cancelled. *)
Record Context : Type := mkContext { ctx_id : nat; ctx_cancelled : bool }.

Definition Background : Context := mkContext 0 false.

(** [*message.Message] is an address; the message is in the heap. *)
Definition ptr := positive.

Record Message : Type := mkMessage {
  UUID : string;
  Metadata : gmap string string;
  Payload : list Byte.byte;
  ctx : option Context
}.

Inductive Level : Type := LevelDebug | LevelInfo.

Inductive Attr : Type :=
| AString (key value : string)
| ADuration (key : string) (nanos : Z)
| AError (key : string) (err : option error).

(** [*slog.Logger]: the sink a line goes to. *)
Definition Logger := string.
Definition slog_Default : Logger := "slog.Default".

Record LogEntry : Type := mkLogEntry {
  log_sink : option Logger;
  log_level : Level;
  log_text : string;
  log_attrs : list Attr
}.

Record World : Type := mkWorld {
  heap : gmap positive Message;
  clock : Z;
  logs : list LogEntry
}.

(** A call either returns a value and the world it leaves, or panics. *)
Inductive Outcome (A : Type) : Type :=
| Ret (a : A) (w : World)
| Panic.
Arguments Ret {A} a w.
Arguments Panic {A}.

Definition M (A : Type) : Type := World -> Outcome A.

Definition ret {A : Type} (a : A) : M A := fun w => Ret a w.

Definition bind {A B : Type} (m : M A) (k : A -> M B) : M B :=
  fun w => match m w with
           | Ret a w' => k a w'
           | Panic => Panic
           end.

Declare Scope go_scope.
Delimit Scope go_scope with go.
Notation "'let!' x ':=' m 'in' k" := (bind m (fun x => k))
  (at level 10, x name, m at level 100, k at level 200)
  : go_scope.
Notation "m ';!' k" := (bind m (fun _ => k))
  (at level 100, k at level 200, right associativity) : go_scope.
Open Scope go_scope.

(** [*msg]: reading through a nil pointer panics. *)
Definition load (msg : ptr) : M Message :=
  fun w => match heap w !! msg with
           | Some m => Ret m w
           | None => Panic
           end.

Definition store (msg : ptr) (m : Message) : M unit :=
  fun w => Ret tt (mkWorld (<[msg := m]> (heap w)) (clock w) (logs w)).

Definition emit (e : LogEntry) : M unit :=
  fun w => Ret tt (mkWorld (heap w) (clock w) (logs w ++ [e])).

(** [time.Now()] *)
Definition time_Now : M Z := fun w => Ret (clock w) w.

(** [time.Since(start)] *)
Definition time_Since (start : Z) : M Z := fun w => Ret (clock w - start)%Z w.

(* ================================================================== *)
(** * Watermill's message package, as far as the wrappers use it *)
(* ================================================================== *)

Module message.

(** [msg.Context()]: the context set on the message, else the background one. *)
Definition Message_Context (msg : ptr) : M Context :=
  let! m := load msg in ret (default Background (ctx m)).

(** [msg.UUID] *)
Definition Message_UUID (msg : ptr) : M string :=
  let! m := load msg in ret (UUID m).

(** [msg.Metadata.Set(key, value)] *)
Definition Metadata_Set (msg : ptr) (key value : string) : M unit :=
  let! m := load msg in
  store msg (mkMessage (UUID m) (<[key := value]> (Metadata m)) (Payload m) (ctx m)).

(** [msg.SetContext(ctx)] *)
Definition Message_SetContext (msg : ptr) (c : Context) : M unit :=
  let! m := load msg in
  store msg (mkMessage (UUID m) (Metadata m) (Payload m) (Some c)).

Definition HandlerFunc : Type := ptr -> M (list ptr * option error).
Definition NoPublishHandlerFunc : Type := ptr -> M (option error).
Definition HandlerMiddleware : Type := HandlerFunc -> HandlerFunc.

(** A plugin is a Go function over the router itself; the router only
    stores it until [Run], so it is kept by its name. *)
Definition RouterPlugin : Type := string.

(** The transport capability (spec, section 6). *)
Record Publisher : Type := mkPublisher {
  pub_Publish : string -> ptr -> M (option error);
  pub_Close : M (option error)
}.

Record Subscriber : Type := mkSubscriber {
  sub_Subscribe : Context -> string -> M (list ptr * option error);
  sub_Close : M (option error)
}.

Record HandlerRegistration : Type := mkRegistration {
  reg_name : string;
  reg_subscribeTopic : string;
  reg_subscriber : Subscriber;
  reg_publishTopic : string;
  reg_publisher : option Publisher;
  reg_handler : HandlerFunc
}.

Inductive Lifecycle : Type := Created | Configured | Running | Closed.

Record RouterConfig : Type := mkRouterConfig { CloseTimeout : Z }.

(** Modelled from the spec: Watermill's [message.Router], which both
    wrappers delegate to, is not under src/.  The record is the
    RouterState of the spec (registrations, ordered middleware, plus the
    plugin list) with the state of the lifecycle machine of section 4.6.
    The wrappers decide whether a call reaches the router; the router
    stores what it is given. *)
Record Router : Type := mkRouter {
  r_config : RouterConfig;
  handlers : list HandlerRegistration;
  middlewares : list HandlerMiddleware;
  plugins : list RouterPlugin;
  lifecycle : Lifecycle
}.

(** Modelled from the spec: [message.NewRouter]; RouterState is created empty. *)
Definition NewRouter (cfg : RouterConfig) (wmLogger : Logger) : Router + error :=
  inl (mkRouter cfg [] [] [] Created).

(** Modelled from the spec: [Router.IsRunning] reflects the current state. *)
Definition IsRunning (r : Router) : bool :=
  match lifecycle r with Running => true | _ => false end.

(** Created -> Configured on a registration; the other states stay. *)
Definition configured (l : Lifecycle) : Lifecycle :=
  match l with Created => Configured | s => s end.

(** Modelled from the spec: [Router.AddHandler] appends a Relay
    registration; several registrations per name or topic are permitted. *)
Definition AddHandler (handlerName subscribeTopic : string) (subscriber : Subscriber)
    (publishTopic : string) (publisher : Publisher) (handlerFunc : HandlerFunc)
    (r : Router) : Router :=
  mkRouter (r_config r)
    (handlers r ++ [mkRegistration handlerName subscribeTopic subscriber
                      publishTopic (Some publisher) handlerFunc])
    (middlewares r) (plugins r) (configured (lifecycle r)).

(** Modelled from the spec: [Router.AddNoPublisherHandler] appends a
    consumer-only registration: no publish topic, no publisher, and the
    handler's result alone decides ack or nack. *)
Definition AddNoPublisherHandler (handlerName subscribeTopic : string)
    (subscriber : Subscriber) (handlerFunc : NoPublishHandlerFunc)
    (r : Router) : Router :=
  mkRouter (r_config r)
    (handlers r ++ [mkRegistration handlerName subscribeTopic subscriber
                      EmptyString None
                      (fun msg => let! err := handlerFunc msg in ret ([], err))])
    (middlewares r) (plugins r) (configured (lifecycle r)).

(** Not under src/, and the spec is silent on it: Watermill's
    [Router.AddHandler], to which [Router.AddNoPublisherHandler] comes
    down as well, first looks the handler name up and panics with
    [DuplicateHandlerNameError] when it is taken.  [name_taken] is that
    test. *)
Definition name_taken (handlerName : string) (r : Router) : bool :=
  existsb (fun g => String.eqb (reg_name g) handlerName) (handlers r).

(** The two calls as the wrappers of router.go meet them: the panic of
    the library ([None]) on a name that is taken, else the registration.
    The processors of the cqrs component below are modelled from the
    spec, which lets registrations of one name accumulate; they keep to
    [AddNoPublisherHandler] as the spec has it. *)
Definition Router_AddHandler (handlerName subscribeTopic : string)
    (subscriber : Subscriber) (publishTopic : string) (publisher : Publisher)
    (handlerFunc : HandlerFunc) (r : Router) : option Router :=
  if name_taken handlerName r then None
  else Some (AddHandler handlerName subscribeTopic subscriber publishTopic publisher
               handlerFunc r).

Definition Router_AddNoPublisherHandler (handlerName subscribeTopic : string)
    (subscriber : Subscriber) (handlerFunc : NoPublishHandlerFunc)
    (r : Router) : option Router :=
  if name_taken handlerName r then None
  else Some (AddNoPublisherHandler handlerName subscribeTopic subscriber handlerFunc r).

(** Modelled from the spec: [Router.AddMiddleware] appends to the ordered chain. *)
Definition AddMiddleware (m : HandlerMiddleware) (r : Router) : Router :=
  mkRouter (r_config r) (handlers r) (middlewares r ++ [m]) (plugins r)
    (lifecycle r).

(** Modelled from the spec: [Router.AddPlugin] appends to the plugin list. *)
Definition AddPlugin (p : RouterPlugin) (r : Router) : Router :=
  mkRouter (r_config r) (handlers r) (middlewares r) (plugins r ++ [p])
    (lifecycle r).

Definition with_lifecycle (l : Lifecycle) (r : Router) : Router :=
  mkRouter (r_config r) (handlers r) (middlewares r) (plugins r) l.

(** Modelled from the spec: the middleware chain around the handler
    function of a registration (section 4.5), the first middleware
    outermost. *)
Definition chain (mws : list HandlerMiddleware) (h : HandlerFunc) : HandlerFunc :=
  fold_right (fun mw h => mw h) h mws.

(** Modelled from the spec: the publishing of what a handler function
    returned (section 4.5), message by message in their order, up to the
    first one the publisher refuses. *)
Fixpoint publish_each (p : Publisher) (topic : string) (msgs : list ptr)
    : M (option error) :=
  match msgs with
  | [] => ret None
  | msg :: rest =>
      let! err := pub_Publish p topic msg in
      match err with
      | Some e => ret (Some e)
      | None => publish_each p topic rest
      end
  end.

(** Modelled from the spec: what the engine does with one received
    envelope for a Relay registration (section 4.5).  The envelope runs
    through the middleware chain and the bound handler.  With a publish
    topic: on success what the handler function returned is published to
    the publish topic, on failure nothing is published and the envelope
    is nacked.  Without one the handler's result alone decides.  The
    result is nil for an ack and the error for a nack. *)
Definition deliver (r : Router) (g : HandlerRegistration) (msg : ptr)
    : M (option error) :=
  let! res := chain (middlewares r) (reg_handler g) msg in
  match snd res with
  | Some e => ret (Some e)
  | None =>
      match reg_publisher g with
      | Some p => publish_each p (reg_publishTopic g) (fst res)
      | None => ret None
      end
  end.

(** Modelled from the spec: the first half of [Router.Run].  From
    Created or Configured the consumption loops are opened and the
    router is Running; an already running instance is rejected outright,
    a closed one fails with a terminal-state error. *)
Definition Run_start (c : Context) (r : Router) : Router + error :=
  match lifecycle r with
  | Created | Configured => inl (with_lifecycle Running r)
  | Running => inr (Foreign "router is already running")
  | Closed => inr (Foreign "router is closed")
  end.

(** Modelled from the spec: [Router.Run] blocks while the router is
    Running and returns once it is Closed (by [Close] or by the
    cancellation of its context). *)
Definition Run (c : Context) (r : Router) : Router * option error :=
  match Run_start c r with
  | inl running => (with_lifecycle Closed running, None)
  | inr e => (r, Some e)
  end.

(** Modelled from the spec: [Router.Close].  Running -> Closed; the
    loops get the close timeout to drain, and [timeouted] says that they
    did not (reported, the resources are released all the same).
    Before [Run] and on a closed router the call does nothing. *)
Definition Close (timeouted : bool) (r : Router) : Router * option error :=
  match lifecycle r with
  | Running =>
      (with_lifecycle Closed r,
       if timeouted then Some (Foreign "router close timeout") else None)
  | Created | Configured | Closed => (r, None)
  end.

End message.

(* ================================================================== *)
(** * Package eventrouter (router.go, interfaces.go) *)
(* ================================================================== *)

Module eventrouter.

(** [MessageHandler]: [Handle(ctx, msg) error].  The handler works on the
    message behind the pointer, so what it writes there is seen by every
    later reader of the same pointer. *)
Definition MessageHandler : Type := Context -> ptr -> M (option error).

(** [MessageHandlerFunc] and its [Handle] method. *)
Definition MessageHandlerFunc : Type := Context -> ptr -> M (option error).
Definition Handle (f : MessageHandlerFunc) : MessageHandler :=
  fun c msg => f c msg.

Record Config : Type := mkConfig {
  cfg_Logger : option Logger;
  cfg_CloseTimeout : option Z
}.

Record messageRouter : Type := mkMessageRouter {
  router : message.Router;
  logger : Logger;
  config : Config
}.

Definition with_router (r : messageRouter) (wm : message.Router) : messageRouter :=
  mkMessageRouter wm (logger r) (config r).

(** [NewRouter] *)
Definition NewRouter (cfg : Config) : messageRouter + error :=
  let cfg := match cfg_Logger cfg with
             | None => mkConfig (Some slog_Default) (cfg_CloseTimeout cfg)
             | Some _ => cfg
             end in
  let wmLogger := default slog_Default (cfg_Logger cfg) in
  let routerConfig := match cfg_CloseTimeout cfg with
                      | Some d => message.mkRouterConfig d
                      | None => message.mkRouterConfig 0
                      end in
  match message.NewRouter routerConfig wmLogger with
  | inr err => inr (WrapAsIs err "failed to create watermill router" [])
  | inl wm => inl (mkMessageRouter wm (default slog_Default (cfg_Logger cfg)) cfg)
  end.

(** The closure [handlerFunc] that [AddHandler] hands to Watermill. *)
Definition AddHandler_handlerFunc (handler : MessageHandler) : message.HandlerFunc :=
  fun msg =>
    let! c := message.Message_Context msg in
    let! err := handler c msg in
    match err with
    | Some e => ret ([], Some e)
    | None => ret ([msg], None)
    end.

(** [AddHandler].  What the call comes to is [Some] of the router and the
    error returned, or [None] when it panics: the call it forwards to
    Watermill panics on a handler name that is taken, and the method has
    no recover. *)
Definition AddHandler (handlerName subscribeTopic publishTopic : string)
    (subscriber : message.Subscriber) (publisher : message.Publisher)
    (handler : MessageHandler) (r : messageRouter)
    : option (messageRouter * option error) :=
  if message.IsRunning (router r) then
    Some (r, Some (New InvalidArgumentCode "cannot add handler to running router"))
  else
    match message.Router_AddHandler handlerName subscribeTopic subscriber publishTopic
            publisher (AddHandler_handlerFunc handler) (router r) with
    | None => None
    | Some wm => Some (with_router r wm, None)
    end.

(** The closure [handlerFunc] of [AddNoPublisherHandler]. *)
Definition AddNoPublisherHandler_handlerFunc (handler : MessageHandler)
    : message.NoPublishHandlerFunc :=
  fun msg =>
    let! c := message.Message_Context msg in
    handler c msg.

(** [AddNoPublisherHandler]; [None] is the panic of the forwarded call, as
    for [AddHandler]. *)
Definition AddNoPublisherHandler (handlerName subscribeTopic : string)
    (subscriber : message.Subscriber) (handler : MessageHandler)
    (r : messageRouter) : option (messageRouter * option error) :=
  if message.IsRunning (router r) then
    Some (r, Some (New InvalidArgumentCode "cannot add handler to running router"))
  else
    match message.Router_AddNoPublisherHandler handlerName subscribeTopic subscriber
            (AddNoPublisherHandler_handlerFunc handler) (router r) with
    | None => None
    | Some wm => Some (with_router r wm, None)
    end.

(** [AddPlugin]: no result, no test of the state. *)
Definition AddPlugin (plugin : message.RouterPlugin) (r : messageRouter) : messageRouter :=
  with_router r (message.AddPlugin plugin (router r)).

(** [AddMiddleware]: no result, no test of the state. *)
Definition AddMiddleware (middleware : message.HandlerMiddleware) (r : messageRouter)
    : messageRouter :=
  with_router r (message.AddMiddleware middleware (router r)).

Definition Info (l : Logger) (text : string) : M unit :=
  emit (mkLogEntry (Some l) LevelInfo text []).

Definition Debug (l : Logger) (text : string) (attrs : list Attr) : M unit :=
  emit (mkLogEntry (Some l) LevelDebug text attrs).

(** [Run] *)
Definition Run (c : Context) (r : messageRouter) : M (messageRouter * option error) :=
  Info (logger r) "Starting message router" ;!
  let (wm, err) := message.Run c (router r) in
  match err with
  | Some e => ret (with_router r wm, Some (WrapAsIs e "router run failed" []))
  | None =>
      Info (logger r) "Message router stopped" ;!
      ret (with_router r wm, None)
  end.

(** [Running] *)
Definition Running (r : messageRouter) : bool := message.IsRunning (router r).

(** [Close]; [timeouted] is whether the loops outlast the close timeout. *)
Definition Close (timeouted : bool) (r : messageRouter) : M (messageRouter * option error) :=
  Info (logger r) "Closing message router" ;!
  let (wm, err) := message.Close timeouted (router r) in
  match err with
  | Some e => ret (with_router r wm, Some (WrapAsIs e "failed to close router" []))
  | None =>
      Info (logger r) "Message router closed" ;!
      ret (with_router r wm, None)
  end.

(** A call through the registration half of the [Router] interface, with
    what it hands back to the caller: the two handler methods return an
    [error]; [AddPlugin] and [AddMiddleware] have no result, so they
    report nothing.  [None] is a call that panics. *)
Inductive Registration : Type :=
| CallAddHandler (handlerName subscribeTopic publishTopic : string)
    (subscriber : message.Subscriber) (publisher : message.Publisher)
    (handler : MessageHandler)
| CallAddNoPublisherHandler (handlerName subscribeTopic : string)
    (subscriber : message.Subscriber) (handler : MessageHandler)
| CallAddPlugin (plugin : message.RouterPlugin)
| CallAddMiddleware (middleware : message.HandlerMiddleware).

Definition register (call : Registration) (r : messageRouter)
    : option (messageRouter * option error) :=
  match call with
  | CallAddHandler n s p sub pub h => AddHandler n s p sub pub h r
  | CallAddNoPublisherHandler n s sub h => AddNoPublisherHandler n s sub h r
  | CallAddPlugin p => Some (AddPlugin p r, None)
  | CallAddMiddleware m => Some (AddMiddleware m r, None)
  end.

Record messagePublisher : Type := mkMessagePublisher {
  publisher : message.Publisher;
  p_logger : Logger
}.

(** [NewPublisher] *)
Definition NewPublisher (publisher : message.Publisher) (logger : option Logger)
    : messagePublisher :=
  mkMessagePublisher publisher (default slog_Default logger).

(** [Publish] of [messagePublisher] *)
Definition Publish (p : messagePublisher) (c : Context) (topic : string) (msg : ptr)
    : M (option error) :=
  let! uuid := message.Message_UUID msg in
  Debug (p_logger p) "Publishing message"
    [AString "topic" topic; AString "message_id" uuid] ;!
  let! err := message.pub_Publish (publisher p) topic msg in
  match err with
  | Some e =>
      let! uuid := message.Message_UUID msg in
      ret (Some (WrapAsIs e "failed to publish message"
                   [F "topic" topic; F "message_id" uuid]))
  | None => ret None
  end.

(** [Close] of [messagePublisher] *)
Definition Publisher_Close (p : messagePublisher) : M (option error) :=
  message.pub_Close (publisher p).

Record messageSubscriber : Type := mkMessageSubscriber {
  subscriber : message.Subscriber;
  s_logger : Logger
}.

(** [NewSubscriber] *)
Definition NewSubscriber (subscriber : message.Subscriber) (logger : option Logger)
    : messageSubscriber :=
  mkMessageSubscriber subscriber (default slog_Default logger).

(** [Subscribe] of [messageSubscriber] *)
Definition Subscribe (s : messageSubscriber) (c : Context) (topic : string)
    : M (list ptr * option error) :=
  Debug (s_logger s) "Subscribing to topic" [AString "topic" topic] ;!
  let! res := message.sub_Subscribe (subscriber s) c topic in
  match snd res with
  | Some e => ret ([], Some (WrapAsIs e "failed to subscribe to topic" [F "topic" topic]))
  | None => ret (fst res, None)
  end.

(** [Close] of [messageSubscriber] *)
Definition Subscriber_Close (s : messageSubscriber) : M (option error) :=
  message.sub_Close (subscriber s).

End eventrouter.

(* ================================================================== *)
(** * What the bus takes from Go and its libraries *)
(* ================================================================== *)

Module fmt.

(** The arguments that no verb consumed: [%!(EXTRA string=a, string=b)]. *)
Fixpoint extra (args : list string) : string :=
  match args with
  | [] => EmptyString
  | [a] => "string=" +:+ a
  | a :: rest => "string=" +:+ a +:+ ", " +:+ extra rest
  end.

(** [fmt.Sprintf] over string arguments, for the verbs [%s] and [%%]:
    a [%s] takes the next argument, or prints [%!s(MISSING)] when none is
    left; every other byte is copied. *)
Fixpoint format (f : string) (args : list string) : string * list string :=
  match f with
  | EmptyString => (EmptyString, args)
  | String "%"%char (String "s"%char rest) =>
      match args with
      | a :: args' =>
          let (out, left) := format rest args' in (a +:+ out, left)
      | [] =>
          let (out, left) := format rest [] in ("%!s(MISSING)" +:+ out, left)
      end
  | String "%"%char (String "%"%char rest) =>
      let (out, left) := format rest args in (String "%"%char out, left)
  | String c rest =>
      let (out, left) := format rest args in (String c out, left)
  end.

Definition Sprintf (f : string) (args : list string) : string :=
  let (out, left) := format f args in
  match left with
  | [] => out
  | _ => out +:+ "%!(EXTRA " +:+ extra left +:+ ")"
  end.

End fmt.

(** The pieces of the Go runtime and of Watermill's marshaler that the bus
    only calls: the domain values ([any]), the name the marshaler gives a
    value ([cqrs.StructName]), [encoding/json], the printing of a time and
    the source of message identifiers. *)
Class GoRuntime : Type := mkGoRuntime {
  Value : Type;
  StructName : Value -> string;
  json_Marshal : Value -> list Byte.byte + error;
  json_Unmarshal : list Byte.byte -> Value + error;
  Time_String : Z -> string;
  NewUUID : World -> string
}.

(** Modelled from the spec: package [logger] of the repository is not
    under src/; its lines are instrumentation-only output, kept as log
    entries without a sink of their own. *)
Module logger.

Definition Info (c : Context) (text : string) (fields : list Attr) : M unit :=
  emit (mkLogEntry None LevelInfo text fields).

End logger.

(* ================================================================== *)
(** * Watermill's cqrs component, as far as the bus uses it *)
(* ================================================================== *)

Module cqrs.
Section cqrs.
Context `{GoRuntime}.

(** [cqrs.JSONMarshaler] *)
Record JSONMarshaler : Type := mkJSONMarshaler { GenerateName : Value -> string }.

Definition Name (m : JSONMarshaler) (v : Value) : string := GenerateName m v.

(** A new message gets an address that the heap does not hold yet. *)
Definition NewMessage (uuid : string) (payload : list Byte.byte) : M ptr :=
  fun w =>
    let p := fresh (dom (heap w)) in
    Ret p (mkWorld (<[p := mkMessage uuid ∅ payload None]> (heap w)) (clock w) (logs w)).

(** Modelled from the spec: [JSONMarshaler.Marshal] serializes the domain
    value into the payload of a new envelope with a generated id. *)
Definition Marshal (m : JSONMarshaler) (v : Value) : M (ptr + error) :=
  match json_Marshal v with
  | inr err => ret (inr err)
  | inl b =>
      fun w => bind (NewMessage (NewUUID w) b) (fun msg => ret (inl msg)) w
  end.

Record CommandBusGeneratePublishTopicParams : Type := mkCommandBusGeneratePublishTopicParams {
  cbt_CommandName : string;
  cbt_Command : Value
}.

Record CommandBusOnSendParams : Type := mkCommandBusOnSendParams {
  cbs_CommandName : string;
  cbs_Command : Value;
  cbs_Message : ptr
}.

Record CommandBusConfig : Type := mkCommandBusConfig {
  cb_GeneratePublishTopic : CommandBusGeneratePublishTopicParams -> string * option error;
  cb_Marshaler : JSONMarshaler;
  cb_Logger : Logger;
  cb_OnSend : option (CommandBusOnSendParams -> M (option error))
}.

Record CommandBus : Type := mkCommandBus {
  cb_publisher : message.Publisher;
  cb_config : CommandBusConfig
}.

(** Modelled from the spec: [cqrs.NewCommandBusWithConfig]; the checks it
    makes on the configuration are not described, it is taken to accept. *)
Definition NewCommandBusWithConfig (publisher : message.Publisher)
    (cfg : CommandBusConfig) : CommandBus + error :=
  inl (mkCommandBus publisher cfg).

(** Modelled from the spec: [CommandBus.Send] (section 4.3) serializes
    the value into an envelope, names the topic with the command naming
    strategy, lets the envelope carry the caller's context, invokes the
    optional pre-send hook, and publishes to that topic.  An error of any
    step ends the call with that error. *)
Definition Send (bus : CommandBus) (c : Context) (cmd : Value) : M (option error) :=
  let cfg := cb_config bus in
  let! res := Marshal (cb_Marshaler cfg) cmd in
  match res with
  | inr err => ret (Some err)
  | inl msg =>
      let commandName := Name (cb_Marshaler cfg) cmd in
      match cb_GeneratePublishTopic cfg
              (mkCommandBusGeneratePublishTopicParams commandName cmd) with
      | (_, Some err) => ret (Some err)
      | (topicName, None) =>
          message.Message_SetContext msg c ;!
          let! err := match cb_OnSend cfg with
                      | Some hook => hook (mkCommandBusOnSendParams commandName cmd msg)
                      | None => ret None
                      end in
          match err with
          | Some e => ret (Some e)
          | None => message.pub_Publish (cb_publisher bus) topicName msg
          end
      end
  end.

Record GenerateEventPublishTopicParams : Type := mkGenerateEventPublishTopicParams {
  ebt_EventName : string;
  ebt_Event : Value
}.

Record OnEventSendParams : Type := mkOnEventSendParams {
  ebs_EventName : string;
  ebs_Event : Value;
  ebs_Message : ptr
}.

Record EventBusConfig : Type := mkEventBusConfig {
  eb_GeneratePublishTopic : GenerateEventPublishTopicParams -> string * option error;
  eb_Marshaler : JSONMarshaler;
  eb_Logger : Logger;
  eb_OnPublish : option (OnEventSendParams -> M (option error))
}.

Record EventBus : Type := mkEventBus {
  eb_publisher : message.Publisher;
  eb_config : EventBusConfig
}.

(** Modelled from the spec: [cqrs.NewEventBusWithConfig], taken to accept. *)
Definition NewEventBusWithConfig (publisher : message.Publisher)
    (cfg : EventBusConfig) : EventBus + error :=
  inl (mkEventBus publisher cfg).

(** Modelled from the spec: [EventBus.Publish] (section 4.4), the same
    encode and publish path with the event naming strategy. *)
Definition Publish (bus : EventBus) (c : Context) (evt : Value) : M (option error) :=
  let cfg := eb_config bus in
  let! res := Marshal (eb_Marshaler cfg) evt in
  match res with
  | inr err => ret (Some err)
  | inl msg =>
      let eventName := Name (eb_Marshaler cfg) evt in
      match eb_GeneratePublishTopic cfg
              (mkGenerateEventPublishTopicParams eventName evt) with
      | (_, Some err) => ret (Some err)
      | (topicName, None) =>
          message.Message_SetContext msg c ;!
          let! err := match eb_OnPublish cfg with
                      | Some hook => hook (mkOnEventSendParams eventName evt msg)
                      | None => ret None
                      end in
          match err with
          | Some e => ret (Some e)
          | None => message.pub_Publish (eb_publisher bus) topicName msg
          end
      end
  end.

(** [cqrs.CommandHandler], as [cqrs.NewCommandHandler] builds it from a
    name and a function. *)
Record CommandHandler : Type := mkCommandHandler {
  ch_HandlerName : string;
  ch_Handle : Context -> Value -> M (option error)
}.

Definition NewCommandHandler (handlerName : string)
    (handleFunc : Context -> Value -> M (option error)) : CommandHandler :=
  mkCommandHandler handlerName handleFunc.

Record CommandProcessorGenerateSubscribeTopicParams : Type :=
  mkCommandProcessorGenerateSubscribeTopicParams {
    cpt_CommandName : string;
    cpt_CommandHandler : CommandHandler
  }.

Record CommandProcessorSubscriberConstructorParams : Type :=
  mkCommandProcessorSubscriberConstructorParams {
    cpc_HandlerName : string;
    cpc_Handler : CommandHandler
  }.

Record CommandProcessorOnHandleParams : Type := mkCommandProcessorOnHandleParams {
  cph_Handler : CommandHandler;
  cph_CommandName : string;
  cph_Command : Value;
  cph_Message : ptr
}.

Record CommandProcessorConfig : Type := mkCommandProcessorConfig {
  cp_GenerateSubscribeTopic :
    CommandProcessorGenerateSubscribeTopicParams -> string * option error;
  cp_SubscriberConstructor :
    CommandProcessorSubscriberConstructorParams -> message.Subscriber * option error;
  cp_Marshaler : JSONMarshaler;
  cp_Logger : Logger;
  cp_OnHandle : option (CommandProcessorOnHandleParams -> M (option error))
}.

(** The registry of the spec for kind Command: one registration per
    logical name, bound to its topic. *)
Record CommandRegistration : Type := mkCommandRegistration {
  creg_logical_name : string;
  creg_topic : string;
  creg_handler : CommandHandler
}.

Record CommandProcessor : Type := mkCommandProcessor {
  cp_config : CommandProcessorConfig;
  cp_handlers : list CommandRegistration
}.

(** Modelled from the spec: [cqrs.NewCommandProcessorWithConfig], taken
    to accept; the registry starts empty. *)
Definition NewCommandProcessorWithConfig (cfg : CommandProcessorConfig)
    : CommandProcessor + error :=
  inl (mkCommandProcessor cfg []).

(** The handler registered for a logical command name. *)
Definition command_handler_for (name : string) (p : CommandProcessor)
    : option CommandHandler :=
  creg_handler <$> List.find (fun g => bool_decide (creg_logical_name g = name))
                     (cp_handlers p).

(** Modelled from the spec: what the processor runs for a received
    command (section 4.3): decode, invoke the handler (through the
    post-handle hook when one is configured); the error, if any, is the
    nack. *)
Definition command_handlerFunc (cfg : CommandProcessorConfig) (h : CommandHandler)
    (name : string) : message.NoPublishHandlerFunc :=
  fun msg =>
    let! m := load msg in
    match json_Unmarshal (Payload m) with
    | inr err => ret (Some err)
    | inl cmd =>
        match cp_OnHandle cfg with
        | Some hook => hook (mkCommandProcessorOnHandleParams h name cmd msg)
        | None =>
            let! c := message.Message_Context msg in
            ch_Handle h c cmd
        end
    end.

(** Modelled from the spec: [CommandProcessor.AddHandler] (section 4.2,
    RegisterCommandHandler).  It fails with a duplicate-registration
    error if the name already has a command handler, or with a
    router-running error after [Run] has started, and changes nothing
    then.  On success it creates one registration bound to the topic of
    the command naming strategy and subscribes it on the router. *)
Definition CommandProcessor_AddHandler (h : CommandHandler)
    (p : CommandProcessor) (rt : message.Router)
    : CommandProcessor * message.Router * option error :=
  let name := ch_HandlerName h in
  match command_handler_for name p with
  | Some _ => (p, rt, Some (Foreign ("command handler already registered: " +:+ name)))
  | None =>
      if message.IsRunning rt then
        (p, rt, Some (Foreign "cannot add handler to running router"))
      else
        match cp_GenerateSubscribeTopic (cp_config p)
                (mkCommandProcessorGenerateSubscribeTopicParams name h) with
        | (_, Some err) => (p, rt, Some err)
        | (topicName, None) =>
            match cp_SubscriberConstructor (cp_config p)
                    (mkCommandProcessorSubscriberConstructorParams name h) with
            | (_, Some err) => (p, rt, Some err)
            | (subscriber, None) =>
                (mkCommandProcessor (cp_config p)
                   (cp_handlers p ++ [mkCommandRegistration name topicName h]),
                 message.AddNoPublisherHandler name topicName subscriber
                   (command_handlerFunc (cp_config p) h name) rt,
                 None)
            end
        end
  end.

(** [cqrs.EventHandler], as [cqrs.NewEventHandler] builds it. *)
Record EventHandler : Type := mkEventHandler {
  eh_HandlerName : string;
  eh_Handle : Context -> Value -> M (option error)
}.

Definition NewEventHandler (handlerName : string)
    (handleFunc : Context -> Value -> M (option error)) : EventHandler :=
  mkEventHandler handlerName handleFunc.

Record EventProcessorGenerateSubscribeTopicParams : Type :=
  mkEventProcessorGenerateSubscribeTopicParams {
    ept_EventName : string;
    ept_EventHandler : EventHandler
  }.

Record EventProcessorSubscriberConstructorParams : Type :=
  mkEventProcessorSubscriberConstructorParams {
    epc_HandlerName : string;
    epc_EventHandler : EventHandler
  }.

Record EventProcessorOnHandleParams : Type := mkEventProcessorOnHandleParams {
  eph_Handler : EventHandler;
  eph_EventName : string;
  eph_Event : Value;
  eph_Message : ptr
}.

Record EventProcessorConfig : Type := mkEventProcessorConfig {
  ep_GenerateSubscribeTopic :
    EventProcessorGenerateSubscribeTopicParams -> string * option error;
  ep_SubscriberConstructor :
    EventProcessorSubscriberConstructorParams -> message.Subscriber * option error;
  ep_Marshaler : JSONMarshaler;
  ep_Logger : Logger;
  ep_OnHandle : option (EventProcessorOnHandleParams -> M (option error))
}.

Record EventRegistration : Type := mkEventRegistration {
  ereg_logical_name : string;
  ereg_topic : string;
  ereg_handler : EventHandler
}.

Record EventProcessor : Type := mkEventProcessor {
  ep_config : EventProcessorConfig;
  ep_handlers : list EventRegistration
}.

(** Modelled from the spec: [cqrs.NewEventProcessorWithConfig], taken to accept. *)
Definition NewEventProcessorWithConfig (cfg : EventProcessorConfig)
    : EventProcessor + error :=
  inl (mkEventProcessor cfg []).

(** Modelled from the spec: what the processor runs for a received event. *)
Definition event_handlerFunc (cfg : EventProcessorConfig) (h : EventHandler)
    (name : string) : message.NoPublishHandlerFunc :=
  fun msg =>
    let! m := load msg in
    match json_Unmarshal (Payload m) with
    | inr err => ret (Some err)
    | inl evt =>
        match ep_OnHandle cfg with
        | Some hook => hook (mkEventProcessorOnHandleParams h name evt msg)
        | None =>
            let! c := message.Message_Context msg in
            eh_Handle h c evt
        end
    end.

(** Modelled from the spec: [EventProcessor.AddHandler] (section 4.2,
    RegisterEventHandler): the same running-state guard; duplicate names
    are allowed and accumulate. *)
Definition EventProcessor_AddHandler (h : EventHandler)
    (p : EventProcessor) (rt : message.Router)
    : EventProcessor * message.Router * option error :=
  let name := eh_HandlerName h in
  if message.IsRunning rt then
    (p, rt, Some (Foreign "cannot add handler to running router"))
  else
    match ep_GenerateSubscribeTopic (ep_config p)
            (mkEventProcessorGenerateSubscribeTopicParams name h) with
    | (_, Some err) => (p, rt, Some err)
    | (topicName, None) =>
        match ep_SubscriberConstructor (ep_config p)
                (mkEventProcessorSubscriberConstructorParams name h) with
        | (_, Some err) => (p, rt, Some err)
        | (subscriber, None) =>
            (mkEventProcessor (ep_config p)
               (ep_handlers p ++ [mkEventRegistration name topicName h]),
             message.AddNoPublisherHandler name topicName subscriber
               (event_handlerFunc (ep_config p) h name) rt,
             None)
        end
    end.

End cqrs.
End cqrs.

(* ================================================================== *)
(** * Package messaging: the CQRS bus *)
(* ================================================================== *)

Module messaging.
Section messaging.
Context `{GoRuntime}.

(** [CommandHandler] and [EventHandler]: functions of a context and a
    pointer to the decoded value. *)
Definition CommandHandler : Type := Context -> Value -> M (option error).
Definition EventHandler : Type := Context -> Value -> M (option error).

Record Config : Type := mkConfig {
  cfg_Publisher : message.Publisher;
  cfg_Subscriber : message.Subscriber;
  cfg_Logger : option Logger
}.

(** The two processors point to the router of the bus; it is held once,
    in [router], and the registering methods thread it. *)
Record cqrsBus : Type := mkCqrsBus {
  commandBus : cqrs.CommandBus;
  eventBus : cqrs.EventBus;
  commandProcessor : cqrs.CommandProcessor;
  eventProcessor : cqrs.EventProcessor;
  router : message.Router;
  logger : Logger;
  marshaler : cqrs.JSONMarshaler
}.

(** The closures of [NewBus], in the order of the source. *)

Definition generateEventTopic (eventName : string) : string :=
  fmt.Sprintf "events.%s" [eventName].

Definition generateCommandTopic (commandName : string) : string :=
  fmt.Sprintf "commands.%s" [commandName].

Definition marshaler_of_NewBus : cqrs.JSONMarshaler :=
  cqrs.mkJSONMarshaler StructName.

(** [CommandBusConfig.GeneratePublishTopic] *)
Definition commandBus_GeneratePublishTopic
    (params : cqrs.CommandBusGeneratePublishTopicParams) : string * option error :=
  (generateCommandTopic (cqrs.cbt_CommandName params), None).

(** [CommandBusConfig.OnSend] *)
Definition OnSend (params : cqrs.CommandBusOnSendParams) : M (option error) :=
  let! c := message.Message_Context (cqrs.cbs_Message params) in
  logger.Info c "Sending command"
    [AString "command_name" (cqrs.cbs_CommandName params)] ;!
  let! t := time_Now in
  message.Metadata_Set (cqrs.cbs_Message params) "sent_at" (Time_String t) ;!
  ret None.

(** [EventBusConfig.GeneratePublishTopic] *)
Definition eventBus_GeneratePublishTopic
    (params : cqrs.GenerateEventPublishTopicParams) : string * option error :=
  (generateEventTopic (cqrs.ebt_EventName params), None).

(** [EventBusConfig.OnPublish] *)
Definition OnPublish (params : cqrs.OnEventSendParams) : M (option error) :=
  let! c := message.Message_Context (cqrs.ebs_Message params) in
  logger.Info c "Publishing event"
    [AString "event_name" (cqrs.ebs_EventName params)] ;!
  let! t := time_Now in
  message.Metadata_Set (cqrs.ebs_Message params) "published_at" (Time_String t) ;!
  ret None.

(** [CommandProcessorConfig.GenerateSubscribeTopic] *)
Definition commandProcessor_GenerateSubscribeTopic
    (params : cqrs.CommandProcessorGenerateSubscribeTopicParams) : string * option error :=
  (generateCommandTopic (cqrs.cpt_CommandName params), None).

(** [CommandProcessorConfig.SubscriberConstructor] *)
Definition commandProcessor_SubscriberConstructor (cfg : Config)
    (params : cqrs.CommandProcessorSubscriberConstructorParams)
    : message.Subscriber * option error :=
  (cfg_Subscriber cfg, None).

(** [CommandProcessorConfig.OnHandle] *)
Definition commandProcessor_OnHandle (params : cqrs.CommandProcessorOnHandleParams)
    : M (option error) :=
  let! start := time_Now in
  let! c := message.Message_Context (cqrs.cph_Message params) in
  let! err := cqrs.ch_Handle (cqrs.cph_Handler params) c (cqrs.cph_Command params) in
  let! c' := message.Message_Context (cqrs.cph_Message params) in
  let! d := time_Since start in
  logger.Info c' "Command handled"
    [AString "command_name" (cqrs.cph_CommandName params);
     ADuration "duration" d;
     AError "err" err] ;!
  ret err.

(** [EventProcessorConfig.GenerateSubscribeTopic] *)
Definition eventProcessor_GenerateSubscribeTopic
    (params : cqrs.EventProcessorGenerateSubscribeTopicParams) : string * option error :=
  (generateEventTopic (cqrs.ept_EventName params), None).

(** [EventProcessorConfig.SubscriberConstructor] *)
Definition eventProcessor_SubscriberConstructor (cfg : Config)
    (params : cqrs.EventProcessorSubscriberConstructorParams)
    : message.Subscriber * option error :=
  (cfg_Subscriber cfg, None).

(** [EventProcessorConfig.OnHandle] *)
Definition eventProcessor_OnHandle (params : cqrs.EventProcessorOnHandleParams)
    : M (option error) :=
  let! start := time_Now in
  let! c := message.Message_Context (cqrs.eph_Message params) in
  let! err := cqrs.eh_Handle (cqrs.eph_Handler params) c (cqrs.eph_Event params) in
  let! c' := message.Message_Context (cqrs.eph_Message params) in
  let! d := time_Since start in
  logger.Info c' "Event handled"
    [AString "event_name" (cqrs.eph_EventName params);
     ADuration "duration" d;
     AError "err" err] ;!
  ret err.

Definition commandBusConfig (wmLogger : Logger) : cqrs.CommandBusConfig :=
  cqrs.mkCommandBusConfig commandBus_GeneratePublishTopic marshaler_of_NewBus
    wmLogger (Some OnSend).

Definition eventBusConfig (wmLogger : Logger) : cqrs.EventBusConfig :=
  cqrs.mkEventBusConfig eventBus_GeneratePublishTopic marshaler_of_NewBus
    wmLogger (Some OnPublish).

Definition commandProcessorConfig (cfg : Config) (wmLogger : Logger)
    : cqrs.CommandProcessorConfig :=
  cqrs.mkCommandProcessorConfig commandProcessor_GenerateSubscribeTopic
    (commandProcessor_SubscriberConstructor cfg) marshaler_of_NewBus wmLogger
    (Some commandProcessor_OnHandle).

Definition eventProcessorConfig (cfg : Config) (wmLogger : Logger)
    : cqrs.EventProcessorConfig :=
  cqrs.mkEventProcessorConfig eventProcessor_GenerateSubscribeTopic
    (eventProcessor_SubscriberConstructor cfg) marshaler_of_NewBus wmLogger
    (Some eventProcessor_OnHandle).

(** [NewBus]: every constructor's error is returned as it is. *)
Definition NewBus (cfg : Config) : cqrsBus + error :=
  let cfg := match cfg_Logger cfg with
             | None => mkConfig (cfg_Publisher cfg) (cfg_Subscriber cfg) (Some slog_Default)
             | Some _ => cfg
             end in
  let wmLogger := default slog_Default (cfg_Logger cfg) in
  match message.NewRouter (message.mkRouterConfig 0) wmLogger with
  | inr err => inr err
  | inl router =>
  match cqrs.NewCommandBusWithConfig (cfg_Publisher cfg) (commandBusConfig wmLogger) with
  | inr err => inr err
  | inl commandBus =>
  match cqrs.NewEventBusWithConfig (cfg_Publisher cfg) (eventBusConfig wmLogger) with
  | inr err => inr err
  | inl eventBus =>
  match cqrs.NewCommandProcessorWithConfig (commandProcessorConfig cfg wmLogger) with
  | inr err => inr err
  | inl commandProcessor =>
  match cqrs.NewEventProcessorWithConfig (eventProcessorConfig cfg wmLogger) with
  | inr err => inr err
  | inl eventProcessor =>
      inl (mkCqrsBus commandBus eventBus commandProcessor eventProcessor router
             (default slog_Default (cfg_Logger cfg)) marshaler_of_NewBus)
  end end end end end.

(** [PublishCommand] *)
Definition PublishCommand (b : cqrsBus) (c : Context) (cmd : Value) : M (option error) :=
  cqrs.Send (commandBus b) c cmd.

(** [PublishEvent] *)
Definition PublishEvent (b : cqrsBus) (c : Context) (evt : Value) : M (option error) :=
  cqrs.Publish (eventBus b) c evt.

(** [RegisterCommandHandler]: the processor and the router it shares with
    the bus are what the call may change. *)
Definition RegisterCommandHandler (commandName : string) (handler : CommandHandler)
    (b : cqrsBus) : cqrsBus * option error :=
  let '(cp, rt, err) :=
    cqrs.CommandProcessor_AddHandler (cqrs.NewCommandHandler commandName handler)
      (commandProcessor b) (router b) in
  let b' := mkCqrsBus (commandBus b) (eventBus b) cp (eventProcessor b) rt
              (logger b) (marshaler b) in
  match err with
  | Some e => (b', Some e)
  | None => (b', None)
  end.

(** [RegisterEventHandler] *)
Definition RegisterEventHandler (eventName : string) (handler : EventHandler)
    (b : cqrsBus) : cqrsBus * option error :=
  let '(ep, rt, err) :=
    cqrs.EventProcessor_AddHandler (cqrs.NewEventHandler eventName handler)
      (eventProcessor b) (router b) in
  let b' := mkCqrsBus (commandBus b) (eventBus b) (commandProcessor b) ep rt
              (logger b) (marshaler b) in
  match err with
  | Some e => (b', Some e)
  | None => (b', None)
  end.

(** [Run] of [cqrsBus] *)
Definition Run (c : Context) (b : cqrsBus) : cqrsBus * option error :=
  let (rt, err) := message.Run c (router b) in
  (mkCqrsBus (commandBus b) (eventBus b) (commandProcessor b) (eventProcessor b) rt
     (logger b) (marshaler b), err).

End messaging.
End messaging.

(* ================================================================== *)
(** * Concrete routers, handlers and worlds *)
(* ================================================================== *)

Module sample.

Definition order : Message :=
  mkMessage "order-001" ∅ [Byte.x7b; Byte.x7d] None.

(** A world that holds one message, at address 1. *)
Definition world : World := mkWorld {[ 1%positive := order ]} 100 [].

(** A transport that accepts everything. *)
Definition publisher : message.Publisher :=
  message.mkPublisher (fun _ _ => ret None) (ret None).

(** A transport that refuses everything, whatever the context. *)
Definition down : message.Publisher :=
  message.mkPublisher (fun _ _ => ret (Some (Foreign "broker down"))) (ret None).

Definition subscriber : message.Subscriber :=
  message.mkSubscriber (fun _ _ => ret ([], None)) (ret None).

(** A relay handler that marks the message in place and succeeds. *)
Definition mark : eventrouter.MessageHandler :=
  fun _ msg => message.Metadata_Set msg "processed" "true" ;! ret None.

(** A relay handler that fails. *)
Definition failing : eventrouter.MessageHandler :=
  fun _ _ => ret (Some (Foreign "invalid order")).

Definition recoverer : message.HandlerMiddleware := fun h => h.

Definition fresh_router : eventrouter.messageRouter :=
  eventrouter.mkMessageRouter
    (message.mkRouter (message.mkRouterConfig 0) [] [] [] message.Created)
    slog_Default (eventrouter.mkConfig (Some slog_Default) None).

(** The router while [Run] blocks: its loops are open. *)
Definition running_router : eventrouter.messageRouter :=
  eventrouter.with_router fresh_router
    (message.with_lifecycle message.Running (eventrouter.router fresh_router)).

(** The router after [Close] has ended a run. *)
Definition closed_router : eventrouter.messageRouter :=
  eventrouter.with_router fresh_router
    (message.with_lifecycle message.Closed (eventrouter.router fresh_router)).

Definition cancelled : Context := mkContext 7 true.

(** Domain values: an order command, an order event, and a value that
    [encoding/json] refuses. *)
Inductive value : Type := CreateOrder | OrderCreated | Channel.

Definition runtime : GoRuntime :=
  mkGoRuntime value
    (fun v => match v with
              | CreateOrder => "CreateOrder"
              | OrderCreated => "OrderCreated"
              | Channel => "chan"
              end)
    (fun v => match v with
              | Channel => inr (Foreign "json: unsupported type")
              | _ => inl [Byte.x7b; Byte.x7d]
              end)
    (fun _ => inl CreateOrder)
    (fun t => if (t =? 100)%Z then "t100" else "later")
    (fun _ => "generated-id").

Definition config : @messaging.Config :=
  messaging.mkConfig publisher subscriber None.

(** Two command handlers that can be told apart by their result. *)
Definition first_handler : @messaging.CommandHandler runtime :=
  fun _ _ => ret None.

Definition second_handler : @messaging.CommandHandler runtime :=
  fun _ _ => ret (Some (Foreign "second")).

End sample.

(* ================================================================== *)
(** * fmt with string and integer arguments *)
(* ================================================================== *)

Module verbs.

(** An argument of [Sprintf]: a string or an integer. *)
Inductive Arg : Type :=
| S (s : string)
| D (z : Z).

(** How [fmt] names an argument it cannot print with the verb, or that
    no verb asked for: [string=abc], [int=5]. *)
Definition describe (a : Arg) : string :=
  match a with
  | S s => "string=" +:+ s
  | D z => "int=" +:+ pretty z
  end.

Fixpoint extra (args : list Arg) : string :=
  match args with
  | [] => EmptyString
  | [a] => describe a
  | a :: rest => describe a +:+ ", " +:+ extra rest
  end.

(** [fmt.Sprintf] for the verbs [%s], [%d] and [%%].  A verb takes the
    next argument; [%d] prints an integer in decimal; a verb that does
    not fit its argument prints [%!verb(type=value)], a verb without an
    argument [%!verb(MISSING)]; every other byte is copied. *)
Fixpoint format (f : string) (args : list Arg) : string * list Arg :=
  match f with
  | EmptyString => (EmptyString, args)
  | String "%"%char (String "s"%char rest) =>
      match args with
      | S s :: args' =>
          let (out, left) := format rest args' in (s +:+ out, left)
      | D z :: args' =>
          let (out, left) := format rest args' in
          ("%!s(" +:+ describe (D z) +:+ ")" +:+ out, left)
      | [] =>
          let (out, left) := format rest [] in ("%!s(MISSING)" +:+ out, left)
      end
  | String "%"%char (String "d"%char rest) =>
      match args with
      | D z :: args' =>
          let (out, left) := format rest args' in (pretty z +:+ out, left)
      | S s :: args' =>
          let (out, left) := format rest args' in
          ("%!d(" +:+ describe (S s) +:+ ")" +:+ out, left)
      | [] =>
          let (out, left) := format rest [] in ("%!d(MISSING)" +:+ out, left)
      end
  | String "%"%char (String "%"%char rest) =>
      let (out, left) := format rest args in (String "%"%char out, left)
  | String c rest =>
      let (out, left) := format rest args in (String c out, left)
  end.

Definition Sprintf (f : string) (args : list Arg) : string :=
  let (out, left) := format f args in
  match left with
  | [] => out
  | _ => out +:+ "%!(EXTRA " +:+ extra left +:+ ")"
  end.

(** Carriage return and line feed, and the double quote. *)
Definition CRLF : string := String "013"%char (String "010"%char EmptyString).
Definition quote : string := String "034"%char EmptyString.

(** [strings.Join] *)
Fixpoint Join (elems : list string) (sep : string) : string :=
  match elems with
  | [] => EmptyString
  | [e] => e
  | e :: rest => e +:+ sep +:+ Join rest sep
  end.

End verbs.

(* ================================================================== *)
(** * Go's regexp, as far as package mail uses it *)
(* ================================================================== *)

Module regexp.

(** The syntax tree of a pattern.  A character class is its list of
    ranges, a single character being the range from it to itself. *)
Inductive Regexp : Type :=
| NoMatch
| EmptyMatch
| Literal (c : ascii)
| CharClass (ranges : list (ascii * ascii))
| Concat (r1 r2 : Regexp)
| Alternate (r1 r2 : Regexp)
| Star (r : Regexp).

(** [r+] *)
Definition Plus (r : Regexp) : Regexp := Concat r (Star r).

(** [r{2,}] *)
Definition AtLeast2 (r : Regexp) : Regexp := Concat r (Concat r (Star r)).

Definition in_range (c : ascii) (range : ascii * ascii) : bool :=
  (nat_of_ascii (fst range) <=? nat_of_ascii c)
  && (nat_of_ascii c <=? nat_of_ascii (snd range)).

Definition in_class (ranges : list (ascii * ascii)) (c : ascii) : bool :=
  existsb (in_range c) ranges.

(** Whether the pattern matches the empty text. *)
Fixpoint nullable (r : Regexp) : bool :=
  match r with
  | NoMatch => false
  | EmptyMatch => true
  | Literal _ => false
  | CharClass _ => false
  | Concat r1 r2 => nullable r1 && nullable r2
  | Alternate r1 r2 => nullable r1 || nullable r2
  | Star _ => true
  end.

(** What is left of the pattern once the character [c] has been read. *)
Fixpoint derive (c : ascii) (r : Regexp) : Regexp :=
  match r with
  | NoMatch => NoMatch
  | EmptyMatch => NoMatch
  | Literal a => if Ascii.eqb a c then EmptyMatch else NoMatch
  | CharClass ranges => if in_class ranges c then EmptyMatch else NoMatch
  | Concat r1 r2 =>
      if nullable r1
      then Alternate (Concat (derive c r1) r2) (derive c r2)
      else Concat (derive c r1) r2
  | Alternate r1 r2 => Alternate (derive c r1) (derive c r2)
  | Star r1 => Concat (derive c r1) (Star r1)
  end.

Definition matches (r : Regexp) (text : list ascii) : bool :=
  nullable (fold_left (fun r c => derive c r) text r).

(** [MatchString] for a pattern written between [^] and [$] without
    flags: the whole text has to match.  The classes of the patterns here
    are ASCII ranges, so a byte outside ASCII matches none of them, as the
    rune it belongs to matches none in Go. *)
Definition MatchString (anchored : Regexp) (s : string) : bool :=
  matches anchored (list_ascii_of_string s).

(** The texts a pattern stands for. *)
Inductive Lang : Regexp -> list ascii -> Prop :=
| Lang_EmptyMatch : Lang EmptyMatch []
| Lang_Literal (c : ascii) : Lang (Literal c) [c]
| Lang_CharClass (ranges : list (ascii * ascii)) (c : ascii) :
    in_class ranges c = true -> Lang (CharClass ranges) [c]
| Lang_Concat (r1 r2 : Regexp) (s1 s2 : list ascii) :
    Lang r1 s1 -> Lang r2 s2 -> Lang (Concat r1 r2) (s1 ++ s2)
| Lang_Alternate_l (r1 r2 : Regexp) (s : list ascii) :
    Lang r1 s -> Lang (Alternate r1 r2) s
| Lang_Alternate_r (r1 r2 : Regexp) (s : list ascii) :
    Lang r2 s -> Lang (Alternate r1 r2) s
| Lang_Star_nil (r : Regexp) : Lang (Star r) []
| Lang_Star_app (r : Regexp) (s1 s2 : list ascii) :
    Lang r s1 -> Lang (Star r) s2 -> Lang (Star r) (s1 ++ s2).

End regexp.

(* ================================================================== *)
(** * Package mail: interface.go and the SMTP provider (smtp.go) *)
(* ================================================================== *)

Module mail.

Inductive Code : Type := ValidationCode | InternalCode | UnauthorizedCode.

(** Modelled from the spec: package [syserr] belongs to the repository
    but is not under src/.  Package mail calls [syserr.New] and
    [syserr.Wrap] with a code, a message and fields; an error value is
    kept as the call that built it, or as a value made outside the
    repository (io, net/smtp, crypto/tls, gomail). *)
Inductive Error : Type :=
| External (msg : string)
| New (code : Code) (msg : string) (fields : list (string * string))
| Wrap (err : Error) (code : Code) (msg : string) (fields : list (string * string)).

Record EmailAddress : Type := mkEmailAddress {
  Email : string;
  Name : string
}.

(** An [io.Reader] is kept as a handle: two attachments that hold the
    same reader hold the same handle.  What a read of it gives is the
    runtime's, by how often it has been read. *)
Definition Reader : Type := positive.

(** [Content] is an [io.Reader]; [None] is the nil interface. *)
Record Attachment : Type := mkAttachment {
  Filename : string;
  Content : option Reader;
  ContentType : string;
  Size : Z
}.

(** [Priority] is a string type. *)
Definition Priority : Type := string.
Definition PriorityLow : Priority := "low".
Definition PriorityNormal : Priority := "normal".
Definition PriorityHigh : Priority := "high".

Record EmailMessage : Type := mkEmailMessage {
  From : EmailAddress;
  To : list EmailAddress;
  CC : list EmailAddress;
  BCC : list EmailAddress;
  ReplyTo : option EmailAddress;
  Subject : string;
  TextBody : string;
  HTMLBody : string;
  Attachments : list Attachment;
  Headers : gmap string string;
  Priority_ : Priority
}.

(** A value of a [map[string]interface{}]. *)
Inductive Any : Type :=
| AnyString (s : string)
| AnyInt (z : Z)
| AnyBool (b : bool).

Record SendEmailResponse : Type := mkSendEmailResponse {
  MessageID : string;
  Status : string;
  Provider : string;
  Metadata : gmap string Any
}.

Record BulkSendResponse : Type := mkBulkSendResponse {
  SuccessCount : Z;
  FailureCount : Z;
  Results : list SendEmailResponse;
  Errors : list Error
}.

Record ProviderConfig : Type := mkProviderConfig {
  pc_Provider : string;
  pc_Settings : gmap string Any
}.

Record SMTPConfig : Type := mkSMTPConfig {
  Host : string;
  Port : Z;
  Username : string;
  Password : string;
  UseTLS : bool;
  UseSSL : bool;
  Timeout : Z
}.

Record smtpProvider : Type := mkSmtpProvider { config : SMTPConfig }.

Definition Second : Z := 1000000000.

(** [NewSMTPProvider] *)
Definition NewSMTPProvider (config : SMTPConfig) : smtpProvider :=
  let config :=
    if (Timeout config =? 0)%Z
    then mkSMTPConfig (Host config) (Port config) (Username config) (Password config)
           (UseTLS config) (UseSSL config) (30 * Second)
    else config in
  mkSmtpProvider config.

Definition lower : ascii * ascii := ("a"%char, "z"%char).
Definition upper : ascii * ascii := ("A"%char, "Z"%char).
Definition digit : ascii * ascii := ("0"%char, "9"%char).
Definition one (c : ascii) : ascii * ascii := (c, c).

(** [[a-zA-Z0-9._%+\-]] *)
Definition local_class : list (ascii * ascii) :=
  [lower; upper; digit; one "."%char; one "_"%char; one "%"%char; one "+"%char;
   one "-"%char].

(** [[a-zA-Z0-9.\-]] *)
Definition domain_class : list (ascii * ascii) :=
  [lower; upper; digit; one "."%char; one "-"%char].

(** [[a-zA-Z]] *)
Definition letter_class : list (ascii * ascii) := [lower; upper].

(** The pattern of [isValidEmailFormat], between its [^] and [$]:
    [[a-zA-Z0-9._%+\-]+@[a-zA-Z0-9.\-]+\.[a-zA-Z]{2,}] *)
Definition emailRegex : regexp.Regexp :=
  regexp.Concat (regexp.Plus (regexp.CharClass local_class))
    (regexp.Concat (regexp.Literal "@"%char)
       (regexp.Concat (regexp.Plus (regexp.CharClass domain_class))
          (regexp.Concat (regexp.Literal "."%char)
             (regexp.AtLeast2 (regexp.CharClass letter_class))))).

(** [isValidEmailFormat] *)
Definition isValidEmailFormat (email : string) : bool :=
  regexp.MatchString emailRegex email.

(** [ValidateEmail] of [smtpProvider] *)
Definition ValidateEmail (s : smtpProvider) (c : Context) (email : string)
    (checkDeliverability : bool) : bool * option Error :=
  if negb (isValidEmailFormat email) then (false, None)
  else if negb checkDeliverability then (true, None)
  else (true, None).

(** The loop over [message.To] of [validateEmailMessage]. *)
Fixpoint validate_recipients (to : list EmailAddress) : option Error :=
  match to with
  | [] => None
  | a :: rest =>
      if negb (isValidEmailFormat (Email a))
      then Some (New ValidationCode "invalid recipient email format"
                   [("email", Email a)])
      else validate_recipients rest
  end.

(** [validateEmailMessage] of [smtpProvider]; [None] as message is the
    nil pointer. *)
Definition validateEmailMessage (message : option EmailMessage) : option Error :=
  match message with
  | None => Some (New ValidationCode "email message cannot be nil" [])
  | Some message =>
      if String.eqb (Email (From message)) EmptyString then
        Some (New ValidationCode "from email is required" [])
      else if negb (isValidEmailFormat (Email (From message))) then
        Some (New ValidationCode "invalid from email format" [])
      else if (length (To message) =? 0)%nat then
        Some (New ValidationCode "at least one recipient is required" [])
      else
        match validate_recipients (To message) with
        | Some err => Some err
        | None =>
            if String.eqb (Subject message) EmptyString then
              Some (New ValidationCode "subject is required" [])
            else if String.eqb (TextBody message) EmptyString
                    && String.eqb (HTMLBody message) EmptyString then
              Some (New ValidationCode "either text body or HTML body is required" [])
            else None
        end
  end.

(** The three loops of [getAllRecipients]. *)
Definition getAllRecipients (message : EmailMessage) : list string :=
  let recipients := [] in
  let recipients := fold_left (fun acc to => acc ++ [Email to]) (To message) recipients in
  let recipients := fold_left (fun acc cc => acc ++ [Email cc]) (CC message) recipients in
  let recipients := fold_left (fun acc bcc => acc ++ [Email bcc]) (BCC message) recipients in
  recipients.

(** What the provider takes from Go's library and from outside: base64,
    mime, the printing of a date, the order in which a [range] visits a
    map, the readings of the clock (in nanoseconds, the k-th reading is
    [now k]), the answers of the SMTP server to a command, given the
    commands it got before, and what [io.ReadAll] gets out of a reader
    that was read [k] times before ([ReadAll r k]: a reader over a buffer
    gives its bytes the first time and none afterwards). *)
Inductive Command : Type :=
| TLSDial (address serverName : string)
| NewClient (host : string)
| Dial (address : string)
| StartTLS (serverName : string)
| Auth (username password host : string)
| Mail (from : string)
| Rcpt (to : string)
| Data
| Write (content : string)
| WriterClose
| ClientClose
| ConnClose.

Global Instance Command_eq_dec : EqDecision Command.
Proof. solve_decision. Defined.

Class Runtime : Type := mkRuntime {
  EncodeToString : string -> string;
  TypeByExtension : string -> string;
  Format_RFC1123Z : Z -> string;
  range : gmap string string -> list (string * string);
  now : nat -> Z;
  server : list Command -> Command -> option Error;
  ReadAll : Reader -> nat -> string + Error
}.

(** The state a call threads: how often the clock was read, the commands
    sent to the server so far, and the readers read so far, one entry
    per [io.ReadAll]. *)
Record State : Type := mkState {
  reads : nat;
  trace : list Command;
  drained : list Reader
}.

Definition IO (A : Type) : Type := State -> A * State.

Definition io_ret {A : Type} (a : A) : IO A := fun st => (a, st).

Definition io_bind {A B : Type} (m : IO A) (k : A -> IO B) : IO B :=
  fun st => let (a, st') := m st in k a st'.

Notation "'do!' x ':=' m 'in' k" := (io_bind m (fun x => k))
  (at level 10, x name, m at level 100, k at level 200) : go_scope.

Section smtp.
Context `{Runtime}.

(** [time.Now().UnixNano()] *)
Definition UnixNano : IO Z :=
  fun st => (now (reads st),
             mkState (Datatypes.S (reads st)) (trace st) (drained st)).

(** One call on the connection: the server answers, the call is recorded. *)
Definition call (c : Command) : IO (option Error) :=
  fun st => (server (trace st) c,
             mkState (reads st) (trace st ++ [c]) (drained st)).

(** How often a reader has been read. *)
Definition times_read (r : Reader) (st : State) : nat :=
  count_occ Pos.eq_dec (drained st) r.

(** [io.ReadAll(content)]: the data or the error of the read.  A nil
    reader has no [Read] to call: the call panics, [None]. *)
Definition io_ReadAll (content : option Reader) : IO (option (string + Error)) :=
  fun st =>
    match content with
    | None => (None, st)
    | Some r =>
        (Some (ReadAll r (times_read r st)),
         mkState (reads st) (trace st) (drained st ++ [r]))
    end.

(** [formatEmailAddress] *)
Definition formatEmailAddress (addr : EmailAddress) : string :=
  if negb (String.eqb (Name addr) EmptyString)
  then verbs.Sprintf "%s <%s>" [verbs.S (Name addr); verbs.S (Email addr)]
  else Email addr.

(** [formatEmailAddresses] *)
Definition formatEmailAddresses (addrs : list EmailAddress) : string :=
  verbs.Join (List.map formatEmailAddress addrs) ", ".

(** [generateMessageID] *)
Definition generateMessageID (s : smtpProvider) : IO string :=
  do! t := UnixNano in
  io_ret (verbs.Sprintf "<%d@%s>" [verbs.D t; verbs.S (Host (config s))]).

(** [generateBoundary] *)
Definition generateBoundary : IO string :=
  do! t := UnixNano in
  io_ret (verbs.Sprintf "boundary_%d" [verbs.D t]).

Definition lineLength : nat := 76.

(** The loop of [base64Encode]: [i] is the index, [result] the builder;
    one unit of fuel per iteration. *)
Fixpoint base64Encode_loop (fuel : nat) (encoded : string) (i : nat) (result : string)
    : string :=
  match fuel with
  | O => result
  | Datatypes.S fuel' =>
      if (i <? String.length encoded)%nat then
        let end_ := (i + lineLength)%nat in
        let end_ := if (String.length encoded <? end_)%nat
                    then String.length encoded else end_ in
        let result := result +:+ String.substring i (end_ - i) encoded in
        let result := if (end_ <? String.length encoded)%nat
                      then result +:+ verbs.CRLF else result in
        base64Encode_loop fuel' encoded (i + lineLength)%nat result
      else result
  end.

(** The pieces that the loop of [base64Encode] cuts out of the
    encoding, from index [i] on. *)
Fixpoint lines_from (fuel : nat) (encoded : string) (i : nat) : list string :=
  match fuel with
  | O => []
  | Datatypes.S fuel' =>
      if (i <? String.length encoded)%nat then
        let end_ := (i + lineLength)%nat in
        let end_ := if (String.length encoded <? end_)%nat
                    then String.length encoded else end_ in
        String.substring i (end_ - i) encoded :: lines_from fuel' encoded (i + lineLength)
      else []
  end.

(** [base64Encode]; the index grows by 76 in each iteration, so the
    length of the encoding is fuel enough. *)
Definition base64Encode (data : string) : string :=
  let encoded := EncodeToString data in
  base64Encode_loop (Datatypes.S (String.length encoded)) encoded 0 EmptyString.

Definition text_part (content body : string) : string :=
  content +:+ ("Content-Type: text/plain; charset=UTF-8" +:+ verbs.CRLF)
          +:+ ("Content-Transfer-Encoding: 8bit" +:+ verbs.CRLF +:+ verbs.CRLF)
          +:+ body.

Definition html_part (content body : string) : string :=
  content +:+ ("Content-Type: text/html; charset=UTF-8" +:+ verbs.CRLF)
          +:+ ("Content-Transfer-Encoding: 8bit" +:+ verbs.CRLF +:+ verbs.CRLF)
          +:+ body.

(** The text part followed by the HTML part between [boundary] lines, as
    both [addSimpleBody] and [addBodyParts] write them. *)
Definition alternative_parts (content boundary : string) (message : EmailMessage)
    : string :=
  let content :=
    content +:+ verbs.Sprintf ("--%s" +:+ verbs.CRLF) [verbs.S boundary] in
  let content := text_part content (TextBody message) in
  let content := content +:+ (verbs.CRLF +:+ verbs.CRLF) in
  let content :=
    content +:+ verbs.Sprintf ("--%s" +:+ verbs.CRLF) [verbs.S boundary] in
  let content := html_part content (HTMLBody message) in
  content +:+ (verbs.CRLF +:+ verbs.CRLF).

Definition multipart_header (kind : string) : string :=
  "Content-Type: multipart/" +:+ kind +:+ "; boundary=" +:+ verbs.quote +:+ "%s"
    +:+ verbs.quote +:+ verbs.CRLF +:+ verbs.CRLF.

(** [addSimpleBody]; [content] is the builder. *)
Definition addSimpleBody (content : string) (message : EmailMessage)
    : IO (string * option Error) :=
  if negb (String.eqb (HTMLBody message) EmptyString)
     && negb (String.eqb (TextBody message) EmptyString) then
    do! boundary := generateBoundary in
    let content :=
      content +:+ verbs.Sprintf (multipart_header "alternative") [verbs.S boundary] in
    let content := alternative_parts content boundary message in
    let content :=
      content +:+ verbs.Sprintf ("--%s--" +:+ verbs.CRLF) [verbs.S boundary] in
    io_ret (content, None)
  else if negb (String.eqb (HTMLBody message) EmptyString) then
    io_ret (html_part content (HTMLBody message), None)
  else
    io_ret (text_part content (TextBody message), None).

(** [addBodyParts] *)
Definition addBodyParts (content : string) (message : EmailMessage) (boundary : string)
    : IO (string * option Error) :=
  if negb (String.eqb (HTMLBody message) EmptyString)
     && negb (String.eqb (TextBody message) EmptyString) then
    let content :=
      content +:+ verbs.Sprintf ("--%s" +:+ verbs.CRLF) [verbs.S boundary] in
    do! altBoundary := generateBoundary in
    let content :=
      content +:+ verbs.Sprintf (multipart_header "alternative") [verbs.S altBoundary] in
    let content := alternative_parts content altBoundary message in
    let content :=
      content +:+ verbs.Sprintf ("--%s--" +:+ verbs.CRLF +:+ verbs.CRLF)
                    [verbs.S altBoundary] in
    io_ret (content, None)
  else if negb (String.eqb (HTMLBody message) EmptyString) then
    let content :=
      content +:+ verbs.Sprintf ("--%s" +:+ verbs.CRLF) [verbs.S boundary] in
    let content := html_part content (HTMLBody message) in
    io_ret (content +:+ (verbs.CRLF +:+ verbs.CRLF), None)
  else
    let content :=
      content +:+ verbs.Sprintf ("--%s" +:+ verbs.CRLF) [verbs.S boundary] in
    let content := text_part content (TextBody message) in
    io_ret (content +:+ (verbs.CRLF +:+ verbs.CRLF), None).

(** [addAttachments]: the loop stops at the first attachment whose
    content cannot be read; [None] is the panic of [io.ReadAll] on a nil
    reader. *)
Fixpoint addAttachments (content : string) (attachments : list Attachment)
    (boundary : string) : IO (option (string * option Error)) :=
  match attachments with
  | [] => io_ret (Some (content, None))
  | attachment :: rest =>
      let content :=
        content +:+ verbs.Sprintf ("--%s" +:+ verbs.CRLF) [verbs.S boundary] in
      let contentType := ContentType attachment in
      let contentType :=
        if String.eqb contentType EmptyString then
          let contentType := TypeByExtension (Filename attachment) in
          if String.eqb contentType EmptyString
          then "application/octet-stream" else contentType
        else contentType in
      let content :=
        content +:+ verbs.Sprintf ("Content-Type: %s" +:+ verbs.CRLF)
                      [verbs.S contentType] in
      let content :=
        content +:+ ("Content-Transfer-Encoding: base64" +:+ verbs.CRLF) in
      let content :=
        content +:+ verbs.Sprintf
                      ("Content-Disposition: attachment; filename=" +:+ verbs.quote
                         +:+ "%s" +:+ verbs.quote +:+ verbs.CRLF +:+ verbs.CRLF)
                      [verbs.S (Filename attachment)] in
      do! read := io_ReadAll (Content attachment) in
      match read with
      | None => io_ret None
      | Some (inr err) =>
          io_ret (Some (content,
                        Some (Wrap err InternalCode "failed to read attachment content"
                                [("filename", Filename attachment)])))
      | Some (inl attachmentData) =>
          let encoded := base64Encode attachmentData in
          let content := content +:+ encoded in
          let content := content +:+ (verbs.CRLF +:+ verbs.CRLF) in
          addAttachments content rest boundary
      end
  end.

(** The headers that [buildEmailContent] writes before the body. *)
Definition write_headers (message : EmailMessage) (date : Z) : string :=
  let content := EmptyString in
  let content :=
    content +:+ verbs.Sprintf ("From: %s" +:+ verbs.CRLF)
                  [verbs.S (formatEmailAddress (From message))] in
  let content :=
    content +:+ verbs.Sprintf ("To: %s" +:+ verbs.CRLF)
                  [verbs.S (formatEmailAddresses (To message))] in
  let content :=
    if (0 <? length (CC message))%nat
    then content +:+ verbs.Sprintf ("Cc: %s" +:+ verbs.CRLF)
                       [verbs.S (formatEmailAddresses (CC message))]
    else content in
  let content :=
    match ReplyTo message with
    | Some replyTo =>
        content +:+ verbs.Sprintf ("Reply-To: %s" +:+ verbs.CRLF)
                      [verbs.S (formatEmailAddress replyTo)]
    | None => content
    end in
  let content :=
    content +:+ verbs.Sprintf ("Subject: %s" +:+ verbs.CRLF)
                  [verbs.S (Subject message)] in
  let content :=
    content +:+ verbs.Sprintf ("Date: %s" +:+ verbs.CRLF)
                  [verbs.S (Format_RFC1123Z date)] in
  let content := content +:+ ("MIME-Version: 1.0" +:+ verbs.CRLF) in
  let content :=
    fold_left (fun content kv =>
                 content +:+ verbs.Sprintf ("%s: %s" +:+ verbs.CRLF)
                               [verbs.S (fst kv); verbs.S (snd kv)])
      (range (Headers message)) content in
  if negb (String.eqb (Priority_ message) EmptyString) then
    if String.eqb (Priority_ message) PriorityHigh then
      content +:+ ("X-Priority: 1" +:+ verbs.CRLF)
              +:+ ("Importance: high" +:+ verbs.CRLF)
    else if String.eqb (Priority_ message) PriorityLow then
      content +:+ ("X-Priority: 5" +:+ verbs.CRLF)
              +:+ ("Importance: low" +:+ verbs.CRLF)
    else content
  else content.

(** [buildEmailContent]; on an error the content returned is empty, and
    [None] is the panic of [addAttachments]. *)
Definition buildEmailContent (message : EmailMessage)
    : IO (option (string * option Error)) :=
  do! date := UnixNano in
  let content := write_headers message date in
  if (0 <? length (Attachments message))%nat then
    do! boundary := generateBoundary in
    let content :=
      content +:+ verbs.Sprintf (multipart_header "mixed") [verbs.S boundary] in
    do! body := addBodyParts content message boundary in
    match snd body with
    | Some err => io_ret (Some (EmptyString, Some err))
    | None =>
        do! added := addAttachments (fst body) (Attachments message) boundary in
        match added with
        | None => io_ret None
        | Some (_, Some err) => io_ret (Some (EmptyString, Some err))
        | Some (content, None) =>
            io_ret (Some (content +:+ verbs.Sprintf ("--%s--" +:+ verbs.CRLF)
                                        [verbs.S boundary],
                          None))
        end
    end
  else
    do! body := addSimpleBody content message in
    match snd body with
    | Some err => io_ret (Some (EmptyString, Some err))
    | None => io_ret (Some (fst body, None))
    end.

(** The loop over the recipients of [sendViaSMTP]. *)
Fixpoint set_recipients (recipients : list string) : IO (option Error) :=
  match recipients with
  | [] => io_ret None
  | recipient :: rest =>
      do! err := call (Rcpt recipient) in
      match err with
      | Some e =>
          io_ret (Some (Wrap e InternalCode "failed to set recipient"
                          [("recipient", recipient)]))
      | None => set_recipients rest
      end
  end.

(** [sendViaSMTP] from the authentication on, once the client exists. *)
Definition send_on_client (s : smtpProvider) (from : string) (recipients : list string)
    (content : string) : IO (option Error) :=
  do! err :=
    (if negb (String.eqb (Username (config s)) EmptyString)
        && negb (String.eqb (Password (config s)) EmptyString)
     then
       do! err := call (Auth (Username (config s)) (Password (config s))
                          (Host (config s))) in
       match err with
       | Some e => io_ret (Some (Wrap e UnauthorizedCode "SMTP authentication failed" []))
       | None => io_ret None
       end
     else io_ret None) in
  match err with
  | Some e => io_ret (Some e)
  | None =>
      do! err := call (Mail from) in
      match err with
      | Some e => io_ret (Some (Wrap e InternalCode "failed to set sender" []))
      | None =>
          do! err := set_recipients recipients in
          match err with
          | Some e => io_ret (Some e)
          | None =>
              do! err := call Data in
              match err with
              | Some e =>
                  io_ret (Some (Wrap e InternalCode "failed to initialize data transfer" []))
              | None =>
                  do! err := call (Write content) in
                  match err with
                  | Some e =>
                      do! _ := call WriterClose in
                      io_ret (Some (Wrap e InternalCode "failed to write email content" []))
                  | None =>
                      do! err := call WriterClose in
                      match err with
                      | Some e =>
                          io_ret (Some (Wrap e InternalCode
                                          "failed to finalize email sending" []))
                      | None => io_ret None
                      end
                  end
              end
          end
      end
  end.

(** The deferred calls run when the function returns, the last one
    deferred first; what they return is dropped. *)
Fixpoint run_deferred (deferred : list Command) : IO unit :=
  match deferred with
  | [] => io_ret tt
  | c :: rest => do! _ := call c in run_deferred rest
  end.

(** [sendViaSMTP]; the context is not used. *)
Definition sendViaSMTP (s : smtpProvider) (c : Context) (from : string)
    (recipients : list string) (content : string) : IO (option Error) :=
  let address :=
    verbs.Sprintf "%s:%d" [verbs.S (Host (config s)); verbs.D (Port (config s))] in
  if UseSSL (config s) then
    do! err := call (TLSDial address (Host (config s))) in
    match err with
    | Some e =>
        io_ret (Some (Wrap e InternalCode "failed to connect to SMTP server with SSL" []))
    | None =>
        do! err := call (NewClient (Host (config s))) in
        match err with
        | Some e =>
            do! _ := run_deferred [ConnClose] in
            io_ret (Some (Wrap e InternalCode "failed to create SMTP client" []))
        | None =>
            do! res := send_on_client s from recipients content in
            do! _ := run_deferred [ClientClose; ConnClose] in
            io_ret res
        end
    end
  else
    do! err := call (Dial address) in
    match err with
    | Some e => io_ret (Some (Wrap e InternalCode "failed to connect to SMTP server" []))
    | None =>
        do! err :=
          (if UseTLS (config s) then call (StartTLS (Host (config s)))
           else io_ret None) in
        match err with
        | Some e =>
            do! _ := call ClientClose in
            io_ret (Some (Wrap e InternalCode "failed to start TLS" []))
        | None =>
            do! res := send_on_client s from recipients content in
            do! _ := run_deferred [ClientClose] in
            io_ret res
        end
    end.

(** The commands [sendViaSMTP] intends to send once the client exists, in
    the order of the source: authenticate when both credentials are set,
    the sender, one RCPT per recipient, DATA, the content, the end of the
    data. *)
Definition session (s : smtpProvider) (from : string) (recipients : list string)
    (content : string) : list Command :=
  (if negb (String.eqb (Username (config s)) EmptyString)
      && negb (String.eqb (Password (config s)) EmptyString)
   then [Auth (Username (config s)) (Password (config s)) (Host (config s))]
   else [])
  ++ [Mail from] ++ List.map Rcpt recipients ++ [Data; Write content; WriterClose].

(** The address [sendViaSMTP] connects to. *)
Definition address (s : smtpProvider) : string :=
  verbs.Sprintf "%s:%d" [verbs.S (Host (config s)); verbs.D (Port (config s))].

(** The whole conversation: connect (with SSL: the TLS connection, then
    the client on it; otherwise the plain connection, then STARTTLS when
    [UseTLS] is set), then the session. *)
Definition conversation (s : smtpProvider) (from : string) (recipients : list string)
    (content : string) : list Command :=
  (if UseSSL (config s)
   then [TLSDial (address s) (Host (config s)); NewClient (Host (config s))]
   else Dial (address s) ::
        (if UseTLS (config s) then [StartTLS (Host (config s))] else []))
  ++ session s from recipients content.

(** The closing calls [sendViaSMTP] owes when it returns, by how far the
    connecting got on the server that has seen the commands [before]. *)
Definition closes_owed `{Runtime} (s : smtpProvider) (before : list Command)
    : list Command :=
  if UseSSL (config s) then
    match server before (TLSDial (address s) (Host (config s))) with
    | Some _ => []
    | None =>
        match server (before ++ [TLSDial (address s) (Host (config s))])
                (NewClient (Host (config s))) with
        | Some _ => [ConnClose]
        | None => [ClientClose; ConnClose]
        end
    end
  else
    match server before (Dial (address s)) with
    | Some _ => []
    | None => [ClientClose]
    end.

(** The calls that release a connection. *)
Definition is_close (c : Command) : bool :=
  match c with
  | ClientClose | ConnClose => true
  | _ => false
  end.

(** What reading the attachments in their order comes to, after the
    reads of [before]: all of them read; or the read of one of them
    failed; or one of them has a nil reader.  The first attachment that
    cannot be read decides. *)
Inductive Reading : Type :=
| AllRead
| ReadError (attachment : Attachment) (err : Error)
| NilReader.

Fixpoint reading (before : list Reader) (attachments : list Attachment) : Reading :=
  match attachments with
  | [] => AllRead
  | a :: rest =>
      match Content a with
      | None => NilReader
      | Some r =>
          match ReadAll r (count_occ Pos.eq_dec before r) with
          | inr err => ReadError a err
          | inl _ => reading (before ++ [r]) rest
          end
      end
  end.

(** [SendEmail] of [smtpProvider]; [None] is the panic of
    [buildEmailContent]. *)
Definition SendEmail (s : smtpProvider) (c : Context) (message : option EmailMessage)
    : IO (option (SendEmailResponse + Error)) :=
  match validateEmailMessage message, message with
  | Some err, _ =>
      io_ret (Some (inr (Wrap err ValidationCode "invalid email message" [])))
  | None, None =>
      (* not reached: [validateEmailMessage] refuses the nil message *)
      io_ret (Some (inr (Wrap (New ValidationCode "email message cannot be nil" [])
                           ValidationCode "invalid email message" [])))
  | None, Some message =>
      do! built := buildEmailContent message in
      match built with
      | None => io_ret None
      | Some (_, Some err) =>
          io_ret (Some (inr (Wrap err InternalCode "failed to build email content" [])))
      | Some (emailContent, None) =>
          let recipients := getAllRecipients message in
          if (length recipients =? 0)%nat then
            io_ret (Some (inr (New ValidationCode "no recipients specified" [])))
          else
            do! err := sendViaSMTP s c (Email (From message)) recipients emailContent in
            match err with
            | Some e =>
                io_ret (Some (inr (Wrap e InternalCode
                                     "failed to send email via SMTP" [])))
            | None =>
                do! id := generateMessageID s in
                io_ret (Some (inl (mkSendEmailResponse id "sent" "smtp"
                                     (<["host" := AnyString (Host (config s))]>
                                        (<["port" := AnyInt (Port (config s))]> ∅)))))
            end
      end
  end.

(** The loop of [SendBulkEmails]; a panic of [SendEmail] ends it, the
    messages before it having been sent. *)
Fixpoint SendBulkEmails_loop (s : smtpProvider) (c : Context)
    (messages : list (option EmailMessage)) (acc : BulkSendResponse)
    : IO (option BulkSendResponse) :=
  match messages with
  | [] => io_ret (Some acc)
  | message :: rest =>
      do! res := SendEmail s c message in
      match res with
      | None => io_ret None
      | Some (inr err) =>
          SendBulkEmails_loop s c rest
            (mkBulkSendResponse (SuccessCount acc) (FailureCount acc + 1)
               (Results acc ++ [mkSendEmailResponse EmptyString "failed" "smtp" ∅])
               (Errors acc ++ [err]))
      | Some (inl resp) =>
          SendBulkEmails_loop s c rest
            (mkBulkSendResponse (SuccessCount acc + 1) (FailureCount acc)
               (Results acc ++ [resp]) (Errors acc))
      end
  end.

(** [SendBulkEmails] of [smtpProvider]; [None] is a panic. *)
Definition SendBulkEmails (s : smtpProvider) (c : Context)
    (messages : list (option EmailMessage))
    : IO (option (BulkSendResponse * option Error)) :=
  if (length messages =? 0)%nat then
    io_ret (Some (mkBulkSendResponse 0 0 [] [], None))
  else
    do! resp := SendBulkEmails_loop s c messages (mkBulkSendResponse 0 0 [] []) in
    match resp with
    | None => io_ret None
    | Some resp => io_ret (Some (resp, None))
    end.

(** [GetProviderInfo] of [smtpProvider] *)
Definition GetProviderInfo (s : smtpProvider) : ProviderConfig :=
  mkProviderConfig "smtp"
    (<["host" := AnyString (Host (config s))]>
       (<["port" := AnyInt (Port (config s))]>
          (<["use_tls" := AnyBool (UseTLS (config s))]>
             (<["use_ssl" := AnyBool (UseSSL (config s))]> ∅)))).

(** [Close] of [smtpProvider] *)
Definition Close (s : smtpProvider) : option Error := None.

End smtp.

End mail.

(* ================================================================== *)
(** * Package mail: the GoMail provider (gomail.go) *)
(* ================================================================== *)

Module gomail.

(** A [gomail.Message] is kept as the calls the code makes on it, in
    their order. *)
Inductive MessageCall : Type :=
| SetHeader (field : string) (values : list string)
| SetBody (contentType body : string)
| AddAlternative (contentType body : string)
| Attach (filename content : string) (contentType : option string).

(** What the code asks of the dialer and of the connection it opens. *)
Inductive DialerCall : Type :=
| DialAndSend (msg : list MessageCall)
| Dial
| Send (msg : list MessageCall)
| SenderClose.

(** The answers of the dialer, given the calls it got before, and the
    text of an error ([err.Error()]). *)
Class Dialer : Type := mkDialer {
  answer : list DialerCall -> DialerCall -> option mail.Error;
  Error_text : mail.Error -> string
}.

Record GoMailConfig : Type := mkGoMailConfig {
  Host : string;
  Port : Z;
  Username : string;
  Password : string;
  UseTLS : bool;
  UseSSL : bool;
  SkipVerify : bool;
  DialTimeout : Z;
  WriteTimeout : Z;
  ReadTimeout : Z;
  KeepAlive : Z
}.

Record goMailProvider : Type := mkGoMailProvider { config : GoMailConfig }.

(** The state a call threads: how often the clock was read, the calls
    made on the dialer so far, and the readers read so far. *)
Record State : Type := mkState {
  reads : nat;
  calls : list DialerCall;
  drained : list mail.Reader
}.

Definition IO (A : Type) : Type := State -> A * State.

Definition io_ret {A : Type} (a : A) : IO A := fun st => (a, st).

Definition io_bind {A B : Type} (m : IO A) (k : A -> IO B) : IO B :=
  fun st => let (a, st') := m st in k a st'.

Notation "'do!' x ':=' m 'in' k" := (io_bind m (fun x => k))
  (at level 10, x name, m at level 100, k at level 200) : go_scope.

Section provider.
Context `{mail.Runtime} `{Dialer}.

(** [time.Now()], in nanoseconds *)
Definition Now : IO Z :=
  fun st => (mail.now (reads st),
             mkState (Datatypes.S (reads st)) (calls st) (drained st)).

(** [t.Unix()] and [t.Nanosecond()] *)
Definition Unix (t : Z) : Z := (t / mail.Second)%Z.
Definition Nanosecond (t : Z) : Z := (t mod mail.Second)%Z.

Definition ask (c : DialerCall) : IO (option mail.Error) :=
  fun st => (answer (calls st) c,
             mkState (reads st) (calls st ++ [c]) (drained st)).

(** [io.ReadAll(content)]; on a nil reader it panics, [None]. *)
Definition io_ReadAll (content : option mail.Reader)
    : IO (option (string + mail.Error)) :=
  fun st =>
    match content with
    | None => (None, st)
    | Some r =>
        (Some (mail.ReadAll r (count_occ Pos.eq_dec (drained st) r)),
         mkState (reads st) (calls st) (drained st ++ [r]))
    end.

(** The address as each of the loops of [buildGoMailMessage] writes it. *)
Definition address_text (a : mail.EmailAddress) : string :=
  if negb (String.eqb (mail.Name a) EmptyString)
  then verbs.Sprintf "%s <%s>" [verbs.S (mail.Name a); verbs.S (mail.Email a)]
  else mail.Email a.

(** [addAttachment]: the calls it adds to the message, or the error;
    [None] is the panic of [io.ReadAll] on a nil reader. *)
Definition addAttachment (attachment : mail.Attachment)
    : IO (option (list MessageCall + mail.Error)) :=
  do! read := io_ReadAll (mail.Content attachment) in
  match read with
  | None => io_ret None
  | Some (inr err) =>
      io_ret (Some (inr (mail.Wrap err mail.InternalCode
                           "failed to read attachment content" [])))
  | Some (inl content) =>
      if negb (String.eqb (mail.ContentType attachment) EmptyString)
      then io_ret (Some (inl [Attach (mail.Filename attachment) content
                                (Some (mail.ContentType attachment))]))
      else io_ret (Some (inl [Attach (mail.Filename attachment) content None]))
  end.

(** The loop over the attachments of [buildGoMailMessage]. *)
Fixpoint add_attachments (msg : list MessageCall) (attachments : list mail.Attachment)
    : IO (option (list MessageCall + mail.Error)) :=
  match attachments with
  | [] => io_ret (Some (inl msg))
  | attachment :: rest =>
      do! added := addAttachment attachment in
      match added with
      | None => io_ret None
      | Some (inr err) =>
          io_ret (Some (inr (mail.Wrap err mail.InternalCode
                               "failed to add attachment" [])))
      | Some (inl added) => add_attachments (msg ++ added) rest
      end
  end.

(** [buildGoMailMessage] of a message that is not nil; [None] is a panic. *)
Definition buildGoMailMessage (message : mail.EmailMessage)
    : IO (option (list MessageCall + mail.Error)) :=
  let msg := [] in
  let msg := msg ++ [SetHeader "From" [address_text (mail.From message)]] in
  let msg := msg ++ [SetHeader "To" (List.map address_text (mail.To message))] in
  let msg :=
    if (0 <? length (mail.CC message))%nat
    then msg ++ [SetHeader "Cc" (List.map address_text (mail.CC message))]
    else msg in
  let msg :=
    if (0 <? length (mail.BCC message))%nat
    then msg ++ [SetHeader "Bcc" (List.map address_text (mail.BCC message))]
    else msg in
  let msg :=
    match mail.ReplyTo message with
    | Some replyTo => msg ++ [SetHeader "Reply-To" [address_text replyTo]]
    | None => msg
    end in
  let msg := msg ++ [SetHeader "Subject" [mail.Subject message]] in
  let msg :=
    if String.eqb (mail.Priority_ message) mail.PriorityHigh then
      msg ++ [SetHeader "X-Priority" ["1"]; SetHeader "X-MSMail-Priority" ["High"];
              SetHeader "Importance" ["High"]]
    else if String.eqb (mail.Priority_ message) mail.PriorityLow then
      msg ++ [SetHeader "X-Priority" ["5"]; SetHeader "X-MSMail-Priority" ["Low"];
              SetHeader "Importance" ["Low"]]
    else msg in
  let msg :=
    fold_left (fun msg kv => msg ++ [SetHeader (fst kv) [snd kv]])
      (mail.range (mail.Headers message)) msg in
  let msg :=
    if negb (String.eqb (mail.HTMLBody message) EmptyString)
       && negb (String.eqb (mail.TextBody message) EmptyString) then
      msg ++ [SetBody "text/plain" (mail.TextBody message);
              AddAlternative "text/html" (mail.HTMLBody message)]
    else if negb (String.eqb (mail.HTMLBody message) EmptyString) then
      msg ++ [SetBody "text/html" (mail.HTMLBody message)]
    else if negb (String.eqb (mail.TextBody message) EmptyString) then
      msg ++ [SetBody "text/plain" (mail.TextBody message)]
    else msg in
  add_attachments msg (mail.Attachments message).

(** [validateEmailMessage] of [goMailProvider] *)
Definition validateEmailMessage (message : option mail.EmailMessage)
    : option mail.Error :=
  match message with
  | None => Some (mail.New mail.ValidationCode "email message cannot be nil" [])
  | Some message =>
      if String.eqb (mail.Email (mail.From message)) EmptyString then
        Some (mail.New mail.ValidationCode "from email is required" [])
      else if (length (mail.To message) =? 0)%nat then
        Some (mail.New mail.ValidationCode "at least one recipient is required" [])
      else if String.eqb (mail.Subject message) EmptyString then
        Some (mail.New mail.ValidationCode "subject is required" [])
      else if String.eqb (mail.TextBody message) EmptyString
              && String.eqb (mail.HTMLBody message) EmptyString then
        Some (mail.New mail.ValidationCode
                "either text body or HTML body is required" [])
      else None
  end.

(** [generateMessageID] of [goMailProvider]: two readings of the clock. *)
Definition generateMessageID (g : goMailProvider) : IO string :=
  do! t := Now in
  let timestamp := Unix t in
  do! t' := Now in
  io_ret (verbs.Sprintf "gomail-%d-%d@%s"
            [verbs.D timestamp; verbs.D (Nanosecond t'); verbs.S (Host (config g))]).

(** [SendEmail] of [goMailProvider]; [None] is the panic of
    [buildGoMailMessage]. *)
Definition SendEmail (g : goMailProvider) (c : Context)
    (message : option mail.EmailMessage)
    : IO (option (mail.SendEmailResponse + mail.Error)) :=
  match validateEmailMessage message, message with
  | Some err, _ =>
      io_ret (Some (inr (mail.Wrap err mail.ValidationCode "invalid email message" [])))
  | None, None =>
      (* not reached: [validateEmailMessage] refuses the nil message *)
      io_ret (Some (inr (mail.Wrap
                           (mail.New mail.ValidationCode "email message cannot be nil" [])
                           mail.ValidationCode "invalid email message" [])))
  | None, Some message =>
      do! built := buildGoMailMessage message in
      match built with
      | None => io_ret None
      | Some (inr err) =>
          io_ret (Some (inr (mail.Wrap err mail.InternalCode
                               "failed to build gomail message" [])))
      | Some (inl msg) =>
          do! err := ask (DialAndSend msg) in
          match err with
          | Some e =>
              io_ret (Some (inr (mail.Wrap e mail.InternalCode
                                   "failed to send email via gomail" [])))
          | None =>
              do! id := generateMessageID g in
              do! t := Now in
              io_ret (Some (inl (mail.mkSendEmailResponse id "sent" "gomail"
                             (<["host" := mail.AnyString (Host (config g))]>
                                (<["port" := mail.AnyInt (Port (config g))]>
                                   (<["use_tls" := mail.AnyBool (UseTLS (config g))]>
                                      (<["use_ssl" := mail.AnyBool (UseSSL (config g))]>
                                         (<["timestamp" := mail.AnyInt (Unix t)]> ∅))))))))
          end
      end
  end.

(** The result that the loops of [SendBulkEmails] record for a failure. *)
Definition failed (err : mail.Error) : mail.SendEmailResponse :=
  mail.mkSendEmailResponse EmptyString "failed" "gomail"
    (<["error" := mail.AnyString (Error_text err)]> ∅).

Definition add_failure (acc : mail.BulkSendResponse) (err : mail.Error)
    : mail.BulkSendResponse :=
  mail.mkBulkSendResponse (mail.SuccessCount acc) (mail.FailureCount acc + 1)
    (mail.Results acc ++ [failed err]) (mail.Errors acc ++ [err]).

(** The loop of [SendBulkEmails] after a failed [Dial]: every message
    fails with the error of the dial. *)
Fixpoint all_fail (messages : list (option mail.EmailMessage)) (err : mail.Error)
    (acc : mail.BulkSendResponse) : mail.BulkSendResponse :=
  match messages with
  | [] => acc
  | _ :: rest => all_fail rest err (add_failure acc err)
  end.

(** The loop of [SendBulkEmails] on the open connection.  The messages
    are not validated here; a nil message is dereferenced by
    [buildGoMailMessage], which panics, as it does on a nil reader of an
    attachment: [None]. *)
Fixpoint send_each (g : goMailProvider) (messages : list (option mail.EmailMessage))
    (acc : mail.BulkSendResponse) : IO (option mail.BulkSendResponse) :=
  match messages with
  | [] => io_ret (Some acc)
  | None :: _ => io_ret None
  | Some message :: rest =>
      do! built := buildGoMailMessage message in
      match built with
      | None => io_ret None
      | Some (inr err) => send_each g rest (add_failure acc err)
      | Some (inl msg) =>
          do! err := ask (Send msg) in
          match err with
          | Some e => send_each g rest (add_failure acc e)
          | None =>
              do! id := generateMessageID g in
              do! t := Now in
              send_each g rest
                (mail.mkBulkSendResponse (mail.SuccessCount acc + 1)
                   (mail.FailureCount acc)
                   (mail.Results acc
                    ++ [mail.mkSendEmailResponse id "sent" "gomail"
                          (<["timestamp" := mail.AnyInt (Unix t)]> ∅)])
                   (mail.Errors acc))
          end
      end
  end.

(** [SendBulkEmails] of [goMailProvider]; [None] is a panic.  The
    deferred [sender.Close()] runs when the function is left, also by a
    panic. *)
Definition SendBulkEmails (g : goMailProvider) (c : Context)
    (messages : list (option mail.EmailMessage))
    : IO (option (mail.BulkSendResponse * option mail.Error)) :=
  if (length messages =? 0)%nat then
    io_ret (Some (mail.mkBulkSendResponse 0 0 [] [], None))
  else
    do! err := ask Dial in
    match err with
    | Some e =>
        io_ret (Some (all_fail messages e (mail.mkBulkSendResponse 0 0 [] []), None))
    | None =>
        do! resp := send_each g messages (mail.mkBulkSendResponse 0 0 [] []) in
        do! _ := ask SenderClose in
        match resp with
        | Some resp => io_ret (Some (resp, None))
        | None => io_ret None
        end
    end.

(** [Close] of [goMailProvider] *)
Definition Close (g : goMailProvider) : option mail.Error := None.

(** A call that sends a message on the open connection. *)
Definition is_Send (c : DialerCall) : bool :=
  match c with
  | Send _ => true
  | _ => false
  end.

End provider.
End gomail.

(* ================================================================== *)
(** * Sample mail data *)
(* ================================================================== *)

Module outbox.

(** A server that refuses one mailbox and accepts every other command. *)
Definition server (before : list mail.Command) (c : mail.Command) : option mail.Error :=
  match c with
  | mail.Rcpt r =>
      if String.eqb r "blocked@example.com"
      then Some (mail.External "550 mailbox unavailable")
      else None
  | _ => None
  end.

(** Readers over a buffer: the bytes at the first read, none afterwards.
    Reader 2 is broken. *)
Definition ReadAll (r : mail.Reader) (k : nat) : string + mail.Error :=
  if Pos.eqb r 2 then inr (mail.External "unexpected EOF")
  else match k with
       | O => inl "report"
       | _ => inl EmptyString
       end.

(** The encoder, the MIME table and the date layout are stand-ins; the
    clock ticks once per reading. *)
Definition runtime : mail.Runtime :=
  mail.mkRuntime (fun data => data) (fun ext => EmptyString) (fun t => pretty t)
    map_to_list (fun k => (1000 + Z.of_nat k)%Z) server ReadAll.

Definition provider : mail.smtpProvider :=
  mail.NewSMTPProvider
    (mail.mkSMTPConfig "smtp.example.com" 587 "mailer" "secret" true false 0).

Definition idle : mail.State := mail.mkState 0 [] [].

Definition sender : mail.EmailAddress := mail.mkEmailAddress "test@example.com" "Test".
Definition first : mail.EmailAddress :=
  mail.mkEmailAddress "user.name@domain.co.uk" EmptyString.
Definition second : mail.EmailAddress :=
  mail.mkEmailAddress "user+tag@example.org" EmptyString.
Definition malformed : mail.EmailAddress :=
  mail.mkEmailAddress "user space@example.com" EmptyString.
Definition blocked : mail.EmailAddress :=
  mail.mkEmailAddress "blocked@example.com" EmptyString.

(** A message with a To, a CC and a BCC recipient. *)
Definition greeting : mail.EmailMessage :=
  mail.mkEmailMessage sender [first] [second] [sender] None "Hello" "Hi there"
    EmptyString [] ∅ EmptyString.

(** The second To recipient is malformed. *)
Definition mistyped : mail.EmailMessage :=
  mail.mkEmailMessage sender [first; malformed; second] [] [] None "Hello" "Hi there"
    EmptyString [] ∅ EmptyString.

(** A valid message with an attachment that has no reader. *)
Definition unattached : mail.EmailMessage :=
  mail.mkEmailMessage sender [first] [] [] None "Report" "See the attachment"
    EmptyString [mail.mkAttachment "report.txt" None "text/plain" 0] ∅ EmptyString.

(** A valid message with an attachment over a buffer. *)
Definition report : mail.EmailMessage :=
  mail.mkEmailMessage sender [first] [] [] None "Report" "See the attachment"
    EmptyString [mail.mkAttachment "report.txt" (Some 1%positive) "text/plain" 6] ∅
    EmptyString.

(** A message without a subject. *)
Definition untitled : mail.EmailMessage :=
  mail.mkEmailMessage sender [first] [] [] None EmptyString "Hi there"
    EmptyString [] ∅ EmptyString.

Definition Error_text (err : mail.Error) : string :=
  match err with
  | mail.External msg => msg
  | mail.New _ msg _ => msg
  | mail.Wrap _ _ msg _ => msg
  end.

(** A dialer that answers every call with nil, and one that cannot connect. *)
Definition dialer : gomail.Dialer :=
  gomail.mkDialer (fun _ _ => None) Error_text.

Definition unreachable : gomail.Dialer :=
  gomail.mkDialer
    (fun _ c => match c with
                | gomail.Dial => Some (mail.External "dial tcp: connection refused")
                | _ => None
                end)
    Error_text.

Definition gomail_provider : gomail.goMailProvider :=
  gomail.mkGoMailProvider
    (gomail.mkGoMailConfig "smtp.example.com" 587 "mailer" "secret" true false false
       0 0 0 0).

Definition gomail_idle : gomail.State := gomail.mkState 0 [] [].

End outbox.

(* ================================================================== *)
(** * Properties of the relay router *)
(* ================================================================== *)

Section relay.

Implicit Types (r : eventrouter.messageRouter) (w : World) (msg : ptr).

Lemma load_Some msg w m : heap w !! msg = Some m -> load msg w = Ret m w.
Proof. intros E. unfold load. now rewrite E. Qed.

Lemma Message_Context_Some msg w m :
  heap w !! msg = Some m ->
  message.Message_Context msg w = Ret (default Background (ctx m)) w.
Proof.
  intros E. unfold message.Message_Context, bind. now rewrite (load_Some _ _ _ E).
Qed.

Lemma with_router_same r : eventrouter.with_router r (eventrouter.router r) = r.
Proof. now destruct r. Qed.

End relay.

(** The code on small inputs. *)

Example Sprintf_events : fmt.Sprintf "events.%s" ["OrderCreated"] = "events.OrderCreated".
Proof. reflexivity. Qed.

Example Sprintf_missing : fmt.Sprintf "commands.%s" [] = "commands.%!s(MISSING)".
Proof. reflexivity. Qed.

Example Sprintf_extra :
  fmt.Sprintf "100%%" ["a"; "b"] = "100%%!(EXTRA string=a, string=b)".
Proof. reflexivity. Qed.

Example handlerFunc_nil_message :
  eventrouter.AddHandler_handlerFunc sample.mark 2%positive sample.world = Panic.
Proof. reflexivity. Qed.

Example handlerFunc_marks_in_place :
  match eventrouter.AddHandler_handlerFunc sample.mark 1%positive sample.world with
  | Ret (out, err) w' =>
      out = [1%positive] /\ err = None /\
      (heap w' !! 1%positive)
      = Some (mkMessage "order-001" {[ "processed" := "true" ]}
                [Byte.x7b; Byte.x7d] None)
  | Panic => False
  end.
Proof. vm_compute. repeat split. Qed.

Example Publish_on_a_broker_that_is_down :
  match eventrouter.Publish (eventrouter.NewPublisher sample.down None)
          sample.cancelled "orders.created" 1%positive sample.world with
  | Ret err w' =>
      err = Some (WrapAsIs (Foreign "broker down") "failed to publish message"
                    [("topic", "orders.created"); ("message_id", "order-001")]) /\
      logs w' = [mkLogEntry (Some slog_Default) LevelDebug "Publishing message"
                   [AString "topic" "orders.created";
                    AString "message_id" "order-001"]]
  | Panic => False
  end.
Proof. vm_compute. split; reflexivity. Qed.

Example NewRouter_is_created_empty :
  eventrouter.NewRouter (eventrouter.mkConfig None None) = inl sample.fresh_router.
Proof. reflexivity. Qed.

Example Run_then_registration_is_refused :
  match message.Run_start Background (eventrouter.router sample.fresh_router) with
  | inl wm =>
      eventrouter.with_router sample.fresh_router wm = sample.running_router /\
      eventrouter.Running sample.running_router = true
  | inr _ => False
  end.
Proof. split; reflexivity. Qed.

(** C1, as the spec states it, fails: on a running router [AddMiddleware]
    (and [AddPlugin]) hands no error back, so the call does not fail. *)
Lemma registration_while_running_counterexample :
  eventrouter.Running sample.running_router = true /\
  (exists r',
     eventrouter.register (eventrouter.CallAddMiddleware sample.recoverer)
       sample.running_router = Some (r', None)) /\
  (exists r',
     eventrouter.register (eventrouter.CallAddPlugin "SignalsHandler")
       sample.running_router = Some (r', None)) /\
  ~ (exists e,
       eventrouter.register (eventrouter.CallAddMiddleware sample.recoverer)
         sample.running_router = Some (sample.running_router, Some e)).
Proof.
  split; [reflexivity |].
  split; [eexists; reflexivity |].
  split; [eexists; reflexivity |].
  intros [e E]. discriminate E.
Qed.

(** C1, amended: on a running router [AddHandler] and
    [AddNoPublisherHandler] fail with the invalid-argument error and leave
    the router as it was (registrations, middleware chain and plugin list);
    [AddPlugin] and [AddMiddleware] test nothing and report nothing, the
    addition goes to the router beneath as it is. *)
Theorem registration_while_running
    (r : eventrouter.messageRouter)
    (handlerName subscribeTopic publishTopic : string)
    (subscriber : message.Subscriber) (publisher : message.Publisher)
    (handler : eventrouter.MessageHandler)
    (plugin : message.RouterPlugin) (middleware : message.HandlerMiddleware) :
  eventrouter.Running r = true ->
  eventrouter.AddHandler handlerName subscribeTopic publishTopic subscriber publisher
    handler r
  = Some (r, Some (New InvalidArgumentCode "cannot add handler to running router")) /\
  eventrouter.AddNoPublisherHandler handlerName subscribeTopic subscriber handler r
  = Some (r, Some (New InvalidArgumentCode "cannot add handler to running router")) /\
  eventrouter.register (eventrouter.CallAddPlugin plugin) r
  = Some (eventrouter.with_router r (message.AddPlugin plugin (eventrouter.router r)),
          None) /\
  eventrouter.register (eventrouter.CallAddMiddleware middleware) r
  = Some (eventrouter.with_router r
            (message.AddMiddleware middleware (eventrouter.router r)), None).
Proof.
  intros Hrun. unfold eventrouter.Running in Hrun.
  unfold eventrouter.AddHandler, eventrouter.AddNoPublisherHandler.
  rewrite Hrun. repeat split.
Qed.

Lemma registration_while_running_witness :
  eventrouter.Running sample.running_router = true /\
  eventrouter.AddHandler "order_processor" "orders.created" "orders.processed"
    sample.subscriber sample.publisher sample.mark sample.running_router
  = Some (sample.running_router,
          Some (New InvalidArgumentCode "cannot add handler to running router")).
Proof.
  split; [reflexivity |].
  apply (registration_while_running sample.running_router "order_processor"
           "orders.created" "orders.processed" sample.subscriber sample.publisher
           sample.mark "SignalsHandler" sample.recoverer).
  reflexivity.
Defined.

(** C10, as it is stated, fails: on a router that is not running and that
    has a handler of the name already, neither method returns nil; the
    call that each forwards to Watermill panics and the method with it. *)
Lemma registration_when_not_running_counterexample :
  exists once : eventrouter.messageRouter,
    eventrouter.AddHandler "order_processor" "orders.created" "orders.processed"
      sample.subscriber sample.publisher sample.mark sample.fresh_router
    = Some (once, None) /\
    eventrouter.Running once = false /\
    eventrouter.AddHandler "order_processor" "orders.created" "orders.processed"
      sample.subscriber sample.publisher sample.mark once = None /\
    eventrouter.AddNoPublisherHandler "order_processor" "orders.created"
      sample.subscriber sample.mark once = None /\
    ~ (exists r',
         eventrouter.AddHandler "order_processor" "orders.created" "orders.processed"
           sample.subscriber sample.publisher sample.mark once = Some (r', None)).
Proof.
  eexists. split; [reflexivity |].
  split; [reflexivity |]. split; [reflexivity |]. split; [reflexivity |].
  intros [r' E]. discriminate E.
Qed.

(** C10, amended: while the router is not running, [AddHandler] and
    [AddNoPublisherHandler] return nil and register when the handler name
    is free; when it is taken the forwarded call panics and so does the
    method, which has no recover.  Neither has an error path of its own:
    no registration problem comes back as a returned error. *)
Theorem registration_when_not_running
    (r : eventrouter.messageRouter)
    (handlerName subscribeTopic publishTopic : string)
    (subscriber : message.Subscriber) (publisher : message.Publisher)
    (handler : eventrouter.MessageHandler) :
  eventrouter.Running r = false ->
  (message.name_taken handlerName (eventrouter.router r) = false ->
   eventrouter.AddHandler handlerName subscribeTopic publishTopic subscriber publisher
     handler r
   = Some (eventrouter.with_router r
             (message.AddHandler handlerName subscribeTopic subscriber publishTopic
                publisher (eventrouter.AddHandler_handlerFunc handler)
                (eventrouter.router r)), None) /\
   eventrouter.AddNoPublisherHandler handlerName subscribeTopic subscriber handler r
   = Some (eventrouter.with_router r
             (message.AddNoPublisherHandler handlerName subscribeTopic subscriber
                (eventrouter.AddNoPublisherHandler_handlerFunc handler)
                (eventrouter.router r)), None)) /\
  (message.name_taken handlerName (eventrouter.router r) = true ->
   eventrouter.AddHandler handlerName subscribeTopic publishTopic subscriber publisher
     handler r = None /\
   eventrouter.AddNoPublisherHandler handlerName subscribeTopic subscriber handler r
   = None) /\
  (forall r' e,
     eventrouter.AddHandler handlerName subscribeTopic publishTopic subscriber
       publisher handler r <> Some (r', Some e)) /\
  (forall r' e,
     eventrouter.AddNoPublisherHandler handlerName subscribeTopic subscriber handler r
     <> Some (r', Some e)).
Proof.
  intros Hrun. unfold eventrouter.Running in Hrun.
  unfold eventrouter.AddHandler, eventrouter.AddNoPublisherHandler,
    message.Router_AddHandler, message.Router_AddNoPublisherHandler.
  rewrite Hrun.
  destruct (message.name_taken handlerName (eventrouter.router r)).
  - split; [discriminate |]. split; [now split |]. split; discriminate.
  - split; [now split |]. split; [discriminate |]. split; discriminate.
Qed.

Lemma registration_when_not_running_witness :
  eventrouter.Running sample.fresh_router = false /\
  message.name_taken "order_processor" (eventrouter.router sample.fresh_router) = false /\
  exists once : eventrouter.messageRouter,
    eventrouter.AddHandler "order_processor" "orders.created" "orders.processed"
      sample.subscriber sample.publisher sample.mark sample.fresh_router
    = Some (once, None) /\
    message.reg_name <$> message.handlers (eventrouter.router once)
    = ["order_processor"].
Proof.
  split; [reflexivity |]. split; [reflexivity |].
  eexists. split.
  - apply (proj1 (registration_when_not_running sample.fresh_router "order_processor"
                    "orders.created" "orders.processed" sample.subscriber
                    sample.publisher sample.mark eq_refl)).
    reflexivity.
  - reflexivity.
Defined.

(** What [publish_each] does with the one message of a pass-through. *)
Lemma publish_each_one (p : message.Publisher) (topic : string) (msg : ptr) (w : World) :
  message.publish_each p topic [msg] w = message.pub_Publish p topic msg w.
Proof.
  cbn [message.publish_each]. unfold bind.
  destruct (message.pub_Publish p topic msg w) as [[e |] w' |]; reflexivity.
Qed.

(** C3: a registration in transform mode on a router that is not running
    (the handler name being free) puts one entry on the router beneath,
    bound to the subscribe topic, the publish topic and the publisher
    given.  When the bound handler returns success on a received envelope,
    the handler function of that entry returns the singleton list of the
    received message, the same pointer, in the world the handler left;
    and the engine, with no middleware in between, then publishes that
    very envelope, with the handler's in-place changes, to the publish
    topic. *)
Theorem relay_success_passes_message_through
    (r : eventrouter.messageRouter)
    (handlerName subscribeTopic publishTopic : string)
    (subscriber : message.Subscriber) (publisher : message.Publisher)
    (handler : eventrouter.MessageHandler) :
  eventrouter.Running r = false ->
  message.name_taken handlerName (eventrouter.router r) = false ->
  exists (r' : eventrouter.messageRouter) (g : message.HandlerRegistration),
    eventrouter.AddHandler handlerName subscribeTopic publishTopic subscriber publisher
      handler r = Some (r', None) /\
    message.handlers (eventrouter.router r')
    = message.handlers (eventrouter.router r) ++ [g] /\
    message.middlewares (eventrouter.router r')
    = message.middlewares (eventrouter.router r) /\
    message.reg_name g = handlerName /\
    message.reg_subscribeTopic g = subscribeTopic /\
    message.reg_subscriber g = subscriber /\
    message.reg_publishTopic g = publishTopic /\
    message.reg_publisher g = Some publisher /\
    forall (msg : ptr) (m : Message) (w w' : World),
      heap w !! msg = Some m ->
      handler (default Background (ctx m)) msg w = Ret None w' ->
      message.reg_handler g msg w = Ret ([msg], None) w' /\
      (message.middlewares (eventrouter.router r) = [] ->
       message.deliver (eventrouter.router r') g msg w
       = message.pub_Publish publisher publishTopic msg w').
Proof.
  intros Hrun Hfree. unfold eventrouter.Running in Hrun.
  eexists. eexists.
  split.
  { unfold eventrouter.AddHandler, message.Router_AddHandler.
    rewrite Hrun, Hfree. reflexivity. }
  cbn [eventrouter.with_router eventrouter.router message.AddHandler message.handlers
       message.middlewares].
  split; [reflexivity |]. split; [reflexivity |].
  cbn [message.reg_name message.reg_subscribeTopic message.reg_subscriber
       message.reg_publishTopic message.reg_publisher message.reg_handler].
  repeat (split; [reflexivity |]).
  intros msg m w w' Hmsg Hok.
  assert (eventrouter.AddHandler_handlerFunc handler msg w = Ret ([msg], None) w') as Hf.
  { unfold eventrouter.AddHandler_handlerFunc, bind.
    rewrite (Message_Context_Some _ _ _ Hmsg), Hok. reflexivity. }
  split; [exact Hf |].
  intros Hmw. unfold message.deliver.
  cbn [eventrouter.with_router eventrouter.router message.AddHandler
       message.middlewares message.reg_handler message.reg_publisher
       message.reg_publishTopic].
  rewrite Hmw. cbn [message.chain fold_right]. unfold bind at 1. rewrite Hf.
  cbn [fst snd]. apply publish_each_one.
Qed.

Lemma relay_success_passes_message_through_witness :
  exists (r' : eventrouter.messageRouter) (g : message.HandlerRegistration) (w' : World),
    eventrouter.AddHandler "order_processor" "orders.created" "orders.processed"
      sample.subscriber sample.publisher sample.mark sample.fresh_router
    = Some (r', None) /\
    message.handlers (eventrouter.router r') = [g] /\
    message.reg_handler g 1%positive sample.world = Ret ([1%positive], None) w' /\
    message.deliver (eventrouter.router r') g 1%positive sample.world
    = message.pub_Publish sample.publisher "orders.processed" 1%positive w' /\
    Metadata <$> (heap w' !! 1%positive) = Some {[ "processed" := "true" ]}.
Proof.
  destruct (relay_success_passes_message_through sample.fresh_router "order_processor"
              "orders.created" "orders.processed" sample.subscriber sample.publisher
              sample.mark eq_refl eq_refl)
    as [r' [g [E [Hh [_ [_ [_ [_ [_ [_ Hrun]]]]]]]]]].
  destruct (sample.mark Background 1%positive sample.world) as [e w' |] eqn:Em;
    [| vm_compute in Em; discriminate Em].
  assert (e = None) as -> by (vm_compute in Em; now injection Em as <- _).
  destruct (Hrun 1%positive sample.order sample.world w' eq_refl Em) as [Hf Hd].
  exists r', g, w'.
  split; [exact E |]. split; [exact Hh |]. split; [exact Hf |].
  split; [apply Hd; reflexivity |].
  vm_compute in Em. injection Em as <-. vm_compute. reflexivity.
Defined.

(** C4: in transform mode the function handed to the router returns the
    nil list together with an error exactly when the handler returns that
    error; with an error no message is ever returned, so nothing reaches
    the publish topic and the error is what the router nacks on. *)
Theorem relay_failure_publishes_nothing
    (handler : eventrouter.MessageHandler) (msg : ptr) (m : Message) (w : World) :
  heap w !! msg = Some m ->
  (forall e w',
     handler (default Background (ctx m)) msg w = Ret (Some e) w' <->
     eventrouter.AddHandler_handlerFunc handler msg w = Ret ([], Some e) w') /\
  (forall out e w',
     eventrouter.AddHandler_handlerFunc handler msg w = Ret (out, Some e) w' ->
     out = []).
Proof.
  intros Hmsg. unfold eventrouter.AddHandler_handlerFunc, bind.
  rewrite (Message_Context_Some _ _ _ Hmsg).
  destruct (handler (default Background (ctx m)) msg w) as [[e0|] w0|]; cbn.
  - split.
    + intros e w'. split; intros E; inversion E; subst; reflexivity.
    + intros out e w' E. inversion E. reflexivity.
  - split.
    + intros e w'. split; intros E; inversion E.
    + intros out e w' E. inversion E.
  - split.
    + intros e w'. split; intros E; inversion E.
    + intros out e w' E. inversion E.
Qed.

Lemma relay_failure_publishes_nothing_witness :
  eventrouter.AddHandler_handlerFunc sample.failing 1%positive sample.world
  = Ret ([], Some (Foreign "invalid order")) sample.world.
Proof.
  apply (proj1 (relay_failure_publishes_nothing sample.failing 1%positive sample.order
                  sample.world eq_refl)
           (Foreign "invalid order") sample.world).
  reflexivity.
Defined.

(** C9: [Publish] of [messagePublisher] never looks at its context: with
    any two contexts the same log line is written, the wrapped transport
    gets the same call and the caller the same result. *)
Theorem Publish_ignores_context
    (p : eventrouter.messagePublisher) (c1 c2 : Context) (topic : string)
    (msg : ptr) (w : World) :
  eventrouter.Publish p c1 topic msg w = eventrouter.Publish p c2 topic msg w.
Proof. reflexivity. Qed.

(** C8: [Close] on a router that [Run] has not started returns nil and
    leaves the router as it was; after [Close] the router is not running,
    whatever its state was (no consumption loop is left open); and [Run]
    on a closed router fails with an error and leaves it closed. *)
Theorem Close_before_Run_and_Run_after_Close :
  (forall (r : eventrouter.messageRouter) (timeouted : bool) (w : World),
     message.lifecycle (eventrouter.router r) = message.Created \/
     message.lifecycle (eventrouter.router r) = message.Configured ->
     exists w', eventrouter.Close timeouted r w = Ret (r, None) w' /\
                heap w' = heap w /\ clock w' = clock w) /\
  (forall (r : eventrouter.messageRouter) (timeouted : bool) (w : World),
     exists r' err w', eventrouter.Close timeouted r w = Ret (r', err) w' /\
                       eventrouter.Running r' = false) /\
  (forall (r : eventrouter.messageRouter) (c : Context) (w : World),
     message.lifecycle (eventrouter.router r) = message.Closed ->
     exists e w', eventrouter.Run c r w
                  = Ret (r, Some (WrapAsIs e "router run failed" [])) w' /\
                  eventrouter.Running r = false).
Proof.
  split; [| split].
  - intros r timeouted w Hl.
    unfold eventrouter.Close, message.Close, bind, eventrouter.Info, emit, ret.
    destruct Hl as [Hl | Hl]; rewrite Hl; cbn; rewrite with_router_same;
      eexists; (split; [reflexivity | split; reflexivity]).
  - intros r timeouted w.
    unfold eventrouter.Close, message.Close, bind, eventrouter.Info, emit, ret,
      eventrouter.Running, message.IsRunning.
    destruct r as [wm lg cf]; cbn.
    destruct wm as [rc hs ms ps l]; cbn.
    destruct l, timeouted; cbn; do 3 eexists; split; reflexivity.
  - intros r c w Hl.
    unfold eventrouter.Run, message.Run, message.Run_start, bind, eventrouter.Info,
      emit, ret, eventrouter.Running, message.IsRunning.
    rewrite Hl; cbn. rewrite with_router_same.
    do 2 eexists; split; reflexivity.
Qed.

Lemma Close_before_Run_and_Run_after_Close_witness :
  (exists w', eventrouter.Close false sample.fresh_router sample.world
              = Ret (sample.fresh_router, None) w') /\
  (exists e w', eventrouter.Run Background sample.closed_router sample.world
                = Ret (sample.closed_router,
                       Some (WrapAsIs e "router run failed" [])) w').
Proof.
  destruct Close_before_Run_and_Run_after_Close as [Hclose [_ Hrun]].
  split.
  - destruct (Hclose sample.fresh_router false sample.world (or_introl eq_refl))
      as [w' [E _]].
    exists w'. exact E.
  - destruct (Hrun sample.closed_router Background sample.world eq_refl)
      as [e [w' [E _]]].
    exists e, w'. exact E.
Defined.


(* ================================================================== *)
(** * Properties of the CQRS bus *)
(* ================================================================== *)

Section bus.
Context `{GoRuntime}.

Lemma append_empty_r (s : string) : s +:+ EmptyString = s.
Proof.
  induction s as [| a s IH]; [reflexivity |].
  change (String a (s +:+ EmptyString) = String a s). now rewrite IH.
Qed.

Lemma generateCommandTopic_eq (n : string) :
  messaging.generateCommandTopic n = "commands." +:+ n.
Proof.
  unfold messaging.generateCommandTopic, fmt.Sprintf. cbn.
  now rewrite append_empty_r.
Qed.

Lemma generateEventTopic_eq (n : string) :
  messaging.generateEventTopic n = "events." +:+ n.
Proof.
  unfold messaging.generateEventTopic, fmt.Sprintf. cbn.
  now rewrite append_empty_r.
Qed.

Lemma Metadata_Set_Some (msg : ptr) (k v : string) (w : World) (m : Message) :
  heap w !! msg = Some m ->
  message.Metadata_Set msg k v w
  = Ret tt (mkWorld (<[msg := mkMessage (UUID m) (<[k := v]> (Metadata m))
                                (Payload m) (ctx m)]> (heap w))
              (clock w) (logs w)).
Proof.
  intros E. unfold message.Metadata_Set, bind. now rewrite (load_Some _ _ _ E).
Qed.

Lemma Message_SetContext_Some (msg : ptr) (c : Context) (w : World) (m : Message) :
  heap w !! msg = Some m ->
  message.Message_SetContext msg c w
  = Ret tt (mkWorld (<[msg := mkMessage (UUID m) (Metadata m) (Payload m) (Some c)]>
                       (heap w))
              (clock w) (logs w)).
Proof.
  intros E. unfold message.Message_SetContext, bind. now rewrite (load_Some _ _ _ E).
Qed.

(** What a stamping hook does to a world that holds the message: one log
    line, one metadata entry with the time of the clock, and nil. *)
Lemma stamp_hook (msg : ptr) (w : World) (m : Message) (text key : string)
    (fields : list Attr) :
  heap w !! msg = Some m ->
  (let! c := message.Message_Context msg in
   logger.Info c text fields ;!
   let! t := time_Now in
   message.Metadata_Set msg key (Time_String t) ;!
   ret None) w
  = Ret (@None error)
      (mkWorld (<[msg := mkMessage (UUID m)
                           (<[key := Time_String (clock w)]> (Metadata m))
                           (Payload m) (ctx m)]> (heap w))
         (clock w)
         (logs w ++ [mkLogEntry None LevelInfo text fields])).
Proof.
  intros E. unfold bind at 1. rewrite (Message_Context_Some _ _ _ E).
  unfold bind, logger.Info, emit, time_Now. cbn.
  erewrite Metadata_Set_Some by (cbn; exact E). reflexivity.
Qed.

(** C5: the default naming strategy maps a command name [n] to
    ["commands." ++ n] and an event name [n] to ["events." ++ n], on the
    publishing and on the subscribing side alike; ["CreateOrder"] gives
    ["commands.CreateOrder"] and ["OrderCreated"] gives
    ["events.OrderCreated"].  The topic is this function of the name and of
    nothing else, so the same name always gives the same topic. *)
Theorem default_topic_naming :
  (forall n : string, messaging.generateCommandTopic n = "commands." +:+ n) /\
  (forall n : string, messaging.generateEventTopic n = "events." +:+ n) /\
  messaging.generateCommandTopic "CreateOrder" = "commands.CreateOrder" /\
  messaging.generateEventTopic "OrderCreated" = "events.OrderCreated" /\
  (forall params,
     messaging.commandBus_GeneratePublishTopic params
     = ("commands." +:+ cqrs.cbt_CommandName params, None)) /\
  (forall params,
     messaging.commandProcessor_GenerateSubscribeTopic params
     = ("commands." +:+ cqrs.cpt_CommandName params, None)) /\
  (forall params,
     messaging.eventBus_GeneratePublishTopic params
     = ("events." +:+ cqrs.ebt_EventName params, None)) /\
  (forall params,
     messaging.eventProcessor_GenerateSubscribeTopic params
     = ("events." +:+ cqrs.ept_EventName params, None)).
Proof.
  repeat split; try reflexivity.
  - apply generateCommandTopic_eq.
  - apply generateEventTopic_eq.
  - intros params. unfold messaging.commandBus_GeneratePublishTopic.
    now rewrite generateCommandTopic_eq.
  - intros params. unfold messaging.commandProcessor_GenerateSubscribeTopic.
    now rewrite generateCommandTopic_eq.
  - intros params. unfold messaging.eventBus_GeneratePublishTopic.
    now rewrite generateEventTopic_eq.
  - intros params. unfold messaging.eventProcessor_GenerateSubscribeTopic.
    now rewrite generateEventTopic_eq.
Qed.

(** In the pipeline of a received command the post-handle hook of
    [NewBus] is transparent: with it the processor returns the error it
    would return without any hook. *)
Lemma OnHandle_transparent (cfg : messaging.Config) (l : Logger)
    (h : cqrs.CommandHandler) (n : string) (msg : ptr) (w : World) :
  let hooked := messaging.commandProcessorConfig cfg l in
  let plain := cqrs.mkCommandProcessorConfig (cqrs.cp_GenerateSubscribeTopic hooked)
                 (cqrs.cp_SubscriberConstructor hooked) (cqrs.cp_Marshaler hooked)
                 (cqrs.cp_Logger hooked) None in
  match cqrs.command_handlerFunc plain h n msg w with
  | Ret e w1 =>
      is_Some (heap w1 !! msg) ->
      exists w2, cqrs.command_handlerFunc hooked h n msg w = Ret e w2
  | Panic => cqrs.command_handlerFunc hooked h n msg w = Panic
  end.
Proof.
  cbn zeta. unfold cqrs.command_handlerFunc.
  cbn [cqrs.cp_OnHandle messaging.commandProcessorConfig].
  unfold bind, load. cbn beta.
  destruct (heap w !! msg) as [m |] eqn:E; [| reflexivity].
  destruct (json_Unmarshal (Payload m)) as [cmd | err].
  - unfold messaging.commandProcessor_OnHandle, bind, time_Now.
    cbn [cqrs.cph_Message cqrs.cph_Handler cqrs.cph_Command cqrs.cph_CommandName].
    rewrite (Message_Context_Some _ _ _ E).
    destruct (cqrs.ch_Handle h (default Background (ctx m)) cmd w) as [e w1 |];
      [| reflexivity].
    intros [m1 E1]. rewrite (Message_Context_Some _ _ _ E1). cbn. eexists. reflexivity.
  - cbn. intros _. eexists. reflexivity.
Qed.

(** C2: when a command handler is registered for the name [n],
    [RegisterCommandHandler n h2] returns the duplicate-registration error
    and the bus is as before: the registry still maps [n] to the first
    handler. *)
Theorem RegisterCommandHandler_duplicate
    (b : messaging.cqrsBus) (n : string) (h1 : cqrs.CommandHandler)
    (h2 : messaging.CommandHandler) :
  cqrs.command_handler_for n (messaging.commandProcessor b) = Some h1 ->
  messaging.RegisterCommandHandler n h2 b
  = (b, Some (Foreign ("command handler already registered: " +:+ n))) /\
  cqrs.command_handler_for n
    (messaging.commandProcessor (fst (messaging.RegisterCommandHandler n h2 b)))
  = Some h1.
Proof.
  intros Hreg.
  assert (messaging.RegisterCommandHandler n h2 b
          = (b, Some (Foreign ("command handler already registered: " +:+ n)))) as E.
  { unfold messaging.RegisterCommandHandler, cqrs.CommandProcessor_AddHandler,
      cqrs.NewCommandHandler.
    cbn [cqrs.ch_HandlerName]. rewrite Hreg. now destruct b. }
  split; [exact E |]. rewrite E. exact Hreg.
Qed.

(** C6: the hooks leave the outcome alone.  [OnSend] and [OnPublish]
    return nil on every envelope; [OnHandle], for commands and for events,
    returns the very error [e] (nil included) that the handler it wraps
    returned, and leaves the heap and the clock as the handler left them.
    So a handle succeeds exactly when the handler does, and no publish
    fails because of its hook. *)
Theorem hooks_do_not_alter_outcome :
  (forall (params : cqrs.CommandBusOnSendParams) (w : World) (m : Message),
     heap w !! cqrs.cbs_Message params = Some m ->
     exists w', messaging.OnSend params w = Ret None w') /\
  (forall (params : cqrs.OnEventSendParams) (w : World) (m : Message),
     heap w !! cqrs.ebs_Message params = Some m ->
     exists w', messaging.OnPublish params w = Ret None w') /\
  (forall (params : cqrs.CommandProcessorOnHandleParams) (w w1 : World)
          (m m1 : Message) (e : option error),
     heap w !! cqrs.cph_Message params = Some m ->
     cqrs.ch_Handle (cqrs.cph_Handler params) (default Background (ctx m))
       (cqrs.cph_Command params) w = Ret e w1 ->
     heap w1 !! cqrs.cph_Message params = Some m1 ->
     exists w2, messaging.commandProcessor_OnHandle params w = Ret e w2 /\
                heap w2 = heap w1 /\ clock w2 = clock w1) /\
  (forall (params : cqrs.EventProcessorOnHandleParams) (w w1 : World)
          (m m1 : Message) (e : option error),
     heap w !! cqrs.eph_Message params = Some m ->
     cqrs.eh_Handle (cqrs.eph_Handler params) (default Background (ctx m))
       (cqrs.eph_Event params) w = Ret e w1 ->
     heap w1 !! cqrs.eph_Message params = Some m1 ->
     exists w2, messaging.eventProcessor_OnHandle params w = Ret e w2 /\
                heap w2 = heap w1 /\ clock w2 = clock w1).
Proof.
  split; [| split; [| split]].
  - intros params w m E. eexists. unfold messaging.OnSend.
    apply (stamp_hook _ _ _ _ _ _ E).
  - intros params w m E. eexists. unfold messaging.OnPublish.
    apply (stamp_hook _ _ _ _ _ _ E).
  - intros params w w1 m m1 e E Hh E1.
    unfold messaging.commandProcessor_OnHandle, bind, time_Now.
    rewrite (Message_Context_Some _ _ _ E), Hh, (Message_Context_Some _ _ _ E1).
    cbn. eexists. repeat split.
  - intros params w w1 m m1 e E Hh E1.
    unfold messaging.eventProcessor_OnHandle, bind, time_Now.
    rewrite (Message_Context_Some _ _ _ E), Hh, (Message_Context_Some _ _ _ E1).
    cbn. eexists. repeat split.
Qed.

(** C7: on a bus that [NewBus] built, [PublishCommand] of a value that
    serializes puts the serialization into the payload of a new envelope,
    has the pre-send hook stamp ["sent_at"] with the time of the clock on
    it, and then hands that envelope to the publisher of the configuration
    on the topic that the command naming strategy gives for the value's
    name; the result of the call is the publisher's.  A value that does
    not serialize ends the call with the encoding error, nothing sent. *)
Theorem PublishCommand_stamps_and_publishes
    (cfg : messaging.Config) (b : messaging.cqrsBus) (c : Context) (cmd : Value)
    (w : World) :
  messaging.NewBus cfg = inl b ->
  (forall payload : list Byte.byte,
     json_Marshal cmd = inl payload ->
     exists (msg : ptr) (m : Message) (w1 : World),
       messaging.PublishCommand b c cmd w
       = message.pub_Publish (messaging.cfg_Publisher cfg)
           (messaging.generateCommandTopic (StructName cmd)) msg w1 /\
       messaging.generateCommandTopic (StructName cmd)
       = "commands." +:+ StructName cmd /\
       heap w !! msg = None /\
       heap w1 !! msg = Some m /\
       Payload m = payload /\
       Metadata m !! "sent_at" = Some (Time_String (clock w))) /\
  (forall err : error,
     json_Marshal cmd = inr err ->
     messaging.PublishCommand b c cmd w = Ret (Some err) w).
Proof.
  intros Hb.
  assert (messaging.commandBus b
          = cqrs.mkCommandBus (messaging.cfg_Publisher cfg)
              (messaging.commandBusConfig
                 (default slog_Default (messaging.cfg_Logger cfg)))) as Hbus.
  { unfold messaging.NewBus in Hb.
    destruct cfg as [pu su [lg |]]; cbn in Hb; inversion Hb; reflexivity. }
  split.
  - intros payload Hjson.
    set (p := fresh (dom (heap w))).
    assert (heap w !! p = None) as Hfresh.
    { apply not_elem_of_dom. apply is_fresh. }
    exists p. eexists. eexists.
    split; [| split; [| split; [exact Hfresh | split; [| split]]]].
    + unfold messaging.PublishCommand, cqrs.Send. rewrite Hbus.
      cbn [cqrs.cb_config cqrs.cb_publisher messaging.commandBusConfig
           cqrs.cb_Marshaler cqrs.cb_GeneratePublishTopic cqrs.cb_OnSend].
      unfold cqrs.Marshal. rewrite Hjson.
      unfold bind at 1. unfold bind at 1. unfold cqrs.NewMessage. fold p.
      cbn [ret]. unfold messaging.commandBus_GeneratePublishTopic.
      cbn [cqrs.cbt_CommandName cqrs.Name messaging.marshaler_of_NewBus
           cqrs.GenerateName].
      unfold bind at 1.
      erewrite Message_SetContext_Some by (cbn [heap]; apply lookup_insert_eq).
      cbn [heap clock logs]. unfold bind at 1. unfold messaging.OnSend.
      cbn [cqrs.cbs_Message cqrs.cbs_CommandName].
      erewrite stamp_hook by (cbn [heap]; apply lookup_insert_eq).
      cbn [heap clock logs UUID Metadata Payload ctx].
      reflexivity.
    + apply generateCommandTopic_eq.
    + cbn [heap]. apply lookup_insert_eq.
    + reflexivity.
    + cbn [Metadata]. apply lookup_insert_eq.
  - intros err Hjson.
    unfold messaging.PublishCommand, cqrs.Send. rewrite Hbus.
    cbn [cqrs.cb_config cqrs.cb_Marshaler messaging.commandBusConfig].
    unfold cqrs.Marshal. rewrite Hjson. reflexivity.
Qed.

End bus.

Example PublishCommand_of_a_value_that_does_not_serialize :
  match @messaging.NewBus sample.runtime sample.config with
  | inl b =>
      messaging.PublishCommand b Background sample.Channel sample.world
      = Ret (Some (Foreign "json: unsupported type")) sample.world
  | inr _ => False
  end.
Proof. reflexivity. Qed.

Example RegisterCommandHandler_binds_the_command_topic :
  match @messaging.NewBus sample.runtime sample.config with
  | inl b =>
      let b1 := fst (messaging.RegisterCommandHandler "CreateOrder"
                       sample.first_handler b) in
      cqrs.creg_topic <$> cqrs.cp_handlers (messaging.commandProcessor b1)
      = ["commands.CreateOrder"] /\
      message.reg_subscribeTopic <$> message.handlers (messaging.router b1)
      = ["commands.CreateOrder"]
  | inr _ => False
  end.
Proof. vm_compute. split; reflexivity. Qed.

Example RegisterEventHandler_accumulates :
  match @messaging.NewBus sample.runtime sample.config with
  | inl b =>
      let b1 := fst (messaging.RegisterEventHandler "OrderCreated"
                       sample.first_handler b) in
      let b2 := messaging.RegisterEventHandler "OrderCreated" sample.second_handler b1 in
      snd b2 = None /\
      cqrs.ereg_topic <$> cqrs.ep_handlers (messaging.eventProcessor (fst b2))
      = ["events.OrderCreated"; "events.OrderCreated"]
  | inr _ => False
  end.
Proof. vm_compute. split; reflexivity. Qed.

Lemma RegisterCommandHandler_duplicate_witness :
  exists b0 : @messaging.cqrsBus sample.runtime,
    @messaging.NewBus sample.runtime sample.config = inl b0 /\
    let b1 := fst (messaging.RegisterCommandHandler "CreateOrder"
                     sample.first_handler b0) in
    snd (messaging.RegisterCommandHandler "CreateOrder" sample.first_handler b0)
    = None /\
    messaging.RegisterCommandHandler "CreateOrder" sample.second_handler b1
    = (b1, Some (Foreign "command handler already registered: CreateOrder")) /\
    cqrs.command_handler_for "CreateOrder"
      (messaging.commandProcessor
         (fst (messaging.RegisterCommandHandler "CreateOrder"
                 sample.second_handler b1)))
    = Some (cqrs.NewCommandHandler "CreateOrder" sample.first_handler).
Proof.
  eexists. split; [reflexivity |].
  intros b1. split; [reflexivity |].
  apply (@RegisterCommandHandler_duplicate sample.runtime b1 "CreateOrder"
           (cqrs.NewCommandHandler "CreateOrder" sample.first_handler)
           sample.second_handler).
  reflexivity.
Defined.

Lemma hooks_do_not_alter_outcome_witness :
  (exists w',
     @messaging.OnSend sample.runtime
       (@cqrs.mkCommandBusOnSendParams sample.runtime "CreateOrder"
          sample.CreateOrder 1%positive) sample.world
     = Ret None w') /\
  (exists w2,
     @messaging.commandProcessor_OnHandle sample.runtime
       (@cqrs.mkCommandProcessorOnHandleParams sample.runtime
          (cqrs.NewCommandHandler "CreateOrder" sample.second_handler)
          "CreateOrder" sample.CreateOrder 1%positive) sample.world
     = Ret (Some (Foreign "second")) w2).
Proof.
  destruct (@hooks_do_not_alter_outcome sample.runtime) as [Hsend [_ [Hhandle _]]].
  split.
  - apply (Hsend (@cqrs.mkCommandBusOnSendParams sample.runtime "CreateOrder"
                    sample.CreateOrder 1%positive) sample.world sample.order).
    reflexivity.
  - destruct (Hhandle (@cqrs.mkCommandProcessorOnHandleParams sample.runtime
                         (cqrs.NewCommandHandler "CreateOrder" sample.second_handler)
                         "CreateOrder" sample.CreateOrder 1%positive)
                sample.world sample.world sample.order sample.order
                (Some (Foreign "second")) eq_refl eq_refl eq_refl) as [w2 [E _]].
    exists w2. exact E.
Defined.

Lemma PublishCommand_stamps_and_publishes_witness :
  exists (b : @messaging.cqrsBus sample.runtime) (msg : ptr) (m : Message) (w1 : World),
    @messaging.NewBus sample.runtime sample.config = inl b /\
    messaging.PublishCommand b Background sample.CreateOrder sample.world
    = message.pub_Publish sample.publisher
        (@messaging.generateCommandTopic "CreateOrder") msg w1 /\
    heap w1 !! msg = Some m /\
    Payload m = [Byte.x7b; Byte.x7d] /\
    Metadata m !! "sent_at" = Some "t100".
Proof.
  eexists.
  destruct (proj1 (@PublishCommand_stamps_and_publishes sample.runtime sample.config _
                     Background sample.CreateOrder sample.world eq_refl)
              [Byte.x7b; Byte.x7d] eq_refl)
    as [msg [m [w1 [E [_ [_ [Hm [Hp Hs]]]]]]]].
  exists msg, m, w1.
  split; [reflexivity |].
  split; [exact E |].
  split; [exact Hm |].
  split; [exact Hp | exact Hs].
Defined.

(* ================================================================== *)
(** * Properties of the mail package *)
(* ================================================================== *)

Section regexp_facts.

Implicit Types (r : regexp.Regexp) (s : list ascii) (c : ascii).

Lemma nullable_Lang r : regexp.nullable r = true <-> regexp.Lang r [].
Proof.
  induction r as [| | a | rs | r1 IH1 r2 IH2 | r1 IH1 r2 IH2 | r1 IH1]; cbn.
  - split; [discriminate | intros L; inversion L].
  - split; [constructor | reflexivity].
  - split; [discriminate | intros L; inversion L].
  - split; [discriminate | intros L; inversion L].
  - rewrite andb_true_iff, IH1, IH2. split.
    + intros [L1 L2]. exact (regexp.Lang_Concat _ _ [] [] L1 L2).
    + intros L. remember [] as t eqn:Et.
      inversion L as [| | | ? ? s1 s2 L1 L2 | | | |]; subst.
      destruct s1; [| discriminate]. destruct s2; [| discriminate]. now split.
  - rewrite orb_true_iff, IH1, IH2. split.
    + intros [L | L]; [now apply regexp.Lang_Alternate_l | now apply regexp.Lang_Alternate_r].
    + intros L. inversion L; subst; [now left | now right].
  - split; [constructor | reflexivity].
Qed.

(** A non-empty text of [r*] starts with a non-empty text of [r]. *)
Lemma Lang_Star_cons r c s :
  regexp.Lang (regexp.Star r) (c :: s) ->
  exists s1 s2, s = s1 ++ s2 /\ regexp.Lang r (c :: s1) /\ regexp.Lang (regexp.Star r) s2.
Proof.
  intros L. remember (regexp.Star r) as r' eqn:Er. remember (c :: s) as t eqn:Et.
  induction L as [| | | | | | | r0 s1 s2 L1 _ L2 IH2]; try discriminate.
  injection Er as ->.
  destruct s1 as [| c1 s1].
  - cbn in Et. now apply IH2.
  - cbn in Et. injection Et as -> <-. now exists s1, s2.
Qed.

Lemma derive_Lang r c s : regexp.Lang (regexp.derive c r) s <-> regexp.Lang r (c :: s).
Proof.
  revert s.
  induction r as [| | a | rs | r1 IH1 r2 IH2 | r1 IH1 r2 IH2 | r1 IH1]; intros s; cbn.
  - split; intros L; inversion L.
  - split; intros L; inversion L.
  - destruct (Ascii.eqb a c) eqn:E.
    + apply Ascii.eqb_eq in E as ->. split; intros L; inversion L; subst; constructor.
    + apply Ascii.eqb_neq in E. split; intros L; inversion L; subst. congruence.
  - destruct (regexp.in_class rs c) eqn:E.
    + split; intros L; inversion L; subst; [now constructor | constructor].
    + split; intros L; inversion L; subst. congruence.
  - assert (regexp.Lang (regexp.Concat (regexp.derive c r1) r2) s ->
            regexp.Lang (regexp.Concat r1 r2) (c :: s)) as Hl.
    { intros L. inversion L as [| | | ? ? s1 s2 L1 L2 | | | |]; subst.
      apply IH1 in L1. exact (regexp.Lang_Concat _ _ (c :: s1) s2 L1 L2). }
    assert (regexp.Lang (regexp.Concat r1 r2) (c :: s) ->
            regexp.Lang (regexp.Concat (regexp.derive c r1) r2) s \/
            (regexp.Lang r1 [] /\ regexp.Lang r2 (c :: s))) as Hr.
    { intros L. remember (c :: s) as t eqn:Et.
      inversion L as [| | | ? ? s1 s2 L1 L2 | | | |]; subst.
      destruct s1 as [| c1 s1].
      - cbn in *. subst. now right.
      - cbn in *. match goal with E : _ :: _ = _ :: _ |- _ => injection E as -> <- end.
        left. apply regexp.Lang_Concat; [now apply IH1 | exact L2]. }
    destruct (regexp.nullable r1) eqn:N.
    + split.
      * intros L. inversion L; subst; [now apply Hl |].
        apply (regexp.Lang_Concat _ _ [] (c :: s)); [now apply nullable_Lang | now apply IH2].
      * intros L. destruct (Hr L) as [L' | [_ L2]].
        -- now apply regexp.Lang_Alternate_l.
        -- apply regexp.Lang_Alternate_r. now apply IH2.
    + split; [exact Hl |].
      intros L. destruct (Hr L) as [L' | [L1 _]]; [exact L' |].
      apply nullable_Lang in L1. congruence.
  - split.
    + intros L. inversion L; subst.
      * apply regexp.Lang_Alternate_l. now apply IH1.
      * apply regexp.Lang_Alternate_r. now apply IH2.
    + intros L. inversion L; subst.
      * apply regexp.Lang_Alternate_l. now apply IH1.
      * apply regexp.Lang_Alternate_r. now apply IH2.
  - split.
    + intros L. inversion L as [| | | ? ? s1 s2 L1 L2 | | | |]; subst.
      apply IH1 in L1. exact (regexp.Lang_Star_app _ (c :: s1) s2 L1 L2).
    + intros L. destruct (Lang_Star_cons _ _ _ L) as [s1 [s2 [-> [L1 L2]]]].
      apply regexp.Lang_Concat; [now apply IH1 | exact L2].
Qed.

(** The matcher decides the language of the pattern. *)
Lemma matches_Lang r s : regexp.matches r s = true <-> regexp.Lang r s.
Proof.
  unfold regexp.matches. revert r.
  induction s as [| c s IH]; intros r; cbn.
  - apply nullable_Lang.
  - rewrite IH. apply derive_Lang.
Qed.

(** [[class]+] stands for the non-empty texts over the class. *)
Lemma Lang_Star_CharClass rs s :
  regexp.Lang (regexp.Star (regexp.CharClass rs)) s <->
  Forall (fun c => regexp.in_class rs c = true) s.
Proof.
  split.
  - intros L. remember (regexp.Star (regexp.CharClass rs)) as r eqn:Er.
    induction L as [| | | | | | | r0 s1 s2 L1 _ L2 IH2]; try discriminate.
    + constructor.
    + injection Er as ->. inversion L1; subst. constructor; [assumption | now apply IH2].
  - induction 1 as [| c s Hc _ IH].
    + constructor.
    + exact (regexp.Lang_Star_app _ [c] s (regexp.Lang_CharClass _ _ Hc) IH).
Qed.

Lemma Lang_Plus_CharClass rs s :
  regexp.Lang (regexp.Plus (regexp.CharClass rs)) s <->
  s <> [] /\ Forall (fun c => regexp.in_class rs c = true) s.
Proof.
  unfold regexp.Plus. split.
  - intros L. inversion L as [| | | ? ? s1 s2 L1 L2 | | | |]; subst.
    inversion L1; subst. split; [discriminate |].
    constructor; [assumption | now apply Lang_Star_CharClass].
  - intros [Hne Hall]. destruct s as [| c s]; [congruence |].
    inversion Hall as [| ? ? Hc Hs]; subst.
    exact (regexp.Lang_Concat _ _ [c] s (regexp.Lang_CharClass _ _ Hc)
             (proj2 (Lang_Star_CharClass _ _) Hs)).
Qed.

Lemma Lang_AtLeast2_CharClass rs s :
  regexp.Lang (regexp.AtLeast2 (regexp.CharClass rs)) s <->
  2 <= length s /\ Forall (fun c => regexp.in_class rs c = true) s.
Proof.
  unfold regexp.AtLeast2. split.
  - intros L. inversion L as [| | | ? ? s1 s2 L1 L2 | | | |]; subst.
    inversion L2 as [| | | ? ? s3 s4 L3 L4 | | | |]; subst.
    inversion L1; subst. inversion L3; subst. cbn. split; [lia |].
    constructor; [assumption |]. constructor; [assumption |].
    now apply Lang_Star_CharClass.
  - intros [Hlen Hall]. destruct s as [| c1 [| c2 s]]; cbn in Hlen; try lia.
    inversion Hall as [| ? ? H1 Hall']; subst. inversion Hall' as [| ? ? H2 Hall'']; subst.
    apply (regexp.Lang_Concat _ _ [c1] (c2 :: s)); [now constructor |].
    apply (regexp.Lang_Concat _ _ [c2] s); [now constructor |].
    now apply Lang_Star_CharClass.
Qed.

End regexp_facts.

Section validation.

Implicit Types (s : list ascii) (c : ascii).

Lemma domain_class_in_local_class c :
  regexp.in_class mail.domain_class c = true -> regexp.in_class mail.local_class c = true.
Proof.
  unfold regexp.in_class, mail.domain_class, mail.local_class. cbn [existsb].
  rewrite !orb_true_iff. tauto.
Qed.

Lemma letter_class_in_local_class c :
  regexp.in_class mail.letter_class c = true -> regexp.in_class mail.local_class c = true.
Proof.
  unfold regexp.in_class, mail.letter_class, mail.local_class. cbn [existsb].
  rewrite !orb_true_iff. tauto.
Qed.

Lemma local_class_no_at s :
  Forall (fun c => regexp.in_class mail.local_class c = true) s ->
  count_occ ascii_dec s "@"%char = 0.
Proof.
  induction 1 as [| c s Hc _ IH]; [reflexivity |].
  cbn [count_occ]. destruct (ascii_dec c "@"%char) as [-> | _]; [| exact IH].
  vm_compute in Hc. discriminate.
Qed.

Lemma length_list_ascii_of_string (t : string) :
  length (list_ascii_of_string t) = String.length t.
Proof. induction t as [| a t IH]; cbn; [reflexivity | now rewrite IH]. Qed.

Lemma isValidEmailFormat_Lang (email : string) :
  mail.isValidEmailFormat email = true <->
  exists local domain tld : list ascii,
    list_ascii_of_string email = local ++ "@"%char :: domain ++ "."%char :: tld /\
    (local <> [] /\ Forall (fun c => regexp.in_class mail.local_class c = true) local) /\
    (domain <> [] /\ Forall (fun c => regexp.in_class mail.domain_class c = true) domain) /\
    (2 <= length tld /\ Forall (fun c => regexp.in_class mail.letter_class c = true) tld).
Proof.
  unfold mail.isValidEmailFormat, regexp.MatchString, mail.emailRegex.
  rewrite matches_Lang. split.
  - intros L.
    inversion L as [| | | ? ? local t1 Hlocal L1 | | | |]; subst.
    inversion L1 as [| | | ? ? at_ t2 Hat L2 | | | |]; subst.
    inversion L2 as [| | | ? ? domain t3 Hdomain L3 | | | |]; subst.
    inversion L3 as [| | | ? ? dot tld Hdot Htld | | | |]; subst.
    inversion Hat; subst. inversion Hdot; subst.
    exists local, domain, tld. split; [reflexivity |].
    split; [now apply Lang_Plus_CharClass |].
    split; [now apply Lang_Plus_CharClass | now apply Lang_AtLeast2_CharClass].
  - intros [local [domain [tld [-> [Hlocal [Hdomain Htld]]]]]].
    apply regexp.Lang_Concat; [now apply Lang_Plus_CharClass |].
    apply (regexp.Lang_Concat _ _ ["@"%char]); [constructor |].
    apply regexp.Lang_Concat; [now apply Lang_Plus_CharClass |].
    apply (regexp.Lang_Concat _ _ ["."%char]); [constructor |].
    now apply Lang_AtLeast2_CharClass.
Qed.

(** X1: [ValidateEmail] never returns an error and says yes exactly for the
    addresses [local@domain.tld] with a non-empty local part over
    [a-zA-Z0-9._%+-], a non-empty domain over [a-zA-Z0-9.-] and at least
    two letters after the last separating dot; the deliverability flag
    changes nothing. *)
Theorem ValidateEmail_accepts_exactly
    (p : mail.smtpProvider) (c : Context) (email : string) (checkDeliverability : bool) :
  snd (mail.ValidateEmail p c email checkDeliverability) = None /\
  mail.ValidateEmail p c email checkDeliverability
  = mail.ValidateEmail p c email (negb checkDeliverability) /\
  (fst (mail.ValidateEmail p c email checkDeliverability) = true <->
   exists local domain tld : list ascii,
     list_ascii_of_string email = local ++ "@"%char :: domain ++ "."%char :: tld /\
     (local <> [] /\ Forall (fun c => regexp.in_class mail.local_class c = true) local) /\
     (domain <> [] /\ Forall (fun c => regexp.in_class mail.domain_class c = true) domain) /\
     (2 <= length tld /\ Forall (fun c => regexp.in_class mail.letter_class c = true) tld)).
Proof.
  rewrite <- isValidEmailFormat_Lang. unfold mail.ValidateEmail.
  destruct (mail.isValidEmailFormat email), checkDeliverability; cbn;
    repeat split; congruence.
Qed.

(** X2: an address that [isValidEmailFormat] accepts has exactly one [@],
    at least six bytes, and no byte outside [a-zA-Z0-9._%+-] and [@]: no
    blank, no control character, no line break, no byte beyond ASCII. *)
Theorem valid_email_is_one_safe_token (email : string) :
  mail.isValidEmailFormat email = true ->
  count_occ ascii_dec (list_ascii_of_string email) "@"%char = 1 /\
  6 <= String.length email /\
  Forall (fun c => c = "@"%char \/ regexp.in_class mail.local_class c = true)
    (list_ascii_of_string email).
Proof.
  intros Hv. apply isValidEmailFormat_Lang in Hv
    as [local [domain [tld [E [[Hl1 Hl2] [[Hd1 Hd2] [Ht1 Ht2]]]]]]].
  assert (Forall (fun c => regexp.in_class mail.local_class c = true) domain) as Hd3.
  { eapply Forall_impl; [exact Hd2 | apply domain_class_in_local_class]. }
  assert (Forall (fun c => regexp.in_class mail.local_class c = true) tld) as Ht3.
  { eapply Forall_impl; [exact Ht2 | apply letter_class_in_local_class]. }
  assert (regexp.in_class mail.local_class "."%char = true) as Hdot by reflexivity.
  split; [| split].
  - rewrite E, count_occ_app. cbn [count_occ].
    destruct (ascii_dec "@"%char "@"%char) as [_ | N]; [| congruence].
    rewrite count_occ_app. cbn [count_occ].
    destruct (ascii_dec "."%char "@"%char) as [D | _]; [discriminate D |].
    rewrite !local_class_no_at by assumption. reflexivity.
  - rewrite <- length_list_ascii_of_string, E.
    rewrite length_app. cbn [length]. rewrite length_app. cbn [length].
    destruct local; [congruence |]. destruct domain; [congruence |]. cbn [length]. lia.
  - rewrite E. apply Forall_app. split.
    + eapply Forall_impl; [exact Hl2 | intros; now right].
    + constructor; [now left |]. apply Forall_app. split.
      * eapply Forall_impl; [exact Hd3 | intros; now right].
      * constructor; [now right |].
        eapply Forall_impl; [exact Ht3 | intros; now right].
Qed.

Lemma validate_recipients_None (to : list mail.EmailAddress) :
  mail.validate_recipients to = None <->
  Forall (fun a => mail.isValidEmailFormat (mail.Email a) = true) to.
Proof.
  induction to as [| a rest IH]; cbn.
  - split; [constructor | reflexivity].
  - destruct (mail.isValidEmailFormat (mail.Email a)) eqn:E; cbn.
    + rewrite IH. split; [now constructor | intros F; now inversion F].
    + split; [discriminate | intros F; inversion F; congruence].
Qed.

Lemma eqb_EmptyString (s : string) : String.eqb s EmptyString = true <-> s = EmptyString.
Proof. apply String.eqb_eq. Qed.

(** X3: [validateEmailMessage] of the SMTP provider returns nil exactly for
    a message whose sender has a valid format, that has at least one To
    recipient, all of them of valid format, a subject, and a text or an
    HTML body. *)
Theorem validateEmailMessage_accepts_exactly (message : mail.EmailMessage) :
  mail.validateEmailMessage (Some message) = None <->
  mail.isValidEmailFormat (mail.Email (mail.From message)) = true /\
  mail.To message <> [] /\
  Forall (fun a => mail.isValidEmailFormat (mail.Email a) = true) (mail.To message) /\
  mail.Subject message <> EmptyString /\
  (mail.TextBody message <> EmptyString \/ mail.HTMLBody message <> EmptyString).
Proof.
  unfold mail.validateEmailMessage.
  destruct (String.eqb (mail.Email (mail.From message)) EmptyString) eqn:Ef.
  { apply String.eqb_eq in Ef. rewrite Ef. split; [discriminate |].
    intros [Hv _]. vm_compute in Hv. discriminate. }
  destruct (mail.isValidEmailFormat (mail.Email (mail.From message))) eqn:Ev; cbn [negb].
  2: { split; [discriminate | intros [Hv _]; discriminate]. }
  destruct (mail.To message) as [| a rest] eqn:Eto; cbn [length Nat.eqb].
  { split; [discriminate | intros [_ [Hne _]]; congruence]. }
  destruct (mail.validate_recipients (a :: rest)) as [err |] eqn:Er.
  { split; [discriminate |]. intros [_ [_ [Hall _]]].
    apply validate_recipients_None in Hall. congruence. }
  apply validate_recipients_None in Er.
  destruct (String.eqb (mail.Subject message) EmptyString) eqn:Es.
  { apply String.eqb_eq in Es. split; [discriminate | intros [_ [_ [_ [Hs _]]]]; congruence]. }
  apply String.eqb_neq in Es.
  destruct (String.eqb_spec (mail.TextBody message) EmptyString) as [Et | Et];
    destruct (String.eqb_spec (mail.HTMLBody message) EmptyString) as [Eh | Eh];
    cbn [andb].
  - split; [discriminate |]. intros [_ [_ [_ [_ [Hb | Hb]]]]]; congruence.
  - split; [intros _ | reflexivity]. repeat split; try assumption; try discriminate. now right.
  - split; [intros _ | reflexivity]. repeat split; try assumption; try discriminate. now left.
  - split; [intros _ | reflexivity]. repeat split; try assumption; try discriminate. now left.
Qed.

(** X4: when the sender is fine, [validateEmailMessage] names the first To
    recipient of invalid format in its error, whatever the subject and
    the bodies are. *)
Theorem validateEmailMessage_names_first_bad_recipient
    (message : mail.EmailMessage) (good : list mail.EmailAddress)
    (bad : mail.EmailAddress) (rest : list mail.EmailAddress) :
  mail.isValidEmailFormat (mail.Email (mail.From message)) = true ->
  mail.To message = good ++ bad :: rest ->
  Forall (fun a => mail.isValidEmailFormat (mail.Email a) = true) good ->
  mail.isValidEmailFormat (mail.Email bad) = false ->
  mail.validateEmailMessage (Some message)
  = Some (mail.New mail.ValidationCode "invalid recipient email format"
            [("email", mail.Email bad)]).
Proof.
  intros Hfrom Hto Hgood Hbad. unfold mail.validateEmailMessage.
  destruct (String.eqb (mail.Email (mail.From message)) EmptyString) eqn:Ef.
  { apply String.eqb_eq in Ef. rewrite Ef in Hfrom. vm_compute in Hfrom. discriminate. }
  rewrite Hfrom. cbn [negb]. rewrite Hto.
  assert ((length (good ++ bad :: rest) =? 0) = false) as ->.
  { rewrite length_app. cbn [length]. apply Nat.eqb_neq. lia. }
  assert (mail.validate_recipients (good ++ bad :: rest)
          = Some (mail.New mail.ValidationCode "invalid recipient email format"
                    [("email", mail.Email bad)])) as ->; [| reflexivity].
  clear Hto. induction Hgood as [| a good Ha _ IH]; cbn.
  - now rewrite Hbad.
  - now rewrite Ha.
Qed.

End validation.

Lemma valid_email_is_one_safe_token_witness :
  mail.isValidEmailFormat "user+tag@example.org" = true /\
  count_occ ascii_dec (list_ascii_of_string "user+tag@example.org") "@"%char = 1 /\
  6 <= String.length "user+tag@example.org".
Proof.
  split; [reflexivity |].
  destruct (valid_email_is_one_safe_token "user+tag@example.org" eq_refl) as [H1 [H2 _]].
  split; [exact H1 | exact H2].
Defined.

Lemma validateEmailMessage_names_first_bad_recipient_witness :
  mail.validateEmailMessage (Some outbox.mistyped)
  = Some (mail.New mail.ValidationCode "invalid recipient email format"
            [("email", "user space@example.com")]).
Proof.
  apply (validateEmailMessage_names_first_bad_recipient outbox.mistyped
           [outbox.first] outbox.malformed [outbox.second]).
  - reflexivity.
  - reflexivity.
  - constructor; [reflexivity | constructor].
  - reflexivity.
Defined.

Section smtp_facts.
Context `{mail.Runtime}.

Implicit Types (st : mail.State) (s : mail.smtpProvider).

(** The RCPT loop sends the recipients in order and stops at the first
    one the server refuses. *)
Lemma set_recipients_trace (recipients : list string) st :
  exists k : nat,
    mail.trace (snd (mail.set_recipients recipients st))
    = mail.trace st ++ List.map mail.Rcpt (take k recipients) /\
    mail.reads (snd (mail.set_recipients recipients st)) = mail.reads st /\
    (fst (mail.set_recipients recipients st) = None -> take k recipients = recipients).
Proof.
  revert st. induction recipients as [| r rest IH]; intros st.
  - exists 0. cbn. rewrite app_nil_r. repeat split.
  - cbn [mail.set_recipients]. unfold mail.io_bind, mail.call.
    destruct (mail.server (mail.trace st) (mail.Rcpt r)) as [e |] eqn:Er.
    + exists 1. cbn. repeat split. discriminate.
    + destruct (IH (mail.mkState (mail.reads st) (mail.trace st ++ [mail.Rcpt r])
                      (mail.drained st)))
        as [k [Ht [Hr Hn]]].
      exists (Datatypes.S k). cbn [take List.map]. rewrite Ht. cbn [mail.trace mail.reads] in *.
      rewrite <- app_assoc. cbn [app]. repeat split; [exact Hr |].
      intros E. now rewrite (Hn E).
Qed.

Lemma set_recipients_refused (recipients : list string) (r : string) st :
  (forall tr, mail.server tr (mail.Rcpt r) <> None) ->
  In r recipients ->
  fst (mail.set_recipients recipients st) <> None.
Proof.
  intros Hrej. revert st. induction recipients as [| r0 rest IH]; intros st Hin.
  - destruct Hin.
  - cbn [mail.set_recipients]. unfold mail.io_bind, mail.call.
    destruct (mail.server (mail.trace st) (mail.Rcpt r0)) as [e |] eqn:Er.
    + cbn. discriminate.
    + destruct Hin as [-> | Hin]; [now apply Hrej in Er |]. now apply IH.
Qed.

Lemma send_on_client_trace s (from : string) (recipients : list string)
    (content : string) st :
  exists sent : list mail.Command,
    mail.trace (snd (mail.send_on_client s from recipients content st))
    = mail.trace st ++ sent /\
    sent `prefix_of` mail.session s from recipients content /\
    mail.reads (snd (mail.send_on_client s from recipients content st)) = mail.reads st /\
    (fst (mail.send_on_client s from recipients content st) = None ->
     sent = mail.session s from recipients content) /\
    (forall r, (forall tr, mail.server tr (mail.Rcpt r) <> None) -> In r recipients ->
               fst (mail.send_on_client s from recipients content st) <> None /\
               ~ In mail.Data sent).
Proof.
  unfold mail.session.
  remember (negb (String.eqb (mail.Username (mail.config s)) EmptyString)
            && negb (String.eqb (mail.Password (mail.config s)) EmptyString))
    as creds eqn:Ecreds.
  remember (mail.Auth (mail.Username (mail.config s)) (mail.Password (mail.config s))
              (mail.Host (mail.config s))) as auth eqn:Eauth.
  assert (forall (pre : list mail.Command) st1 res st',
    mail.trace st1 = mail.trace st ++ pre -> mail.reads st1 = mail.reads st ->
    mail.io_bind (mail.call (mail.Mail from)) (fun err =>
        match err with
        | Some e => mail.io_ret (Some (mail.Wrap e mail.InternalCode "failed to set sender" []))
        | None =>
            mail.io_bind (mail.set_recipients recipients) (fun err =>
              match err with
              | Some e => mail.io_ret (Some e)
              | None =>
                  mail.io_bind (mail.call mail.Data) (fun err =>
                    match err with
                    | Some e =>
                        mail.io_ret (Some (mail.Wrap e mail.InternalCode
                                             "failed to initialize data transfer" []))
                    | None =>
                        mail.io_bind (mail.call (mail.Write content)) (fun err =>
                          match err with
                          | Some e =>
                              mail.io_bind (mail.call mail.WriterClose) (fun _ =>
                                mail.io_ret (Some (mail.Wrap e mail.InternalCode
                                                     "failed to write email content" [])))
                          | None =>
                              mail.io_bind (mail.call mail.WriterClose) (fun err =>
                                match err with
                                | Some e =>
                                    mail.io_ret (Some (mail.Wrap e mail.InternalCode
                                                         "failed to finalize email sending" []))
                                | None => mail.io_ret None
                                end)
                          end)
                    end)
              end)
        end) st1 = (res, st') ->
    let tail := [mail.Mail from] ++ List.map mail.Rcpt recipients
                ++ [mail.Data; mail.Write content; mail.WriterClose] in
    exists sent : list mail.Command,
      mail.trace st' = mail.trace st ++ sent /\
      sent `prefix_of` pre ++ tail /\
      mail.reads st' = mail.reads st /\
      (res = None -> sent = pre ++ tail) /\
      (forall r, (forall tr, mail.server tr (mail.Rcpt r) <> None) -> In r recipients ->
                 res <> None /\ (~ In mail.Data pre -> ~ In mail.Data sent))) as Hrest.
  { intros pre st1 res st' Ht Hr E. cbn zeta.
    unfold mail.io_bind at 1 in E. unfold mail.call at 1 in E.
    destruct (mail.server (mail.trace st1) (mail.Mail from)) as [e |] eqn:Em.
    { injection E as <- <-.
      exists (pre ++ [mail.Mail from]). cbn [mail.trace mail.reads].
      rewrite Ht, <- app_assoc.
      split; [reflexivity |]. split.
      { exists (List.map mail.Rcpt recipients
                 ++ [mail.Data; mail.Write content; mail.WriterClose]).
        now rewrite <- app_assoc. }
      split; [exact Hr |]. split; [discriminate |].
      intros r _ _. split; [discriminate |].
      intros Hpre Hin. apply in_app_or in Hin as [Hin | [Hin | []]]; [tauto | discriminate]. }
    unfold mail.io_bind at 1 in E.
    set (st2 := mail.mkState (mail.reads st1) (mail.trace st1 ++ [mail.Mail from])
                (mail.drained st1)) in E.
    destruct (set_recipients_trace recipients st2) as [k [Hk [Hkr Hkn]]].
    pose proof (set_recipients_refused recipients) as Href.
    specialize (fun r => Href r st2).
    destruct (mail.set_recipients recipients st2) as [res3 st3] eqn:Es.
    cbn [fst snd] in Hk, Hkr, Hkn, Href.
    assert (mail.trace st3
            = mail.trace st ++ pre ++ [mail.Mail from]
              ++ List.map mail.Rcpt (take k recipients)) as Ht3.
    { rewrite Hk. unfold st2. cbn [mail.trace]. rewrite Ht. now rewrite <- !app_assoc. }
    assert (mail.reads st3 = mail.reads st) as Hr3.
    { rewrite Hkr. unfold st2. cbn [mail.reads]. exact Hr. }
    assert (forall l, ~ In mail.Data pre ->
              ~ In mail.Data (pre ++ [mail.Mail from] ++ List.map mail.Rcpt l)) as Hnd.
    { intros l Hpre Hin. apply in_app_or in Hin as [Hin | Hin]; [tauto |].
      cbn in Hin. destruct Hin as [Hin | Hin]; [discriminate |].
      apply in_map_iff in Hin as [x [Hx _]]. discriminate. }
    destruct res3 as [e |].
    { injection E as <- <-.
      exists (pre ++ [mail.Mail from] ++ List.map mail.Rcpt (take k recipients)).
      split; [exact Ht3 |]. split.
      { exists (List.map mail.Rcpt (drop k recipients)
                 ++ [mail.Data; mail.Write content; mail.WriterClose]).
        rewrite <- !app_assoc. do 2 f_equal. rewrite app_assoc, <- map_app.
        now rewrite take_drop. }
      split; [exact Hr3 |]. split; [discriminate |].
      intros r _ _. split; [discriminate | apply Hnd]. }
    rewrite (Hkn eq_refl) in Ht3.
    assert (forall r, (forall tr, mail.server tr (mail.Rcpt r) <> None) ->
                      In r recipients -> False) as Hno.
    { intros r Hrej Hin. now apply (Href r Hrej Hin). }
    unfold mail.io_bind at 1 in E. unfold mail.call at 1 in E.
    destruct (mail.server (mail.trace st3) mail.Data) as [e |] eqn:Ed.
    { injection E as <- <-.
      exists (pre ++ [mail.Mail from] ++ List.map mail.Rcpt recipients ++ [mail.Data]).
      cbn [mail.trace mail.reads]. rewrite Ht3.
      split; [now rewrite <- !app_assoc |]. split.
      { exists [mail.Write content; mail.WriterClose]. now rewrite <- !app_assoc. }
      split; [exact Hr3 |]. split; [discriminate |].
      intros r Hrej Hin. destruct (Hno r Hrej Hin). }
    unfold mail.io_bind at 1 in E. unfold mail.call at 1 in E.
    cbn [mail.trace mail.reads] in E.
    exists (pre ++ [mail.Mail from] ++ List.map mail.Rcpt recipients
            ++ [mail.Data; mail.Write content; mail.WriterClose]).
    destruct (mail.server (mail.trace st3 ++ [mail.Data]) (mail.Write content))
      as [e |] eqn:Ew.
    { unfold mail.io_bind, mail.call, mail.io_ret in E. cbn [mail.trace mail.reads] in E.
      injection E as <- <-. cbn [mail.trace mail.reads].
      rewrite Ht3. split; [now rewrite <- !app_assoc |].
      split; [reflexivity |]. split; [exact Hr3 |]. split; [discriminate |].
      intros r Hrej Hin. destruct (Hno r Hrej Hin). }
    unfold mail.io_bind, mail.call in E. cbn [mail.trace mail.reads] in E.
    destruct (mail.server ((mail.trace st3 ++ [mail.Data]) ++ [mail.Write content])
                mail.WriterClose) as [e |] eqn:Ec;
      unfold mail.io_ret in E; injection E as <- <-; cbn [mail.trace mail.reads];
      rewrite Ht3;
      (split; [now rewrite <- !app_assoc |]);
      (split; [reflexivity |]); (split; [exact Hr3 |]);
      (split; [try discriminate; reflexivity |]);
      intros r Hrej Hin; destruct (Hno r Hrej Hin). }
  destruct (mail.send_on_client s from recipients content st) as [res st'] eqn:E.
  cbn [fst snd]. unfold mail.send_on_client in E. rewrite <- Ecreds, <- Eauth in E.
  destruct creds.
  - unfold mail.io_bind at 1 in E. unfold mail.io_bind at 1 in E.
    unfold mail.call at 1 in E.
    destruct (mail.server (mail.trace st) auth) as [e |] eqn:Ea.
    + cbn [mail.io_ret] in E. injection E as <- <-.
      exists [auth]. cbn [mail.trace mail.reads].
      split; [reflexivity |]. split.
      { eexists. cbn. reflexivity. }
      split; [reflexivity |]. split; [discriminate |].
      intros r _ _. split; [discriminate |]. intros [Hin | []]. subst auth. discriminate.
    + cbn [mail.io_ret] in E.
      destruct (Hrest [auth] (mail.mkState (mail.reads st) (mail.trace st ++ [auth])
                               (mail.drained st))
                  res st' eq_refl eq_refl E) as [sent [H1 [H2 [H3 [H4 H5]]]]].
      exists sent. split; [exact H1 |]. split; [exact H2 |]. split; [exact H3 |].
      split; [exact H4 |]. intros r Hrej Hin. destruct (H5 r Hrej Hin) as [H6 H7].
      split; [exact H6 |]. apply H7. intros [Hd | []]. subst auth. discriminate.
  - unfold mail.io_bind at 1 in E. cbn [mail.io_ret] in E.
    destruct (Hrest [] st res st' (eq_sym (app_nil_r _)) eq_refl E)
      as [sent [H1 [H2 [H3 [H4 H5]]]]].
    exists sent. split; [exact H1 |]. split; [exact H2 |]. split; [exact H3 |].
    split; [exact H4 |]. intros r Hrej Hin. destruct (H5 r Hrej Hin) as [H6 H7].
    split; [exact H6 |]. apply H7. intros [].
Qed.


Lemma run_deferred_trace (deferred : list mail.Command) st :
  mail.run_deferred deferred st
  = (tt, mail.mkState (mail.reads st) (mail.trace st ++ deferred) (mail.drained st)).
Proof.
  revert st. induction deferred as [| c rest IH]; intros st; cbn [mail.run_deferred].
  - unfold mail.io_ret. rewrite app_nil_r. now destruct st.
  - unfold mail.io_bind, mail.call. rewrite IH. cbn [mail.reads mail.trace].
    now rewrite <- app_assoc.
Qed.

(** Everything [sendViaSMTP] does to the connection: the commands sent
    are a non-empty prefix [sent] of the conversation, then the closing
    calls [closes], which depend on how far the connecting got. *)
Lemma sendViaSMTP_shape s (c : Context) (from : string) (recipients : list string)
    (content : string) st :
  exists sent closes : list mail.Command,
    mail.trace (snd (mail.sendViaSMTP s c from recipients content st))
    = mail.trace st ++ sent ++ closes /\
    sent `prefix_of` mail.conversation s from recipients content /\
    sent <> [] /\
    mail.reads (snd (mail.sendViaSMTP s c from recipients content st)) = mail.reads st /\
    (fst (mail.sendViaSMTP s c from recipients content st) = None ->
     sent = mail.conversation s from recipients content) /\
    (forall r, (forall tr, mail.server tr (mail.Rcpt r) <> None) -> In r recipients ->
               fst (mail.sendViaSMTP s c from recipients content st) <> None /\
               ~ In mail.Data sent) /\
    closes = mail.closes_owed s (mail.trace st).
Proof.
  destruct (mail.sendViaSMTP s c from recipients content st) as [res0 st0] eqn:E.
  cbn [fst snd]. unfold mail.sendViaSMTP in E. unfold mail.conversation, mail.closes_owed.
  fold (mail.address s) in E.
  set (host := mail.Host (mail.config s)) in *.
  assert (forall (pre closes : list mail.Command) st1,
            mail.trace st1 = mail.trace st ++ pre -> mail.reads st1 = mail.reads st ->
            ~ In mail.Data pre -> pre <> [] ->
            mail.io_bind (mail.send_on_client s from recipients content) (fun res =>
              mail.io_bind (mail.run_deferred closes) (fun _ => mail.io_ret res)) st1
            = (res0, st0) ->
            exists sent : list mail.Command,
              mail.trace st0 = mail.trace st ++ sent ++ closes /\
              sent `prefix_of` pre ++ mail.session s from recipients content /\
              sent <> [] /\
              mail.reads st0 = mail.reads st /\
              (res0 = None -> sent = pre ++ mail.session s from recipients content) /\
              (forall r, (forall tr, mail.server tr (mail.Rcpt r) <> None) ->
                         In r recipients -> res0 <> None /\ ~ In mail.Data sent)) as Hrest.
  { intros pre closes st1 Ht Hr Hpre Hne E1.
    destruct (send_on_client_trace s from recipients content st1)
      as [sent [H1 [H2 [H3 [H4 H5]]]]].
    unfold mail.io_bind at 1 in E1.
    destruct (mail.send_on_client s from recipients content st1) as [res st'].
    cbn [fst snd] in H1, H3, H4, H5.
    unfold mail.io_bind in E1. rewrite run_deferred_trace in E1.
    unfold mail.io_ret in E1. injection E1 as <- <-.
    cbn [mail.trace mail.reads].
    exists (pre ++ sent).
    split; [rewrite H1, Ht; now rewrite <- !app_assoc |].
    split; [now apply prefix_app |].
    split; [destruct pre; [congruence | discriminate] |].
    split; [now rewrite H3 |]. split; [intros E0; now rewrite (H4 E0) |].
    intros r Hrej Hin. destruct (H5 r Hrej Hin) as [H6 H7]. split; [exact H6 |].
    intros Hd. apply in_app_or in Hd. tauto. }
  destruct (mail.UseSSL (mail.config s)).
  - unfold mail.io_bind at 1 in E. unfold mail.call at 1 in E.
    destruct (mail.server (mail.trace st) (mail.TLSDial (mail.address s) host)) as [e |].
    { unfold mail.io_ret in E. injection E as <- <-.
      exists [mail.TLSDial (mail.address s) host], []. cbn [mail.trace mail.reads].
      split; [now rewrite app_nil_r |]. split; [eexists; cbn; reflexivity |].
      split; [discriminate |]. split; [reflexivity |]. split; [discriminate |].
      split; [| reflexivity]. intros r _ _. split; [discriminate |].
      intros [Hin | []]. discriminate. }
    unfold mail.io_bind at 1 in E. unfold mail.call at 1 in E.
    cbn [mail.trace mail.reads] in E.
    destruct (mail.server (mail.trace st ++ [mail.TLSDial (mail.address s) host])
                (mail.NewClient host)) as [e |].
    { unfold mail.io_bind in E. rewrite run_deferred_trace in E.
      unfold mail.io_ret in E. injection E as <- <-.
      exists [mail.TLSDial (mail.address s) host; mail.NewClient host], [mail.ConnClose].
      cbn [mail.trace mail.reads].
      split; [now rewrite <- !app_assoc |]. split; [eexists; cbn; reflexivity |].
      split; [discriminate |]. split; [reflexivity |]. split; [discriminate |].
      split; [| reflexivity]. intros r _ _. split; [discriminate |].
      intros [Hin | [Hin | []]]; discriminate. }
    eapply (Hrest [mail.TLSDial (mail.address s) host; mail.NewClient host] [mail.ClientClose; mail.ConnClose]) in E as [sent [H1 [H2 [H3 [H4 [H5 H6]]]]]];
      [| cbn [mail.trace]; rewrite <- ?app_assoc; reflexivity | reflexivity
       | cbn [In]; intuition discriminate | discriminate].
    exists sent, [mail.ClientClose; mail.ConnClose]. repeat (split; [assumption |]).
    reflexivity.
  - unfold mail.io_bind at 1 in E. unfold mail.call at 1 in E.
    destruct (mail.server (mail.trace st) (mail.Dial (mail.address s))) as [e |].
    { unfold mail.io_ret in E. injection E as <- <-.
      exists [mail.Dial (mail.address s)], []. cbn [mail.trace mail.reads].
      split; [now rewrite app_nil_r |].
      split; [eexists; cbn; reflexivity |].
      split; [discriminate |]. split; [reflexivity |]. split; [discriminate |].
      split; [| reflexivity]. intros r _ _. split; [discriminate |].
      intros [Hin | []]. discriminate. }
    destruct (mail.UseTLS (mail.config s)).
    + unfold mail.io_bind at 1 in E. unfold mail.call at 1 in E.
      cbn [mail.trace mail.reads] in E.
      destruct (mail.server (mail.trace st ++ [mail.Dial (mail.address s)])
                  (mail.StartTLS host)) as [e |].
      { unfold mail.io_bind, mail.call in E. unfold mail.io_ret in E.
        cbn [mail.trace mail.reads] in E. injection E as <- <-.
        exists [mail.Dial (mail.address s); mail.StartTLS host], [mail.ClientClose].
        cbn [mail.trace mail.reads].
        split; [now rewrite <- !app_assoc |]. split; [eexists; cbn; reflexivity |].
        split; [discriminate |]. split; [reflexivity |]. split; [discriminate |].
        split; [| reflexivity]. intros r _ _. split; [discriminate |].
        intros [Hin | [Hin | []]]; discriminate. }
      eapply (Hrest [mail.Dial (mail.address s); mail.StartTLS host] [mail.ClientClose]) in E as [sent [H1 [H2 [H3 [H4 [H5 H6]]]]]];
      [| cbn [mail.trace]; rewrite <- ?app_assoc; reflexivity | reflexivity
       | cbn [In]; intuition discriminate | discriminate].
      exists sent, [mail.ClientClose]. repeat (split; [assumption |]). reflexivity.
    + unfold mail.io_bind at 1 in E. cbn [mail.io_ret] in E.
      eapply (Hrest [mail.Dial (mail.address s)] [mail.ClientClose]) in E as [sent [H1 [H2 [H3 [H4 [H5 H6]]]]]];
      [| cbn [mail.trace]; rewrite <- ?app_assoc; reflexivity | reflexivity
       | cbn [In]; intuition discriminate | discriminate].
      exists sent, [mail.ClientClose]. repeat (split; [assumption |]). reflexivity.
Qed.


Lemma conversation_not_close s (from : string) (recipients : list string)
    (content : string) (cmd : mail.Command) :
  In cmd (mail.conversation s from recipients content) -> mail.is_close cmd = false.
Proof.
  unfold mail.conversation, mail.session. rewrite !in_app_iff, in_map_iff.
  destruct (mail.UseSSL (mail.config s)), (mail.UseTLS (mail.config s));
    destruct (negb (String.eqb (mail.Username (mail.config s)) EmptyString)
              && negb (String.eqb (mail.Password (mail.config s)) EmptyString));
    cbn [In]; intros Hin;
    repeat match goal with
           | Hx : _ \/ _ |- _ => destruct Hx
           | Hx : exists _, _ |- _ => destruct Hx as [? [? ?]]
           | Hx : False |- _ => destruct Hx
           end; subst; reflexivity.
Qed.

Lemma prefix_In {A : Type} (l1 l2 : list A) (x : A) :
  l1 `prefix_of` l2 -> In x l1 -> In x l2.
Proof. intros [k ->] Hin. apply in_or_app. now left. Qed.


Lemma sendViaSMTP_trace s (c : Context) (from : string)
    (recipients : list string) (content : string) st :
  exists sent : list mail.Command,
    mail.trace (snd (mail.sendViaSMTP s c from recipients content st))
    = mail.trace st ++ sent ++ mail.closes_owed s (mail.trace st) /\
    (fst (mail.sendViaSMTP s c from recipients content st) = None ->
     sent = mail.conversation s from recipients content) /\
    mail.reads (snd (mail.sendViaSMTP s c from recipients content st)) = mail.reads st.
Proof.
  destruct (sendViaSMTP_shape s c from recipients content st)
    as [sent [closes [H1 [H2 [H3 [H4 [H5 [_ H7]]]]]]]].
  exists sent. subst closes. split; [exact H1 |]. split; [exact H5 | exact H4].
Qed.

(** X5: whatever the server answers, the commands [sendViaSMTP] sends are a
    non-empty prefix of the conversation, in its order, followed by the
    closing calls it owes; none of the former is a closing call.  It
    returns nil only after the whole conversation, and it never reads
    the clock. *)
Theorem sendViaSMTP_follows_the_conversation s (c : Context) (from : string)
    (recipients : list string) (content : string) st :
  exists sent : list mail.Command,
    mail.trace (snd (mail.sendViaSMTP s c from recipients content st))
    = mail.trace st ++ sent ++ mail.closes_owed s (mail.trace st) /\
    sent `prefix_of` mail.conversation s from recipients content /\
    sent <> [] /\
    Forall (fun cmd => mail.is_close cmd = false) sent /\
    (fst (mail.sendViaSMTP s c from recipients content st) = None ->
     sent = mail.conversation s from recipients content) /\
    mail.reads (snd (mail.sendViaSMTP s c from recipients content st)) = mail.reads st.
Proof.
  destruct (sendViaSMTP_shape s c from recipients content st)
    as [sent [closes [H1 [H2 [H3 [H4 [H5 [_ H7]]]]]]]].
  exists sent. subst closes. split; [exact H1 |]. split; [exact H2 |].
  split; [exact H3 |]. split; [| split; [exact H5 | exact H4]].
  apply Forall_forall. intros cmd Hin. apply list_elem_of_In in Hin.
  eapply conversation_not_close, prefix_In; eassumption.
Qed.


(** X7: the server is only ever given what the caller configured and
    passed: an AUTH carries the configured credentials and is sent only
    when both are non-empty, STARTTLS is sent only without SSL and with
    [UseTLS], the sender is [from], every RCPT is one of [recipients] and
    the only content written is [content]. *)
Theorem sendViaSMTP_sends_only_what_it_was_given s (c : Context) (from : string)
    (recipients : list string) (content : string) st :
  exists new : list mail.Command,
    mail.trace (snd (mail.sendViaSMTP s c from recipients content st))
    = mail.trace st ++ new /\
    (forall u p h, In (mail.Auth u p h) new ->
       u = mail.Username (mail.config s) /\ p = mail.Password (mail.config s) /\
       h = mail.Host (mail.config s) /\ u <> EmptyString /\ p <> EmptyString) /\
    (forall h, In (mail.StartTLS h) new ->
       mail.UseSSL (mail.config s) = false /\ mail.UseTLS (mail.config s) = true) /\
    (forall f, In (mail.Mail f) new -> f = from) /\
    (forall r, In (mail.Rcpt r) new -> In r recipients) /\
    (forall x, In (mail.Write x) new -> x = content).
Proof.
  destruct (sendViaSMTP_shape s c from recipients content st)
    as [sent [closes [H1 [H2 [H3 [H4 [H5 [H6 H7]]]]]]]].
  exists (sent ++ closes). split; [exact H1 |].
  assert (forall cmd, In cmd closes -> mail.is_close cmd = true) as Hcl.
  { subst closes. unfold mail.closes_owed. intros cmd.
    repeat match goal with
           | |- context [if ?b then _ else _] => destruct b
           | |- context [match mail.server ?t ?x with _ => _ end] =>
               destruct (mail.server t x)
           end; cbn [In]; intuition (subst; reflexivity). }
  assert (forall cmd, In cmd (sent ++ closes) -> mail.is_close cmd = false ->
            In cmd (mail.conversation s from recipients content)) as Hconv.
  { intros cmd Hin Hnc. apply in_app_or in Hin as [Hin | Hin].
    - eapply prefix_In; eassumption.
    - apply Hcl in Hin. congruence. }
  clear H1 H2 H3 H4 H5 H6 H7 Hcl.
  unfold mail.conversation, mail.session in Hconv.
  repeat split; intros;
    match goal with
    | Hin : In ?cmd (sent ++ closes) |- _ => apply Hconv in Hin; [| reflexivity]
    end;
    rewrite !in_app_iff, in_map_iff in *;
    destruct (String.eqb_spec (mail.Username (mail.config s)) EmptyString);
    destruct (String.eqb_spec (mail.Password (mail.config s)) EmptyString);
    destruct (mail.UseSSL (mail.config s)), (mail.UseTLS (mail.config s));
    cbn [In negb andb] in *;
    repeat match goal with
           | Hx : _ \/ _ |- _ => destruct Hx
           | Hx : exists _, _ |- _ => destruct Hx as [? [? ?]]
           | Hx : False |- _ => destruct Hx
           end; try discriminate; try congruence.
Qed.

End smtp_facts.


Section smtp_provider.
Context `{mail.Runtime}.

Implicit Types (st : mail.State) (s : mail.smtpProvider) (m : mail.EmailMessage).

Lemma fold_left_snoc {A B : Type} (f : A -> B) (l : list A) (acc : list B) :
  fold_left (fun acc x => acc ++ [f x]) l acc = acc ++ List.map f l.
Proof.
  revert acc. induction l as [| x l IH]; intros acc; cbn.
  - now rewrite app_nil_r.
  - rewrite IH. now rewrite <- app_assoc.
Qed.

Lemma getAllRecipients_eq m :
  mail.getAllRecipients m
  = List.map mail.Email (mail.To m) ++ List.map mail.Email (mail.CC m)
    ++ List.map mail.Email (mail.BCC m).
Proof.
  unfold mail.getAllRecipients. rewrite !fold_left_snoc. cbn [app].
  now rewrite <- app_assoc.
Qed.

(** Where [reading] meets a nil reader, an attachment has one. *)
Lemma reading_NilReader (before : list mail.Reader) (attachments : list mail.Attachment) :
  mail.reading before attachments = mail.NilReader ->
  exists a, In a attachments /\ mail.Content a = None.
Proof.
  revert before. induction attachments as [| a rest IH]; intros before;
    cbn [mail.reading].
  - discriminate.
  - destruct (mail.Content a) as [r |] eqn:Ec.
    + destruct (mail.ReadAll r (count_occ Pos.eq_dec before r)); [| discriminate].
      intros E. destruct (IH _ E) as [a' [Hin Ha]].
      exists a'. split; [now right | exact Ha].
    + intros _. exists a. split; [now left | exact Ec].
Qed.

(** The loop over the attachments reads them in their order and stops
    where [reading] stops; it leaves the server and the clock alone. *)
Lemma addAttachments_reading (content : string) (attachments : list mail.Attachment)
    (boundary : string) st (res : option (string * option mail.Error)) st' :
  mail.addAttachments content attachments boundary st = (res, st') ->
  mail.trace st' = mail.trace st /\ mail.reads st' = mail.reads st /\
  match mail.reading (mail.drained st) attachments with
  | mail.AllRead => exists content', res = Some (content', None)
  | mail.ReadError a err =>
      exists content',
        res = Some (content',
                    Some (mail.Wrap err mail.InternalCode
                            "failed to read attachment content"
                            [("filename", mail.Filename a)]))
  | mail.NilReader => res = None
  end.
Proof.
  revert content st. induction attachments as [| a rest IH]; intros content st E.
  - cbn in E. injection E as <- <-. cbn. repeat split. eauto.
  - cbn [mail.addAttachments] in E. unfold mail.io_bind at 1 in E.
    unfold mail.io_ReadAll, mail.times_read in E. cbn [mail.reading].
    destruct (mail.Content a) as [r |].
    + destruct (mail.ReadAll r (count_occ Pos.eq_dec (mail.drained st) r))
        as [data | err].
      * apply IH in E as [I1 [I2 I3]].
        cbn [mail.trace mail.reads mail.drained] in I1, I2, I3. now repeat split.
      * unfold mail.io_ret in E. injection E as <- <-. cbn. repeat split. eauto.
    + unfold mail.io_ret in E. injection E as <- <-. now repeat split.
Qed.

Lemma generateBoundary_state st :
  mail.generateBoundary st
  = (verbs.Sprintf "boundary_%d" [verbs.D (mail.now (mail.reads st))],
     mail.mkState (Datatypes.S (mail.reads st)) (mail.trace st) (mail.drained st)).
Proof. reflexivity. Qed.

Lemma addSimpleBody_state (content : string) m st :
  snd (fst (mail.addSimpleBody content m st)) = None /\
  mail.trace (snd (mail.addSimpleBody content m st)) = mail.trace st /\
  mail.drained (snd (mail.addSimpleBody content m st)) = mail.drained st.
Proof.
  unfold mail.addSimpleBody.
  destruct (negb (String.eqb (mail.HTMLBody m) EmptyString)
            && negb (String.eqb (mail.TextBody m) EmptyString)).
  - unfold mail.io_bind. rewrite generateBoundary_state. now repeat split.
  - destruct (negb (String.eqb (mail.HTMLBody m) EmptyString)); now repeat split.
Qed.

Lemma addBodyParts_state (content : string) m (boundary : string) st :
  snd (fst (mail.addBodyParts content m boundary st)) = None /\
  mail.trace (snd (mail.addBodyParts content m boundary st)) = mail.trace st /\
  mail.drained (snd (mail.addBodyParts content m boundary st)) = mail.drained st.
Proof.
  unfold mail.addBodyParts.
  destruct (negb (String.eqb (mail.HTMLBody m) EmptyString)
            && negb (String.eqb (mail.TextBody m) EmptyString)).
  - unfold mail.io_bind. rewrite generateBoundary_state. now repeat split.
  - destruct (negb (String.eqb (mail.HTMLBody m) EmptyString)); now repeat split.
Qed.

(** Building the content never talks to the server, and what it comes to
    is decided by the reading of the attachments: content when all are
    read, the error of the first read that fails, a panic on a nil
    reader. *)
Lemma buildEmailContent_state m st :
  mail.trace (snd (mail.buildEmailContent m st)) = mail.trace st /\
  match mail.reading (mail.drained st) (mail.Attachments m) with
  | mail.AllRead =>
      exists content, fst (mail.buildEmailContent m st) = Some (content, None)
  | mail.ReadError a err =>
      fst (mail.buildEmailContent m st)
      = Some (EmptyString,
              Some (mail.Wrap err mail.InternalCode "failed to read attachment content"
                      [("filename", mail.Filename a)]))
  | mail.NilReader => fst (mail.buildEmailContent m st) = None
  end.
Proof.
  destruct (mail.buildEmailContent m st) as [res0 st0] eqn:E.
  cbn [fst snd]. unfold mail.buildEmailContent in E.
  unfold mail.io_bind at 1 in E. unfold mail.UnixNano at 1 in E.
  destruct (mail.Attachments m) as [| a rest] eqn:Ea.
  - cbn [length Nat.ltb Nat.leb] in E. unfold mail.io_bind in E.
    match type of E with
    | context [mail.addSimpleBody ?c m ?st1] =>
        destruct (addSimpleBody_state c m st1) as [H1 [H2 H3]];
        destruct (mail.addSimpleBody c m st1) as [[body err] st2]
    end.
    cbn [fst snd mail.trace] in *. subst err. cbn [fst snd mail.io_ret] in E.
    injection E as <- <-. split; [exact H2 |]. cbn [mail.reading]. eauto.
  - cbn [length Nat.ltb Nat.leb] in E. unfold mail.io_bind at 1 in E.
    rewrite generateBoundary_state in E. unfold mail.io_bind at 1 in E.
    match type of E with
    | context [mail.addBodyParts ?c m ?b ?st1] =>
        destruct (addBodyParts_state c m b st1) as [H1 [H2 H3]];
        destruct (mail.addBodyParts c m b st1) as [[body err] st2]
    end.
    cbn [fst snd mail.trace mail.drained] in *. subst err.
    unfold mail.io_bind at 1 in E.
    match type of E with
    | context [mail.addAttachments ?c ?l ?b ?st1] =>
        destruct (mail.addAttachments c l b st1) as [added st3] eqn:Eadd;
        apply addAttachments_reading in Eadd as [A1 [A2 A3]]
    end.
    rewrite H3 in A3.
    destruct (mail.reading (mail.drained st) (a :: rest)) as [| a' err |].
    + destruct A3 as [content' ->]. unfold mail.io_ret in E. injection E as <- <-.
      split; [congruence | eauto].
    + destruct A3 as [content' ->]. unfold mail.io_ret in E. injection E as <- <-.
      split; [congruence | reflexivity].
    + subst added. unfold mail.io_ret in E. injection E as <- <-.
      split; [congruence | reflexivity].
Qed.

Lemma SendEmail_status s (c : Context) (message : option mail.EmailMessage) st
    (resp : mail.SendEmailResponse) :
  fst (mail.SendEmail s c message st) = Some (inl resp) -> mail.Status resp = "sent".
Proof.
  destruct (mail.SendEmail s c message st) as [res0 st0] eqn:E. cbn [fst].
  intros ->. unfold mail.SendEmail in E.
  destruct (mail.validateEmailMessage message) as [err |]; [discriminate |].
  destruct message as [m |]; [| discriminate].
  unfold mail.io_bind at 1 in E.
  destruct (mail.buildEmailContent m st) as [[[content [err |]] |] st1];
    [discriminate | | discriminate].
  destruct (length (mail.getAllRecipients m) =? 0); [discriminate |].
  unfold mail.io_bind at 1 in E.
  destruct (mail.sendViaSMTP s c (mail.Email (mail.From m)) (mail.getAllRecipients m)
              content st1) as [[e |] st2]; [discriminate |].
  unfold mail.io_bind, mail.io_ret in E.
  destruct (mail.generateMessageID s st2). injection E as <- <-. reflexivity.
Qed.

(** A panic of [SendEmail] is the panic of [io.ReadAll] on the nil reader
    of an attachment of a message that passed the validation. *)
Lemma SendEmail_panic s (c : Context) (message : option mail.EmailMessage) st :
  fst (mail.SendEmail s c message st) = None ->
  exists m a,
    message = Some m /\ mail.validateEmailMessage (Some m) = None /\
    In a (mail.Attachments m) /\ mail.Content a = None.
Proof.
  destruct (mail.SendEmail s c message st) as [res0 st0] eqn:E. cbn [fst].
  intros ->. unfold mail.SendEmail in E.
  destruct (mail.validateEmailMessage message) as [err |] eqn:Ev; [discriminate |].
  destruct message as [m |]; [| discriminate].
  unfold mail.io_bind at 1 in E.
  destruct (buildEmailContent_state m st) as [_ Hb].
  destruct (mail.buildEmailContent m st) as [[[content [err |]] |] st1]; cbn [fst] in Hb.
  - discriminate.
  - destruct (length (mail.getAllRecipients m) =? 0); [discriminate |].
    unfold mail.io_bind at 1 in E.
    destruct (mail.sendViaSMTP s c (mail.Email (mail.From m)) (mail.getAllRecipients m)
                content st1) as [[e |] st2]; [discriminate |].
    unfold mail.io_bind, mail.io_ret in E.
    destruct (mail.generateMessageID s st2). discriminate.
  - destruct (mail.reading (mail.drained st) (mail.Attachments m)) as [| a' err |] eqn:Er.
    + destruct Hb as [content Hb]. discriminate.
    + discriminate.
    + destruct (reading_NilReader _ _ Er) as [a [Hin Ha]].
      exists m, a. repeat split; assumption.
Qed.

(** X8: [SendEmail] talks to the server only for a message that passes
    [validateEmailMessage] and whose attachments can all be read.  A
    message that fails the validation leaves even the clock unread and is
    answered with the validation error, wrapped.  When the reading of the
    attachments stops at a read that fails, the server hears nothing and
    the call is answered with an error: for a valid message, the error of
    that read, wrapped.  When it stops at a nil reader the server hears
    nothing either: a valid message makes the call panic there, an
    invalid one is answered with the validation error as said. *)
Theorem SendEmail_sends_nothing_for_a_bad_message s (c : Context)
    (message : option mail.EmailMessage) st :
  (forall err, mail.validateEmailMessage message = Some err ->
     mail.SendEmail s c message st
     = (Some (inr (mail.Wrap err mail.ValidationCode "invalid email message" [])), st)) /\
  (forall m, message = Some m ->
     match mail.reading (mail.drained st) (mail.Attachments m) with
     | mail.AllRead => True
     | mail.ReadError a err =>
         mail.trace (snd (mail.SendEmail s c message st)) = mail.trace st /\
         (exists e, fst (mail.SendEmail s c message st) = Some (inr e)) /\
         (mail.validateEmailMessage message = None ->
          fst (mail.SendEmail s c message st)
          = Some (inr (mail.Wrap
                         (mail.Wrap err mail.InternalCode
                            "failed to read attachment content"
                            [("filename", mail.Filename a)])
                         mail.InternalCode "failed to build email content" [])))
     | mail.NilReader =>
         mail.trace (snd (mail.SendEmail s c message st)) = mail.trace st /\
         (mail.validateEmailMessage message = None ->
          fst (mail.SendEmail s c message st) = None)
     end).
Proof.
  split.
  - intros err Hv. unfold mail.SendEmail. now rewrite Hv.
  - intros m ->.
    destruct (mail.SendEmail s c (Some m) st) as [res0 st0] eqn:E. cbn [fst snd].
    unfold mail.SendEmail in E.
    destruct (buildEmailContent_state m st) as [Ht Hb].
    destruct (mail.reading (mail.drained st) (mail.Attachments m)) as [| a err |];
      [exact I | |].
    + destruct (mail.validateEmailMessage (Some m)) as [ev |].
      { unfold mail.io_ret in E. injection E as <- <-.
        split; [reflexivity |]. split; [eauto | discriminate]. }
      unfold mail.io_bind at 1 in E.
      destruct (mail.buildEmailContent m st) as [built st1]. cbn [fst snd] in Ht, Hb.
      subst built. unfold mail.io_ret in E. injection E as <- <-.
      split; [exact Ht |]. split; [eauto | reflexivity].
    + destruct (mail.validateEmailMessage (Some m)) as [ev |].
      { unfold mail.io_ret in E. injection E as <- <-.
        split; [reflexivity | discriminate]. }
      unfold mail.io_bind at 1 in E.
      destruct (mail.buildEmailContent m st) as [built st1]. cbn [fst snd] in Ht, Hb.
      subst built. unfold mail.io_ret in E. injection E as <- <-.
      split; [exact Ht | reflexivity].
Qed.

(** X9: the envelope of [SendEmail] is To, then CC, then BCC.  When the
    call succeeds the server has got the whole conversation for the
    sender's address, those recipients in that order and the content
    that [buildEmailContent] built, and the response says sent by smtp. *)
Theorem SendEmail_success s (c : Context) m st (resp : mail.SendEmailResponse) :
  fst (mail.SendEmail s c (Some m) st) = Some (inl resp) ->
  mail.Status resp = "sent" /\ mail.Provider resp = "smtp" /\
  mail.Metadata resp !! "host" = Some (mail.AnyString (mail.Host (mail.config s))) /\
  mail.Metadata resp !! "port" = Some (mail.AnyInt (mail.Port (mail.config s))) /\
  exists content : string,
    fst (mail.buildEmailContent m st) = Some (content, None) /\
    mail.trace (snd (mail.SendEmail s c (Some m) st))
    = mail.trace st
      ++ mail.conversation s (mail.Email (mail.From m))
           (List.map mail.Email (mail.To m) ++ List.map mail.Email (mail.CC m)
            ++ List.map mail.Email (mail.BCC m))
           content
      ++ mail.closes_owed s (mail.trace st).
Proof.
  destruct (mail.SendEmail s c (Some m) st) as [res0 st0] eqn:E. cbn [fst snd].
  intros ->. unfold mail.SendEmail in E.
  destruct (mail.validateEmailMessage (Some m)) as [err |]; [discriminate |].
  unfold mail.io_bind at 1 in E.
  destruct (buildEmailContent_state m st) as [Ht _].
  destruct (mail.buildEmailContent m st) as [[[content [err |]] |] st1];
    [discriminate | | discriminate].
  cbn [fst snd] in *.
  rewrite getAllRecipients_eq in E.
  set (recipients := List.map mail.Email (mail.To m) ++ List.map mail.Email (mail.CC m)
                     ++ List.map mail.Email (mail.BCC m)) in *.
  destruct (length recipients =? 0); [discriminate |].
  unfold mail.io_bind at 1 in E.
  destruct (sendViaSMTP_trace s c (mail.Email (mail.From m))
              recipients content st1) as [sent [H1 [H5 H6]]].
  destruct (mail.sendViaSMTP s c (mail.Email (mail.From m)) recipients content st1)
    as [res st2].
  cbn [fst snd] in *. destruct res as [e |]; [discriminate |].
  unfold mail.io_bind, mail.generateMessageID, mail.UnixNano, mail.io_ret in E.
  cbn [fst snd mail.trace] in E. injection E as <- <-.
  cbn [mail.Status mail.Provider mail.Metadata mail.trace].
  split; [reflexivity |]. split; [reflexivity |].
  split; [apply lookup_insert_eq |].
  split; [rewrite lookup_insert_ne by discriminate; apply lookup_insert_eq |].
  exists content. split; [reflexivity |].
  rewrite H1, (H5 eq_refl), Ht. reflexivity.
Qed.

Lemma validateEmailMessage_None_To m :
  mail.validateEmailMessage (Some m) = None -> mail.To m <> [].
Proof.
  unfold mail.validateEmailMessage.
  destruct (String.eqb (mail.Email (mail.From m)) EmptyString); [discriminate |].
  destruct (negb (mail.isValidEmailFormat (mail.Email (mail.From m)))); [discriminate |].
  destruct (mail.To m); [discriminate | discriminate].
Qed.

(** X10: [SendEmail] never answers "no recipients specified": a message
    that passes the validation has a To recipient, so the envelope is not
    empty, and every other failure is reported under another message. *)
Theorem SendEmail_never_reports_no_recipients s (c : Context)
    (message : option mail.EmailMessage) st :
  fst (mail.SendEmail s c message st)
  <> Some (inr (mail.New mail.ValidationCode "no recipients specified" [])) /\
  (forall m, mail.validateEmailMessage (Some m) = None -> mail.getAllRecipients m <> []).
Proof.
  split.
  - destruct (mail.SendEmail s c message st) as [res0 st0] eqn:E. cbn [fst].
    unfold mail.SendEmail in E.
    destruct (mail.validateEmailMessage message) as [err |] eqn:Ev.
    { unfold mail.io_ret in E. injection E as <- <-. discriminate. }
    destruct message as [m |].
    2: { unfold mail.io_ret in E. injection E as <- <-. discriminate. }
    unfold mail.io_bind at 1 in E.
    destruct (mail.buildEmailContent m st) as [[[content [err |]] |] st1].
    { unfold mail.io_ret in E. injection E as <- <-. discriminate. }
    2: { unfold mail.io_ret in E. injection E as <- <-. discriminate. }
    rewrite getAllRecipients_eq in E.
    pose proof (validateEmailMessage_None_To m Ev) as Hto.
    destruct (mail.To m) as [| a rest]; [congruence |].
    cbn [List.map app length Nat.eqb] in E.
    unfold mail.io_bind at 1 in E.
    destruct (mail.sendViaSMTP s c (mail.Email (mail.From m))
                (mail.Email a :: List.map mail.Email rest
                 ++ List.map mail.Email (mail.CC m) ++ List.map mail.Email (mail.BCC m))
                content st1) as [[e |] st2].
    + unfold mail.io_ret in E. injection E as <- <-. discriminate.
    + unfold mail.io_bind, mail.io_ret in E.
      destruct (mail.generateMessageID s st2). injection E as <- <-. discriminate.
  - intros m Ev. rewrite getAllRecipients_eq.
    pose proof (validateEmailMessage_None_To m Ev) as Hto.
    destruct (mail.To m); [congruence | discriminate].
Qed.

(** X11: the Bcc recipients are part of the envelope and of nothing else:
    each of them is among the recipients of [getAllRecipients], after To
    and CC, and two messages that differ in their Bcc list only get the
    same content from [buildEmailContent], byte for byte. *)
Theorem Bcc_is_in_the_envelope_and_not_in_the_content
    (from : mail.EmailAddress) (to cc bcc bcc' : list mail.EmailAddress)
    (replyTo : option mail.EmailAddress) (subject text html : string)
    (attachments : list mail.Attachment) (headers : gmap string string)
    (priority : mail.Priority) st :
  mail.buildEmailContent
    (mail.mkEmailMessage from to cc bcc replyTo subject text html attachments headers
       priority) st
  = mail.buildEmailContent
      (mail.mkEmailMessage from to cc bcc' replyTo subject text html attachments headers
         priority) st /\
  mail.getAllRecipients
    (mail.mkEmailMessage from to cc bcc replyTo subject text html attachments headers
       priority)
  = List.map mail.Email to ++ List.map mail.Email cc ++ List.map mail.Email bcc.
Proof.
  split; [reflexivity |]. apply getAllRecipients_eq.
Qed.

Lemma SendBulkEmails_loop_counts s (c : Context)
    (messages : list (option mail.EmailMessage)) (acc : mail.BulkSendResponse) st
    (res : option mail.BulkSendResponse) st' :
  mail.SendBulkEmails_loop s c messages acc st = (res, st') ->
  match res with
  | Some resp =>
      (mail.SuccessCount resp + mail.FailureCount resp
       = mail.SuccessCount acc + mail.FailureCount acc + Z.of_nat (length messages))%Z /\
      (mail.SuccessCount acc <= mail.SuccessCount resp)%Z /\
      (mail.FailureCount resp - mail.FailureCount acc
       = Z.of_nat (length (mail.Errors resp)) - Z.of_nat (length (mail.Errors acc)))%Z /\
      length (mail.Results resp) = length (mail.Results acc) + length messages /\
      (Forall (fun r => mail.Status r = "sent" \/ mail.Status r = "failed")
         (mail.Results acc) ->
       Forall (fun r => mail.Status r = "sent" \/ mail.Status r = "failed")
         (mail.Results resp))
  | None =>
      exists m a,
        In (Some m) messages /\ mail.validateEmailMessage (Some m) = None /\
        In a (mail.Attachments m) /\ mail.Content a = None
  end.
Proof.
  revert acc st. induction messages as [| message rest IH]; intros acc st E.
  - cbn in E. injection E as <- <-. cbn [length]. repeat split; try lia. auto.
  - cbn [mail.SendBulkEmails_loop] in E. unfold mail.io_bind at 1 in E.
    pose proof (SendEmail_status s c message st) as Hst.
    pose proof (SendEmail_panic s c message st) as Hp.
    destruct (mail.SendEmail s c message st) as [[[resp | err] |] st1];
      cbn [fst] in Hst, Hp.
    + apply IH in E. destruct res as [r |].
      * cbn [mail.SuccessCount mail.FailureCount mail.Results mail.Errors] in E.
        destruct E as [I1 [I2 [I3 [I4 I5]]]]. rewrite length_app in I4.
        cbn [length] in *. repeat split; try lia.
        intros Hacc. apply I5. apply Forall_app. split; [exact Hacc |].
        constructor; [left; now apply Hst | constructor].
      * destruct E as [m [a [Hin Hrest]]]. exists m, a. split; [now right | exact Hrest].
    + apply IH in E. destruct res as [r |].
      * cbn [mail.SuccessCount mail.FailureCount mail.Results mail.Errors] in E.
        destruct E as [I1 [I2 [I3 [I4 I5]]]]. rewrite !length_app in *.
        cbn [length] in *. repeat split; try lia.
        intros Hacc. apply I5. apply Forall_app. split; [exact Hacc |].
        constructor; [now right | constructor].
      * destruct E as [m [a [Hin Hrest]]]. exists m, a. split; [now right | exact Hrest].
    + unfold mail.io_ret in E. injection E as <- <-.
      destruct (Hp eq_refl) as [m [a [-> Hrest]]]. exists m, a.
      split; [now left | exact Hrest].
Qed.

(** X12: [SendBulkEmails], when it returns, returns no error and accounts
    for every message, nil messages included: one result per message,
    each marked sent or failed, the success count and the failure count
    add up to the number of messages, and there is one error per
    failure; no message gives zero counts and no results.  It does not
    return, but panics, only at a message that passes the validation and
    has an attachment with a nil reader; when no attachment of any
    message has a nil reader it returns. *)
Theorem SendBulkEmails_accounts_for_every_message s (c : Context)
    (messages : list (option mail.EmailMessage)) st :
  match fst (mail.SendBulkEmails s c messages st) with
  | Some (resp, err) =>
      err = None /\
      (mail.SuccessCount resp + mail.FailureCount resp = Z.of_nat (length messages))%Z /\
      (0 <= mail.SuccessCount resp)%Z /\
      mail.FailureCount resp = Z.of_nat (length (mail.Errors resp)) /\
      length (mail.Results resp) = length messages /\
      Forall (fun r => mail.Status r = "sent" \/ mail.Status r = "failed")
        (mail.Results resp)
  | None =>
      exists m a,
        In (Some m) messages /\ mail.validateEmailMessage (Some m) = None /\
        In a (mail.Attachments m) /\ mail.Content a = None
  end /\
  ((forall m a, In (Some m) messages -> In a (mail.Attachments m) ->
      mail.Content a <> None) ->
   fst (mail.SendBulkEmails s c messages st) <> None).
Proof.
  assert (match fst (mail.SendBulkEmails s c messages st) with
          | Some (resp, err) =>
              err = None /\
              (mail.SuccessCount resp + mail.FailureCount resp
               = Z.of_nat (length messages))%Z /\
              (0 <= mail.SuccessCount resp)%Z /\
              mail.FailureCount resp = Z.of_nat (length (mail.Errors resp)) /\
              length (mail.Results resp) = length messages /\
              Forall (fun r => mail.Status r = "sent" \/ mail.Status r = "failed")
                (mail.Results resp)
          | None =>
              exists m a,
                In (Some m) messages /\ mail.validateEmailMessage (Some m) = None /\
                In a (mail.Attachments m) /\ mail.Content a = None
          end) as Hmain.
  { destruct (mail.SendBulkEmails s c messages st) as [res0 st0] eqn:E. cbn [fst].
    unfold mail.SendBulkEmails in E.
    destruct messages as [| message rest].
    - cbn in E. injection E as <- <-. cbn. repeat split; try lia. constructor.
    - cbn [length Nat.eqb] in E. unfold mail.io_bind in E.
      destruct (mail.SendBulkEmails_loop s c (message :: rest)
                  (mail.mkBulkSendResponse 0 0 [] []) st) as [r st1] eqn:El.
      apply SendBulkEmails_loop_counts in El.
      destruct r as [r |]; unfold mail.io_ret in E; injection E as <- <-.
      + cbn [mail.SuccessCount mail.FailureCount mail.Results mail.Errors length] in El.
        destruct El as [I1 [I2 [I3 [I4 I5]]]]. cbn [length].
        repeat split; try lia. apply I5. constructor.
      + exact El. }
  split; [exact Hmain |].
  intros Hall E. rewrite E in Hmain. destruct Hmain as [m [a [Hin [_ [Ha Hc]]]]].
  now apply (Hall m a Hin Ha).
Qed.

End smtp_provider.

Lemma SendEmail_success_witness :
  exists resp : mail.SendEmailResponse,
    fst (@mail.SendEmail outbox.runtime outbox.provider Background
           (Some outbox.greeting) outbox.idle) = Some (inl resp) /\
    mail.Status resp = "sent" /\
    mail.Provider resp = "smtp".
Proof.
  destruct (fst (@mail.SendEmail outbox.runtime outbox.provider Background
                   (Some outbox.greeting) outbox.idle)) as [[resp | err] |] eqn:E.
  - exists resp. split; [reflexivity |].
    destruct (@SendEmail_success outbox.runtime outbox.provider Background
                outbox.greeting outbox.idle resp E) as [H1 [H2 _]].
    split; [exact H1 | exact H2].
  - vm_compute in E. discriminate E.
  - vm_compute in E. discriminate E.
Defined.

(** The code on small inputs: a valid message whose attachment has no
    reader makes [SendEmail] and [SendBulkEmails] panic before the server
    is contacted; with a reader over a buffer the message is sent. *)
Example SendEmail_panics_on_a_nil_reader :
  mail.validateEmailMessage (Some outbox.unattached) = None /\
  @mail.SendEmail outbox.runtime outbox.provider Background (Some outbox.unattached)
    outbox.idle
  = (None, mail.mkState 2 [] []).
Proof. split; vm_compute; reflexivity. Qed.

Example SendBulkEmails_panics_on_a_nil_reader :
  fst (@mail.SendBulkEmails outbox.runtime outbox.provider Background
         [None; Some outbox.unattached; Some outbox.greeting] outbox.idle) = None.
Proof. vm_compute. reflexivity. Qed.

Example SendEmail_with_a_reader :
  match @mail.SendEmail outbox.runtime outbox.provider Background (Some outbox.report)
          outbox.idle with
  | (Some (inl resp), st) =>
      mail.Status resp = "sent" /\ mail.drained st = [1%positive] /\
      In mail.Data (mail.trace st)
  | _ => False
  end.
Proof. vm_compute. repeat split. tauto. Qed.

Section string_facts.

Lemma list_ascii_of_string_app (a b : string) :
  list_ascii_of_string (a +:+ b) = list_ascii_of_string a ++ list_ascii_of_string b.
Proof.
  induction a as [| x a IH]; [reflexivity |].
  change (x :: list_ascii_of_string (a +:+ b)
          = x :: list_ascii_of_string a ++ list_ascii_of_string b).
  now rewrite IH.
Qed.

Lemma list_ascii_of_string_substring (s : string) (i n : nat) :
  list_ascii_of_string (String.substring i n s)
  = take n (drop i (list_ascii_of_string s)).
Proof.
  revert i n. induction s as [| x s IH]; intros i n.
  - destruct i, n; reflexivity.
  - destruct i as [| i].
    + destruct n as [| n]; [reflexivity |]. cbn. now rewrite IH.
    + cbn. apply IH.
Qed.

Lemma list_ascii_of_string_inj (a b : string) :
  list_ascii_of_string a = list_ascii_of_string b -> a = b.
Proof.
  intros E. rewrite <- (string_of_list_ascii_of_string a), E.
  apply string_of_list_ascii_of_string.
Qed.

Lemma string_app_assoc (a b c : string) : (a +:+ b) +:+ c = a +:+ b +:+ c.
Proof.
  apply list_ascii_of_string_inj. rewrite !list_ascii_of_string_app.
  now rewrite <- app_assoc.
Qed.

Lemma string_app_empty_r (a : string) : a +:+ EmptyString = a.
Proof.
  apply list_ascii_of_string_inj. rewrite list_ascii_of_string_app. apply app_nil_r.
Qed.

Lemma substring_length (s : string) (i n : nat) :
  String.length (String.substring i n s) = Nat.min n (String.length s - i).
Proof.
  rewrite <- !length_list_ascii_of_string, list_ascii_of_string_substring.
  now rewrite length_take, length_drop.
Qed.

Lemma substring_split (s : string) (i a b : nat) :
  String.substring i (a + b) s
  = String.substring i a s +:+ String.substring (i + a) b s.
Proof.
  apply list_ascii_of_string_inj.
  rewrite list_ascii_of_string_app, !list_ascii_of_string_substring.
  rewrite <- drop_drop. now rewrite take_take_drop.
Qed.

Lemma substring_all (s : string) : String.substring 0 (String.length s) s = s.
Proof.
  apply list_ascii_of_string_inj. rewrite list_ascii_of_string_substring.
  rewrite drop_0, <- length_list_ascii_of_string. apply firstn_all.
Qed.

Lemma substring_beyond (s : string) (i n : nat) :
  String.length s <= i -> String.substring i n s = EmptyString.
Proof.
  intros Hi. apply list_ascii_of_string_inj. rewrite list_ascii_of_string_substring.
  rewrite drop_ge by (rewrite length_list_ascii_of_string; lia). now destruct n.
Qed.

Lemma substring_zero (s : string) (i : nat) : String.substring i 0 s = EmptyString.
Proof.
  apply list_ascii_of_string_inj. now rewrite list_ascii_of_string_substring.
Qed.

Lemma Join_cons (x : string) (rest : list string) (sep : string) :
  rest <> [] -> verbs.Join (x :: rest) sep = x +:+ sep +:+ verbs.Join rest sep.
Proof. destruct rest; [congruence | reflexivity]. Qed.


Lemma append_cancel_l (p a b : string) : p +:+ a = p +:+ b -> a = b.
Proof.
  intros E. apply list_ascii_of_string_inj.
  apply (f_equal list_ascii_of_string) in E.
  rewrite !list_ascii_of_string_app in E. now apply app_inv_head in E.
Qed.

Lemma append_cancel_r (a b q : string) : a +:+ q = b +:+ q -> a = b.
Proof.
  intros E. apply list_ascii_of_string_inj.
  apply (f_equal list_ascii_of_string) in E.
  rewrite !list_ascii_of_string_app in E. now apply app_inv_tail in E.
Qed.

End string_facts.

Section base64.
Context `{mail.Runtime}.

(** The loop of [base64Encode] appends the pieces, joined by CRLF. *)
Lemma base64Encode_loop_lines (fuel : nat) (encoded : string) (i : nat) (result : string) :
  String.length encoded - i <= fuel ->
  mail.base64Encode_loop fuel encoded i result
  = result +:+ verbs.Join (mail.lines_from fuel encoded i) verbs.CRLF.
Proof.
  revert i result. induction fuel as [| fuel IH]; intros i result Hf.
  - cbn. now rewrite string_app_empty_r.
  - cbn [mail.base64Encode_loop mail.lines_from].
    destruct (i <? String.length encoded) eqn:Ei.
    2: { cbn. now rewrite string_app_empty_r. }
    apply Nat.ltb_lt in Ei. unfold mail.lineLength in *.
    rewrite IH by lia.
    destruct (String.length encoded <? i + 76) eqn:Ee.
    + apply Nat.ltb_lt in Ee. rewrite Nat.ltb_irrefl.
      destruct fuel as [| fuel']; cbn [mail.lines_from].
      * cbn [verbs.Join]. now rewrite string_app_empty_r.
      * replace (i + 76 <? String.length encoded) with false
          by (symmetry; apply Nat.ltb_ge; lia).
        cbn [verbs.Join]. now rewrite string_app_empty_r.
    + apply Nat.ltb_ge in Ee.
      destruct (i + 76 <? String.length encoded) eqn:Em.
      * apply Nat.ltb_lt in Em.
        rewrite Join_cons.
        -- now rewrite !string_app_assoc.
        -- destruct fuel as [| fuel']; [lia |]. cbn [mail.lines_from].
           unfold mail.lineLength.
           replace (i + 76 <? String.length encoded) with true
             by (symmetry; apply Nat.ltb_lt; lia).
           discriminate.
      * apply Nat.ltb_ge in Em.
        destruct fuel as [| fuel']; cbn [mail.lines_from].
        -- cbn [verbs.Join]. now rewrite string_app_empty_r.
        -- unfold mail.lineLength.
           replace (i + 76 <? String.length encoded) with false
             by (symmetry; apply Nat.ltb_ge; lia).
           cbn [verbs.Join]. now rewrite string_app_empty_r.
Qed.

(** Put together again, the pieces are the encoding from [i] on. *)
Lemma lines_from_whole (fuel : nat) (encoded : string) (i : nat) :
  String.length encoded - i <= fuel ->
  verbs.Join (mail.lines_from fuel encoded i) EmptyString
  = String.substring i (String.length encoded - i) encoded.
Proof.
  revert i. induction fuel as [| fuel IH]; intros i Hf.
  - cbn. replace (String.length encoded - i) with 0 by lia.
    now rewrite substring_zero.
  - cbn [mail.lines_from].
    destruct (i <? String.length encoded) eqn:Ei.
    2: { apply Nat.ltb_ge in Ei. cbn. now rewrite substring_beyond. }
    apply Nat.ltb_lt in Ei. unfold mail.lineLength in *.
    assert (verbs.Join
              (String.substring i
                 ((if String.length encoded <? i + 76
                   then String.length encoded else i + 76) - i) encoded
               :: mail.lines_from fuel encoded (i + 76)) EmptyString
            = String.substring i
                ((if String.length encoded <? i + 76
                  then String.length encoded else i + 76) - i) encoded
              +:+ verbs.Join (mail.lines_from fuel encoded (i + 76)) EmptyString) as ->.
    { destruct (mail.lines_from fuel encoded (i + 76)); cbn [verbs.Join];
        [now rewrite string_app_empty_r | reflexivity]. }
    rewrite IH by lia.
    destruct (String.length encoded <? i + 76) eqn:Ee.
    + apply Nat.ltb_lt in Ee.
      replace (String.length encoded - (i + 76)) with 0 by lia.
      rewrite (substring_beyond encoded (i + 76)) by lia.
      now rewrite string_app_empty_r.
    + apply Nat.ltb_ge in Ee.
      replace (String.length encoded - i)
        with ((i + 76 - i) + (String.length encoded - (i + 76))) by lia.
      rewrite substring_split. do 2 f_equal; lia.
Qed.

(** Every piece has between 1 and 76 bytes, and 76 unless it is the last. *)
Lemma lines_from_lengths (fuel : nat) (encoded : string) (i : nat) :
  String.length encoded - i <= fuel ->
  Forall (fun l => 1 <= String.length l <= 76) (mail.lines_from fuel encoded i) /\
  (forall (k : nat) (l : string),
     mail.lines_from fuel encoded i !! k = Some l ->
     Datatypes.S k < length (mail.lines_from fuel encoded i) ->
     String.length l = 76).
Proof.
  revert i. induction fuel as [| fuel IH]; intros i Hf.
  - cbn. split; [constructor | intros k l Hk; discriminate].
  - cbn [mail.lines_from].
    destruct (i <? String.length encoded) eqn:Ei.
    2: { split; [constructor | intros k l Hk; discriminate]. }
    apply Nat.ltb_lt in Ei. unfold mail.lineLength in *.
    destruct (IH (i + 76) ltac:(lia)) as [IH1 IH2].
    split.
    + constructor; [| exact IH1]. rewrite substring_length.
      destruct (String.length encoded <? i + 76) eqn:Ee;
        [apply Nat.ltb_lt in Ee | apply Nat.ltb_ge in Ee]; lia.
    + intros [| k] l Hk Hlen.
      * injection Hk as <-. cbn [length] in Hlen.
        rewrite substring_length.
        destruct fuel as [| fuel']; [cbn in Hlen; lia |].
        cbn [mail.lines_from] in Hlen. unfold mail.lineLength in Hlen.
        destruct (i + 76 <? String.length encoded) eqn:Em; [| cbn in Hlen; lia].
        apply Nat.ltb_lt in Em.
        destruct (String.length encoded <? i + 76) eqn:Ee;
          [apply Nat.ltb_lt in Ee | apply Nat.ltb_ge in Ee]; lia.
      * change (mail.lines_from fuel encoded (i + 76) !! k = Some l) in Hk.
        cbn [length] in Hlen. apply (IH2 k l Hk). lia.
Qed.

(** X13: [base64Encode] is the base64 encoding cut into lines: its output
    is a list of lines joined by CRLF, with no CRLF at the end; the lines
    put together without the CRLFs are the encoding; every line has
    between 1 and 76 bytes, and exactly 76 unless it is the last one. *)
Theorem base64Encode_wraps_at_76 (data : string) :
  exists lines : list string,
    mail.base64Encode data = verbs.Join lines verbs.CRLF /\
    verbs.Join lines EmptyString = mail.EncodeToString data /\
    Forall (fun l => 1 <= String.length l <= 76) lines /\
    (forall (k : nat) (l : string),
       lines !! k = Some l -> Datatypes.S k < length lines -> String.length l = 76).
Proof.
  unfold mail.base64Encode. set (encoded := mail.EncodeToString data).
  exists (mail.lines_from (Datatypes.S (String.length encoded)) encoded 0).
  split; [| split].
  - rewrite base64Encode_loop_lines by lia. reflexivity.
  - rewrite lines_from_whole by lia. rewrite Nat.sub_0_r. apply substring_all.
  - apply lines_from_lengths. lia.
Qed.

End base64.

Section smtp_content.
Context `{mail.Runtime}.

Implicit Types (st : mail.State) (m : mail.EmailMessage) (content : string).










End smtp_content.

Section smtp_ids.
Context `{mail.Runtime}.

Lemma Sprintf_message_id (t : Z) (host : string) :
  verbs.Sprintf "<%d@%s>" [verbs.D t; verbs.S host]
  = "<" +:+ pretty t +:+ "@" +:+ host +:+ ">".
Proof.
  unfold verbs.Sprintf. cbn [verbs.format].
  apply list_ascii_of_string_inj.
  repeat (rewrite list_ascii_of_string_app || cbn [list_ascii_of_string app]).
  reflexivity.
Qed.

Lemma Sprintf_boundary (t : Z) :
  verbs.Sprintf "boundary_%d" [verbs.D t] = "boundary_" +:+ pretty t.
Proof.
  unfold verbs.Sprintf. cbn [verbs.format].
  apply list_ascii_of_string_inj.
  repeat (rewrite list_ascii_of_string_app || cbn [list_ascii_of_string app]).
  now rewrite ?app_nil_r.
Qed.

(** X15: the message id and the multipart boundary are unique as far as
    the clock is: two message ids of one provider, and two boundaries,
    are equal exactly when the two readings of the clock that made them
    are.  Each takes one reading of the clock and sends nothing. *)
Theorem ids_are_as_unique_as_the_clock (s : mail.smtpProvider) (st1 st2 : mail.State) :
  (fst (mail.generateMessageID s st1) = fst (mail.generateMessageID s st2) <->
   mail.now (mail.reads st1) = mail.now (mail.reads st2)) /\
  (fst (mail.generateBoundary st1) = fst (mail.generateBoundary st2) <->
   mail.now (mail.reads st1) = mail.now (mail.reads st2)) /\
  snd (mail.generateMessageID s st1)
  = mail.mkState (Datatypes.S (mail.reads st1)) (mail.trace st1) (mail.drained st1) /\
  snd (mail.generateBoundary st1)
  = mail.mkState (Datatypes.S (mail.reads st1)) (mail.trace st1) (mail.drained st1).
Proof.
  unfold mail.generateMessageID, mail.generateBoundary, mail.io_bind, mail.UnixNano,
    mail.io_ret.
  cbn [fst snd]. rewrite !Sprintf_message_id, !Sprintf_boundary.
  split; [| split; [| split; reflexivity]].
  - split; [| now intros ->].
    intros E. apply append_cancel_l, append_cancel_r in E.
    now apply (inj pretty) in E.
  - split; [| now intros ->].
    intros E. apply append_cancel_l in E. now apply (inj pretty) in E.
Qed.

End smtp_ids.

Section gomail_provider.
Context `{mail.Runtime} `{gomail.Dialer}.

Implicit Types (st : gomail.State) (g : gomail.goMailProvider) (m : mail.EmailMessage).

(** X16: the validation of the GoMail provider asks for a sender address, a
    To recipient, a subject and a body, and for nothing about the format
    of an address; so every message that the SMTP provider's validation
    accepts, the GoMail provider's accepts too. *)
Theorem gomail_validation_is_the_weaker_one :
  (forall m,
     gomail.validateEmailMessage (Some m) = None <->
     mail.Email (mail.From m) <> EmptyString /\ mail.To m <> [] /\
     mail.Subject m <> EmptyString /\
     (mail.TextBody m <> EmptyString \/ mail.HTMLBody m <> EmptyString)) /\
  (forall message,
     mail.validateEmailMessage message = None ->
     gomail.validateEmailMessage message = None).
Proof.
  assert (forall m,
     gomail.validateEmailMessage (Some m) = None <->
     mail.Email (mail.From m) <> EmptyString /\ mail.To m <> [] /\
     mail.Subject m <> EmptyString /\
     (mail.TextBody m <> EmptyString \/ mail.HTMLBody m <> EmptyString)) as Hg.
  { intros m. unfold gomail.validateEmailMessage.
    destruct (String.eqb_spec (mail.Email (mail.From m)) EmptyString) as [Ef | Ef].
    { split; [discriminate | tauto]. }
    destruct (mail.To m) as [| a rest]; cbn [length Nat.eqb].
    { split; [discriminate | tauto]. }
    destruct (String.eqb_spec (mail.Subject m) EmptyString) as [Es | Es].
    { split; [discriminate | tauto]. }
    destruct (String.eqb_spec (mail.TextBody m) EmptyString) as [Et | Et];
      destruct (String.eqb_spec (mail.HTMLBody m) EmptyString) as [Eh | Eh];
      cbn [andb]; (split; [try discriminate; intros _ | try reflexivity; tauto]);
      repeat split; try assumption; try discriminate; tauto. }
  split; [exact Hg |].
  intros [m |] Hv; [| discriminate]. apply Hg.
  unfold mail.validateEmailMessage in Hv.
  destruct (String.eqb_spec (mail.Email (mail.From m)) EmptyString) as [Ef | Ef];
    [discriminate |].
  destruct (negb (mail.isValidEmailFormat (mail.Email (mail.From m)))); [discriminate |].
  destruct (mail.To m) as [| a rest] eqn:Eto; [discriminate |].
  cbn [length Nat.eqb] in Hv.
  destruct (mail.validate_recipients (a :: rest)); [discriminate |].
  destruct (String.eqb_spec (mail.Subject m) EmptyString) as [Es | Es]; [discriminate |].
  destruct (String.eqb_spec (mail.TextBody m) EmptyString) as [Et | Et];
    destruct (String.eqb_spec (mail.HTMLBody m) EmptyString) as [Eh | Eh];
    cbn [andb] in Hv; try discriminate;
    repeat split; try assumption; try discriminate; tauto.
Qed.

Lemma all_fail_tally (messages : list (option mail.EmailMessage)) (err : mail.Error)
    (acc : mail.BulkSendResponse) :
  mail.SuccessCount (gomail.all_fail messages err acc) = mail.SuccessCount acc /\
  mail.FailureCount (gomail.all_fail messages err acc)
  = (mail.FailureCount acc + Z.of_nat (length messages))%Z /\
  mail.Errors (gomail.all_fail messages err acc)
  = mail.Errors acc ++ replicate (length messages) err /\
  mail.Results (gomail.all_fail messages err acc)
  = mail.Results acc ++ replicate (length messages) (gomail.failed err).
Proof.
  revert acc. induction messages as [| message rest IH]; intros acc.
  - cbn. rewrite !app_nil_r. repeat split; lia.
  - cbn [gomail.all_fail length replicate]. destruct (IH (gomail.add_failure acc err))
      as [I1 [I2 [I3 I4]]].
    rewrite I1, I2, I3, I4. unfold gomail.add_failure.
    cbn [mail.SuccessCount mail.FailureCount mail.Errors mail.Results].
    rewrite <- !app_assoc. repeat split; lia.
Qed.

Lemma generateMessageID_calls g st :
  gomail.calls (snd (gomail.generateMessageID g st)) = gomail.calls st.
Proof. reflexivity. Qed.

(** [addAttachment], case by case. *)
Lemma addAttachment_cases (a : mail.Attachment) st :
  gomail.addAttachment a st
  = (match mail.Content a with
    | None => (None, st)
    | Some r =>
        (match mail.ReadAll r (count_occ Pos.eq_dec (gomail.drained st) r) with
         | inr err =>
             Some (inr (mail.Wrap err mail.InternalCode
                          "failed to read attachment content" []))
         | inl content =>
             Some (inl [gomail.Attach (mail.Filename a) content
                          (if negb (String.eqb (mail.ContentType a) EmptyString)
                           then Some (mail.ContentType a) else None)])
         end,
         gomail.mkState (gomail.reads st) (gomail.calls st) (gomail.drained st ++ [r]))
    end).
Proof.
  unfold gomail.addAttachment, gomail.io_bind, gomail.io_ReadAll.
  destruct (mail.Content a) as [r |]; [| reflexivity].
  destruct (mail.ReadAll r (count_occ Pos.eq_dec (gomail.drained st) r));
    [| reflexivity].
  destruct (negb (String.eqb (mail.ContentType a) EmptyString)); reflexivity.
Qed.

(** Reading the attachments makes no call on the dialer and does not
    read the clock, and it panics only on a nil reader. *)
Lemma add_attachments_calls (msg : list gomail.MessageCall)
    (attachments : list mail.Attachment) st :
  gomail.calls (snd (gomail.add_attachments msg attachments st)) = gomail.calls st /\
  gomail.reads (snd (gomail.add_attachments msg attachments st)) = gomail.reads st /\
  (fst (gomail.add_attachments msg attachments st) = None ->
   exists a, In a attachments /\ mail.Content a = None).
Proof.
  revert msg st. induction attachments as [| a rest IH]; intros msg st.
  - cbn. repeat split. discriminate.
  - cbn [gomail.add_attachments]. unfold gomail.io_bind.
    rewrite addAttachment_cases.
    destruct (mail.Content a) as [r |] eqn:Ec.
    + destruct (mail.ReadAll r (count_occ Pos.eq_dec (gomail.drained st) r))
        as [data | err].
      * match goal with
        | |- context [gomail.add_attachments ?msg1 rest ?st1] =>
            destruct (IH msg1 st1) as [I1 [I2 I4]]
        end.
        cbn [gomail.calls gomail.reads] in I1, I2.
        split; [exact I1 |]. split; [exact I2 |].
        intros E. destruct (I4 E) as [a' [Hin Ha]]. exists a'.
        split; [now right | exact Ha].
      * cbn. repeat split. discriminate.
    + cbn. repeat split. intros _. exists a. split; [now left | exact Ec].
Qed.

(** What reading the attachments gives depends on the readers read before
    and on nothing else of the state. *)
Lemma add_attachments_drained (msg : list gomail.MessageCall)
    (attachments : list mail.Attachment) st st2 :
  gomail.drained st2 = gomail.drained st ->
  fst (gomail.add_attachments msg attachments st2)
  = fst (gomail.add_attachments msg attachments st).
Proof.
  revert msg st st2. induction attachments as [| a rest IH]; intros msg st st2 Hd.
  - reflexivity.
  - cbn [gomail.add_attachments]. unfold gomail.io_bind.
    rewrite !addAttachment_cases, Hd.
    destruct (mail.Content a) as [r |]; [| reflexivity].
    destruct (mail.ReadAll r (count_occ Pos.eq_dec (gomail.drained st) r));
      [| reflexivity].
    apply IH. reflexivity.
Qed.

Lemma buildGoMailMessage_frame m st :
  gomail.calls (snd (gomail.buildGoMailMessage m st)) = gomail.calls st /\
  gomail.reads (snd (gomail.buildGoMailMessage m st)) = gomail.reads st /\
  (forall st2, gomail.drained st2 = gomail.drained st ->
     fst (gomail.buildGoMailMessage m st2) = fst (gomail.buildGoMailMessage m st)) /\
  (fst (gomail.buildGoMailMessage m st) = None ->
   exists a, In a (mail.Attachments m) /\ mail.Content a = None).
Proof.
  unfold gomail.buildGoMailMessage. cbv zeta.
  match goal with
  | |- context [gomail.add_attachments ?msg (mail.Attachments m) st] =>
      destruct (add_attachments_calls msg (mail.Attachments m) st) as [I1 [I2 I4]];
      pose proof (fun st2 => add_attachments_drained msg (mail.Attachments m) st st2)
        as I3
  end.
  split; [exact I1 |]. split; [exact I2 |]. split; [exact I3 | exact I4].
Qed.

Lemma send_each_tally g (messages : list (option mail.EmailMessage))
    (acc : mail.BulkSendResponse) st (res : option mail.BulkSendResponse) st' :
  gomail.send_each g messages acc st = (res, st') ->
  exists sends : list gomail.DialerCall,
    gomail.calls st' = gomail.calls st ++ sends /\
    Forall (fun c => gomail.is_Send c = true) sends /\
    match res with
    | Some resp =>
        (mail.SuccessCount resp + mail.FailureCount resp
         = mail.SuccessCount acc + mail.FailureCount acc
           + Z.of_nat (length messages))%Z /\
        (mail.SuccessCount acc <= mail.SuccessCount resp)%Z /\
        (mail.FailureCount resp - mail.FailureCount acc
         = Z.of_nat (length (mail.Errors resp)) - Z.of_nat (length (mail.Errors acc)))%Z /\
        length (mail.Results resp) = length (mail.Results acc) + length messages
    | None =>
        In None messages \/
        exists m a,
          In (Some m) messages /\ In a (mail.Attachments m) /\ mail.Content a = None
    end.
Proof.
  revert acc st. induction messages as [| message rest IH]; intros acc st E.
  - cbn in E. injection E as <- <-. exists []. rewrite app_nil_r.
    split; [reflexivity |]. split; [constructor |]. cbn [length]. repeat split; lia.
  - cbn [gomail.send_each] in E. destruct message as [m |].
    2: { cbn in E. injection E as <- <-. exists []. rewrite app_nil_r.
         split; [reflexivity |]. split; [constructor | left; now left]. }
    unfold gomail.io_bind at 1 in E.
    destruct (buildGoMailMessage_frame m st) as [B1 [_ [_ B4]]].
    destruct (gomail.buildGoMailMessage m st) as [[[msg | err] |] st0];
      cbn [fst snd] in B1, B4.
    + unfold gomail.io_bind at 1 in E. unfold gomail.ask at 1 in E.
      destruct (gomail.answer (gomail.calls st0) (gomail.Send msg)) as [e |].
      * apply IH in E as [sends [I1 [I2 I3]]]. cbn [gomail.calls] in I1.
        exists (gomail.Send msg :: sends).
        split; [rewrite I1, B1; now rewrite <- app_assoc |].
        split; [now constructor |].
        destruct res as [resp |].
        2: { destruct I3 as [I3 | [m' [a [Hin Hrest]]]]; [left; now right |].
             right. exists m', a. split; [now right | exact Hrest]. }
        unfold gomail.add_failure in I3.
        cbn [mail.SuccessCount mail.FailureCount mail.Errors mail.Results length] in I3.
        rewrite !length_app in I3. cbn [length] in I3.
        destruct I3 as [J1 [J2 [J3 J4]]]. cbn [length]. repeat split; lia.
      * unfold gomail.io_bind at 1 in E.
        match type of E with
        | context [gomail.generateMessageID g ?st1] =>
            pose proof (generateMessageID_calls g st1) as Hid;
            destruct (gomail.generateMessageID g st1) as [id st2]
        end.
        cbn [snd gomail.calls] in Hid.
        unfold gomail.io_bind at 1 in E. unfold gomail.Now in E.
        apply IH in E as [sends [I1 [I2 I3]]]. cbn [gomail.calls] in I1.
        exists (gomail.Send msg :: sends).
        split; [rewrite I1, Hid, B1; now rewrite <- app_assoc |].
        split; [now constructor |].
        destruct res as [resp |].
        2: { destruct I3 as [I3 | [m' [a [Hin Hrest]]]]; [left; now right |].
             right. exists m', a. split; [now right | exact Hrest]. }
        cbn [mail.SuccessCount mail.FailureCount mail.Errors mail.Results length] in I3.
        rewrite !length_app in I3. cbn [length] in I3.
        destruct I3 as [J1 [J2 [J3 J4]]]. cbn [length]. repeat split; lia.
    + apply IH in E as [sends [I1 [I2 I3]]].
      exists sends. split; [rewrite I1, B1; reflexivity |]. split; [exact I2 |].
      destruct res as [resp |].
      2: { destruct I3 as [I3 | [m' [a [Hin Hrest]]]]; [left; now right |].
           right. exists m', a. split; [now right | exact Hrest]. }
      unfold gomail.add_failure in I3.
      cbn [mail.SuccessCount mail.FailureCount mail.Errors mail.Results length] in I3.
      rewrite !length_app in I3. cbn [length] in I3.
      destruct I3 as [J1 [J2 [J3 J4]]]. cbn [length]. repeat split; lia.
    + unfold gomail.io_ret in E. injection E as <- <-. exists [].
      rewrite app_nil_r. split; [exact B1 |]. split; [constructor |].
      right. destruct (B4 eq_refl) as [a [Hin Ha]]. exists m, a.
      split; [now left |]. split; assumption.
Qed.

(** X17: [SendBulkEmails] of the GoMail provider, when it returns, returns
    no error and accounts for every message: one result per message, the
    two counts add up to the number of messages, one error per failure.
    It does not return, but panics, only after the dial succeeded and
    only at a nil message or at a message with an attachment that has a
    nil reader; with neither in the list it returns.  It dials at most
    once, and a connection it opened is closed once, as the last call,
    also when it panics, with nothing but sends in between. *)
Theorem gomail_SendBulkEmails_accounts_for_every_message g (c : Context)
    (messages : list (option mail.EmailMessage)) st :
  match fst (gomail.SendBulkEmails g c messages st) with
  | Some (resp, err) =>
      err = None /\
      (mail.SuccessCount resp + mail.FailureCount resp = Z.of_nat (length messages))%Z /\
      (0 <= mail.SuccessCount resp)%Z /\
      mail.FailureCount resp = Z.of_nat (length (mail.Errors resp)) /\
      length (mail.Results resp) = length messages
  | None =>
      (In None messages \/
       exists m a,
         In (Some m) messages /\ In a (mail.Attachments m) /\ mail.Content a = None) /\
      gomail.answer (gomail.calls st) gomail.Dial = None
  end /\
  (messages = [] \/ gomail.answer (gomail.calls st) gomail.Dial <> None \/
   exists sends : list gomail.DialerCall,
     gomail.calls (snd (gomail.SendBulkEmails g c messages st))
     = gomail.calls st ++ [gomail.Dial] ++ sends ++ [gomail.SenderClose] /\
     Forall (fun c => gomail.is_Send c = true) sends) /\
  (~ In None messages ->
   (forall m a, In (Some m) messages -> In a (mail.Attachments m) ->
      mail.Content a <> None) ->
   fst (gomail.SendBulkEmails g c messages st) <> None).
Proof.
  assert (match fst (gomail.SendBulkEmails g c messages st) with
          | Some (resp, err) =>
              err = None /\
              (mail.SuccessCount resp + mail.FailureCount resp
               = Z.of_nat (length messages))%Z /\
              (0 <= mail.SuccessCount resp)%Z /\
              mail.FailureCount resp = Z.of_nat (length (mail.Errors resp)) /\
              length (mail.Results resp) = length messages
          | None =>
              (In None messages \/
               exists m a,
                 In (Some m) messages /\ In a (mail.Attachments m) /\
                 mail.Content a = None) /\
              gomail.answer (gomail.calls st) gomail.Dial = None
          end /\
          (messages = [] \/ gomail.answer (gomail.calls st) gomail.Dial <> None \/
           exists sends : list gomail.DialerCall,
             gomail.calls (snd (gomail.SendBulkEmails g c messages st))
             = gomail.calls st ++ [gomail.Dial] ++ sends ++ [gomail.SenderClose] /\
             Forall (fun c => gomail.is_Send c = true) sends)) as [Hres Hcalls].
  { destruct (gomail.SendBulkEmails g c messages st) as [res0 st0] eqn:E.
    cbn [fst snd]. unfold gomail.SendBulkEmails in E.
    destruct messages as [| message rest].
    { cbn in E. injection E as <- <-. cbn. split; [repeat split; lia | now left]. }
    cbn [length Nat.eqb] in E. unfold gomail.io_bind at 1 in E.
    unfold gomail.ask at 1 in E.
    destruct (gomail.answer (gomail.calls st) gomail.Dial) as [e |] eqn:Ed.
    - unfold gomail.io_ret in E. injection E as <- <-.
      destruct (all_fail_tally (message :: rest) e (mail.mkBulkSendResponse 0 0 [] []))
        as [A1 [A2 [A3 A4]]].
      cbn [gomail.all_fail] in A1, A2, A3, A4. cbv beta iota. split.
      + rewrite A1, A2, A3, A4. cbn [mail.SuccessCount mail.FailureCount mail.Errors
                                     mail.Results app].
        rewrite !length_replicate. repeat split; lia.
      + right. left. discriminate.
    - unfold gomail.io_bind at 1 in E.
      match type of E with
      | context [gomail.send_each g ?ms ?acc1 ?st1] =>
          destruct (gomail.send_each g ms acc1 st1) as [resp st2] eqn:Es;
          apply send_each_tally in Es as [sends [I1 [I2 I3]]]
      end.
      cbn [fst snd gomail.calls] in *.
      unfold gomail.io_bind, gomail.ask in E.
      split.
      + destruct resp as [resp |]; unfold gomail.io_ret in E; injection E as <- <-.
        * cbn [mail.SuccessCount mail.FailureCount mail.Errors mail.Results length] in I3.
          destruct I3 as [J1 [J2 [J3 J4]]]. cbn [length]. repeat split; lia.
        * now split.
      + right. right. exists sends. split; [| exact I2].
        destruct resp as [resp |]; unfold gomail.io_ret in E; injection E as <- <-;
          cbn [gomail.calls]; rewrite I1; now rewrite <- !app_assoc. }
  split; [exact Hres |]. split; [exact Hcalls |].
  intros Hnil Hall E. rewrite E in Hres.
  destruct Hres as [[Hin | [m [a [Hin [Ha Hc]]]]] _]; [now apply Hnil |].
  now apply (Hall m a Hin Ha).
Qed.

(** X18: when the dial fails, [SendBulkEmails] of the GoMail provider sends
    nothing: every message is counted as failed with the error of the
    dial, and the dial is the only call made. *)
Theorem gomail_SendBulkEmails_dial_failure g (c : Context)
    (messages : list (option mail.EmailMessage)) st (e : mail.Error) :
  messages <> [] ->
  gomail.answer (gomail.calls st) gomail.Dial = Some e ->
  exists resp : mail.BulkSendResponse,
    fst (gomail.SendBulkEmails g c messages st) = Some (resp, None) /\
    mail.SuccessCount resp = 0%Z /\
    mail.FailureCount resp = Z.of_nat (length messages) /\
    mail.Errors resp = replicate (length messages) e /\
    mail.Results resp = replicate (length messages) (gomail.failed e) /\
    gomail.calls (snd (gomail.SendBulkEmails g c messages st))
    = gomail.calls st ++ [gomail.Dial].
Proof.
  intros Hne Hd. unfold gomail.SendBulkEmails.
  destruct messages as [| message rest]; [congruence |].
  cbn [length Nat.eqb]. unfold gomail.io_bind, gomail.ask. rewrite Hd.
  cbn [fst snd gomail.io_ret gomail.calls].
  destruct (all_fail_tally (message :: rest) e (mail.mkBulkSendResponse 0 0 [] []))
    as [A1 [A2 [A3 A4]]].
  eexists. split; [reflexivity |]. rewrite A1, A2, A3, A4. repeat split.
Qed.

(** X19: [SendBulkEmails] of the GoMail provider does not validate: a
    message that builds is sent on the open connection whether or not
    [validateEmailMessage] accepts it, whereas [SendEmail] answers a
    message that fails the validation without calling the dialer. *)
Theorem gomail_bulk_sends_without_validation g (c : Context) m
    (msg : list gomail.MessageCall) st :
  fst (gomail.buildGoMailMessage m st) = Some (inl msg) ->
  gomail.answer (gomail.calls st) gomail.Dial = None ->
  gomail.calls (snd (gomail.SendBulkEmails g c [Some m] st))
  = gomail.calls st ++ [gomail.Dial; gomail.Send msg; gomail.SenderClose] /\
  (forall err, gomail.validateEmailMessage (Some m) = Some err ->
     gomail.SendEmail g c (Some m) st
     = (Some (inr (mail.Wrap err mail.ValidationCode "invalid email message" [])), st)).
Proof.
  intros Hb Hd. split.
  - unfold gomail.SendBulkEmails. cbn [length Nat.eqb].
    unfold gomail.io_bind at 1. unfold gomail.ask at 1. rewrite Hd.
    cbn [gomail.send_each]. unfold gomail.io_bind at 1. unfold gomail.io_bind at 1.
    match goal with
    | |- context [gomail.buildGoMailMessage m ?st1] =>
        destruct (buildGoMailMessage_frame m st) as [_ [_ [B3 _]]];
        specialize (B3 st1 eq_refl); rewrite Hb in B3;
        destruct (buildGoMailMessage_frame m st1) as [B1 _];
        destruct (gomail.buildGoMailMessage m st1) as [built st2]
    end.
    cbn [fst snd gomail.calls] in B1, B3. subst built.
    unfold gomail.io_bind at 1. unfold gomail.ask at 1.
    destruct (gomail.answer (gomail.calls st2) (gomail.Send msg)).
    + cbn. rewrite B1. now rewrite <- !app_assoc.
    + unfold gomail.io_bind, gomail.generateMessageID, gomail.Now, gomail.io_ret,
        gomail.ask.
      cbn. rewrite B1. now rewrite <- !app_assoc.
  - intros err Hv. unfold gomail.SendEmail. now rewrite Hv.
Qed.

End gomail_provider.

Lemma gomail_SendBulkEmails_dial_failure_witness :
  exists resp : mail.BulkSendResponse,
    fst (@gomail.SendBulkEmails outbox.runtime outbox.unreachable outbox.gomail_provider
           Background [Some outbox.greeting; None] outbox.gomail_idle)
    = Some (resp, None) /\
    mail.SuccessCount resp = 0%Z /\
    mail.FailureCount resp = 2%Z.
Proof.
  destruct (@gomail_SendBulkEmails_dial_failure outbox.runtime outbox.unreachable
              outbox.gomail_provider Background [Some outbox.greeting; None]
              outbox.gomail_idle (mail.External "dial tcp: connection refused"))
    as [resp [H1 [H2 [H3 _]]]].
  - discriminate.
  - reflexivity.
  - exists resp. split; [exact H1 |]. split; [exact H2 | exact H3].
Defined.

Lemma gomail_bulk_sends_without_validation_witness :
  exists msg : list gomail.MessageCall,
    fst (@gomail.buildGoMailMessage outbox.runtime outbox.untitled outbox.gomail_idle)
    = Some (inl msg) /\
    gomail.validateEmailMessage (Some outbox.untitled)
    = Some (mail.New mail.ValidationCode "subject is required" []) /\
    gomail.calls (snd (@gomail.SendBulkEmails outbox.runtime outbox.dialer
                         outbox.gomail_provider Background [Some outbox.untitled]
                         outbox.gomail_idle))
    = gomail.calls outbox.gomail_idle
      ++ [gomail.Dial; gomail.Send msg; gomail.SenderClose].
Proof.
  destruct (fst (@gomail.buildGoMailMessage outbox.runtime outbox.untitled
                   outbox.gomail_idle)) as [[msg | err] |] eqn:E.
  - exists msg. split; [reflexivity |]. split; [reflexivity |].
    apply (@gomail_bulk_sends_without_validation outbox.runtime outbox.dialer
             outbox.gomail_provider Background outbox.untitled msg outbox.gomail_idle E).
    reflexivity.
  - vm_compute in E. discriminate E.
  - vm_compute in E. discriminate E.
Defined.

(** The code on small inputs: the panic on a nil reader comes after the
    dial, and the deferred close still runs; a reader is drained by its
    first read, so the second attachment on the same reader is empty. *)
Example gomail_SendBulkEmails_panics_on_a_nil_reader :
  @gomail.SendBulkEmails outbox.runtime outbox.dialer outbox.gomail_provider Background
    [Some outbox.unattached] outbox.gomail_idle
  = (None, gomail.mkState 0 [gomail.Dial; gomail.SenderClose] []).
Proof. vm_compute. reflexivity. Qed.

Example a_reader_is_drained_by_its_first_read :
  fst (@gomail.add_attachments outbox.runtime []
         (mail.Attachments outbox.report ++ mail.Attachments outbox.report)
         outbox.gomail_idle)
  = Some (inl [gomail.Attach "report.txt" "report" (Some "text/plain");
               gomail.Attach "report.txt" EmptyString (Some "text/plain")]).
Proof. vm_compute. reflexivity. Qed.

(* ================================================================== *)
(** * More properties of the bus *)
(* ================================================================== *)

Section bus_topics.

(** X20: the topics of the bus never collide: two command names that differ
    get different command topics, two event names that differ get
    different event topics, and no command topic is an event topic,
    whatever the names are (equal, empty, or with dots in them). *)
Theorem topics_do_not_collide :
  (forall n1 n2 : string,
     messaging.generateCommandTopic n1 = messaging.generateCommandTopic n2 -> n1 = n2) /\
  (forall n1 n2 : string,
     messaging.generateEventTopic n1 = messaging.generateEventTopic n2 -> n1 = n2) /\
  (forall n1 n2 : string,
     messaging.generateCommandTopic n1 <> messaging.generateEventTopic n2).
Proof.
  split; [| split].
  - intros n1 n2. rewrite !generateCommandTopic_eq. apply append_cancel_l.
  - intros n1 n2. rewrite !generateEventTopic_eq. apply append_cancel_l.
  - intros n1 n2. rewrite generateCommandTopic_eq, generateEventTopic_eq. intros E.
    apply (f_equal list_ascii_of_string) in E.
    rewrite !list_ascii_of_string_app in E. discriminate E.
Qed.

End bus_topics.

Section bus_hooks.
Context `{GoRuntime}.

Lemma stamp_hook_frame (msg : ptr) (w : World) (m : Message) (text key : string)
    (fields : list Attr) :
  heap w !! msg = Some m ->
  exists (w' : World) (m' : Message),
    (let! c := message.Message_Context msg in
     logger.Info c text fields ;!
     let! t := time_Now in
     message.Metadata_Set msg key (Time_String t) ;!
     ret None) w = Ret (@None error) w' /\
    heap w' !! msg = Some m' /\
    UUID m' = UUID m /\ Payload m' = Payload m /\ ctx m' = ctx m /\
    Metadata m' !! key = Some (Time_String (clock w)) /\
    (forall k : string, k <> key -> Metadata m' !! k = Metadata m !! k) /\
    (forall p : ptr, p <> msg -> heap w' !! p = heap w !! p) /\
    clock w' = clock w /\
    logs w' = logs w ++ [mkLogEntry None LevelInfo text fields].
Proof.
  intros E. eexists. eexists. split; [apply (stamp_hook _ _ _ _ _ _ E) |].
  cbn [heap clock logs].
  split; [apply lookup_insert_eq |]. cbn [UUID Payload ctx Metadata].
  split; [reflexivity |]. split; [reflexivity |]. split; [reflexivity |].
  split; [apply lookup_insert_eq |].
  split; [intros k Hk; now apply lookup_insert_ne |].
  split; [intros p Hp; now apply lookup_insert_ne |].
  split; reflexivity.
Qed.

(** X21: the pre-send hook of the command bus writes the time of the clock
    under ["sent_at"], the pre-publish hook of the event bus under
    ["published_at"], replacing what was there, and nothing else of the
    envelope changes: its id, payload, context and every other metadata
    entry are as before, as is every other message.  Each hook writes
    one log line and leaves the clock alone. *)
Theorem stamping_hooks_touch_only_their_key :
  (forall (params : cqrs.CommandBusOnSendParams) (w : World) (m : Message),
     heap w !! cqrs.cbs_Message params = Some m ->
     exists (w' : World) (m' : Message),
       messaging.OnSend params w = Ret None w' /\
       heap w' !! cqrs.cbs_Message params = Some m' /\
       UUID m' = UUID m /\ Payload m' = Payload m /\ ctx m' = ctx m /\
       Metadata m' !! "sent_at" = Some (Time_String (clock w)) /\
       (forall k : string, k <> "sent_at" -> Metadata m' !! k = Metadata m !! k) /\
       (forall p : ptr, p <> cqrs.cbs_Message params -> heap w' !! p = heap w !! p) /\
       clock w' = clock w /\
       logs w' = logs w ++ [mkLogEntry None LevelInfo "Sending command"
                              [AString "command_name" (cqrs.cbs_CommandName params)]]) /\
  (forall (params : cqrs.OnEventSendParams) (w : World) (m : Message),
     heap w !! cqrs.ebs_Message params = Some m ->
     exists (w' : World) (m' : Message),
       messaging.OnPublish params w = Ret None w' /\
       heap w' !! cqrs.ebs_Message params = Some m' /\
       UUID m' = UUID m /\ Payload m' = Payload m /\ ctx m' = ctx m /\
       Metadata m' !! "published_at" = Some (Time_String (clock w)) /\
       (forall k : string, k <> "published_at" -> Metadata m' !! k = Metadata m !! k) /\
       (forall p : ptr, p <> cqrs.ebs_Message params -> heap w' !! p = heap w !! p) /\
       clock w' = clock w /\
       logs w' = logs w ++ [mkLogEntry None LevelInfo "Publishing event"
                              [AString "event_name" (cqrs.ebs_EventName params)]]).
Proof.
  split; intros params w m E.
  - exact (stamp_hook_frame _ w m "Sending command" "sent_at" _ E).
  - exact (stamp_hook_frame _ w m "Publishing event" "published_at" _ E).
Qed.

End bus_hooks.
